(** * ts_container: the frame feeder and its pad probe

    A shallow embedding of the feeder loop of [src/main.cpp] (module
    [Main]), of the Redis-enabled feeder and video pad probe of
    [src/unnamed/part_000] (module [AvSync]), and of the helpers the two
    programs share ([make_frame_filename], [is_file_ready]).

    The programs talk to a file system, a steady clock, a GStreamer
    pipeline and a Redis server.  All four are outside the programs, so
    every call into them reads the answer from an environment: the
    [k]-th call made by the thread sees the [k]-th snapshot.  What the
    programs do to the outside (sleeping, writing to stderr, pushing a
    buffer) is appended to an output trace. *)

From Stdlib Require Import ZArith List String Ascii Bool Lia QArith Qround.
From Stdlib Require Import DecimalString.
From Stdlib Require DecimalN DecimalFacts Sorted.
Import ListNotations.

Local Open Scope string_scope.
Local Open Scope Z_scope.

(** ** Machine integers *)

(** [guint64] arithmetic wraps modulo 2^64. *)
Definition wrap64 (z : Z) : Z := z mod 2 ^ 64.

(** ** The GLib / GStreamer functions and constants the sources use *)

Module Gst.

Definition G_MAXUINT64 : Z := 2 ^ 64 - 1.
Definition GST_SECOND : Z := 1000000000.
Definition GST_CLOCK_TIME_NONE : Z := G_MAXUINT64.
Definition GST_BUFFER_OFFSET_NONE : Z := G_MAXUINT64.
Definition GST_FLOW_OK : Z := 0.

(** [gst_util_uint64_scale (val, num, denom)]: [val * num / denom] with a
    wide intermediate product, truncated towards zero; [G_MAXUINT64] when
    the quotient does not fit 64 bits or [denom] is 0. *)
Definition gst_util_uint64_scale (val num denom : Z) : Z :=
  if denom =? 0 then G_MAXUINT64
  else
    let q := val * num / denom in
    if G_MAXUINT64 <? q then G_MAXUINT64 else q.

(** What [gst_buffer_new_allocate] returns, as far as the feeder and the
    probe look at it: the payload and the four stamps, all four set to
    their NONE value on allocation. *)
Record GstBuffer := mkBuffer {
  payload : list Byte.byte;
  pts : Z;
  dts : Z;
  duration : Z;
  offset : Z
}.

Definition gst_buffer_new_allocate (data : list Byte.byte) : GstBuffer :=
  {| payload := data;
     pts := GST_CLOCK_TIME_NONE;
     dts := GST_CLOCK_TIME_NONE;
     duration := GST_CLOCK_TIME_NONE;
     offset := GST_BUFFER_OFFSET_NONE |}.

End Gst.

(** ** The environment *)

(** What opening a file with [std::ifstream] and reading it whole gives. *)
Inductive ReadResult :=
| OpenFailed
| ReadFailed
| Bytes (data : list Byte.byte).

(** One snapshot of the outside world, as one call sees it. *)
Record Snapshot := mkSnapshot {
  (** [files p]: the size of the regular file at [p], [None] when there is
      no file at [p]. *)
  files : string -> option Z;
  (** [std::chrono::steady_clock::now ()], in nanoseconds. *)
  steady_now : Z;
  (** opening [p] with [std::ifstream] and reading it to the end. *)
  ifstream_read : string -> ReadResult;
  (** whether [gst_buffer_map] succeeds. *)
  buffer_map_ok : bool;
  (** the [GstFlowReturn] of [gst_app_src_push_buffer]. *)
  push_result : Z
}.

Definition Env := nat -> Snapshot.

(** A line written to [std::cerr], by its kind and the numbers in it. *)
Inductive LogLine :=
| BehindSchedule (delta_ms frame : Z)
| FileNotReady (path : string)
| SkipFrame (fname : string) (kb : Z)
| SkipFramePrefix (fname : string)
| FailedToOpen (path : string)
| FailedReading (path : string)
| BufferMapFailed
| PushReturned (ret : Z)
| PushedFrame (frame : Z) (fname : string)
| Stats (fps delta_ms : Z).

(** What the thread does to the outside. *)
Inductive Event :=
| SleepFor (ms : Z)
| SleepUntil (t_ns : Z)
| Stderr (l : LogLine)
| PushBuffer (b : Gst.GstBuffer)
| CsvLine (frame custom_pts : Z) (fname : string).

(** C++ exceptions that can cross the modelled functions. *)
Inductive Exn :=
| filesystem_error (path : string).

(** The state a thread carries: the program's own variables [G], the number
    of calls made into the environment so far, and the output trace. *)
Record Sys (G : Type) := mkSys {
  globals : G;
  tick : nat;
  out : list Event
}.
Arguments mkSys {G}.
Arguments globals {G}.
Arguments tick {G}.
Arguments out {G}.

Inductive Res (A : Type) :=
| Ok (a : A)
| Raise (e : Exn).
Arguments Ok {A}.
Arguments Raise {A}.

(** Computations: read the environment, change the state, return or throw.
    The state survives a throw (what was written stays written). *)
Definition M (G A : Type) : Type := Env -> Sys G -> Res A * Sys G.

Definition ret {G A} (a : A) : M G A := fun _ s => (Ok a, s).

Definition bind {G A B} (m : M G A) (k : A -> M G B) : M G B :=
  fun env s =>
    match m env s with
    | (Ok a, s') => k a env s'
    | (Raise e, s') => (Raise e, s')
    end.

Definition throw {G A} (e : Exn) : M G A := fun _ s => (Raise e, s).

(** [try { m } catch (...) { h }] *)
Definition try_catch {G A} (m : M G A) (h : M G A) : M G A :=
  fun env s =>
    match m env s with
    | (Ok a, s') => (Ok a, s')
    | (Raise _, s') => h env s'
    end.

Declare Scope feeder_scope.
Delimit Scope feeder_scope with feeder.
Notation "x <- m ;; k" := (bind m (fun x => k))
  (at level 61, m at next level, right associativity) : feeder_scope.
Notation "m ;; k" := (bind m (fun _ => k))
  (at level 61, right associativity) : feeder_scope.
Local Open Scope feeder_scope.

(** One call into the environment: look at the current snapshot, move on. *)
Definition observe {G A} (f : Snapshot -> A) : M G A :=
  fun env s =>
    (Ok (f (env (tick s))),
     {| globals := globals s; tick := S (tick s); out := out s |}).

Definition emit {G} (e : Event) : M G unit :=
  fun _ s =>
    (Ok tt, {| globals := globals s; tick := tick s; out := (out s ++ [e])%list |}).

Definition get_globals {G} : M G G := fun _ s => (Ok (globals s), s).

Definition put_globals {G} (g : G) : M G unit :=
  fun _ s => (Ok tt, {| globals := g; tick := tick s; out := out s |}).

(** [std::filesystem::exists (path)] *)
Definition fs_exists {G} (path : string) : M G bool :=
  observe (fun w => match files w path with Some _ => true | None => false end).

(** [std::filesystem::file_size (path)]: throws when there is no file. *)
Definition fs_file_size {G} (path : string) : M G Z :=
  o <- observe (fun w => files w path) ;;
  match o with
  | Some n => ret n
  | None => throw (filesystem_error path)
  end.

Definition clock_now {G} : M G Z := observe steady_now.

Definition sleep_for {G} (ms : Z) : M G unit := emit (SleepFor ms).

Definition sleep_until {G} (t_ns : Z) : M G unit := emit (SleepUntil t_ns).

Definition cerr {G} (l : LogLine) : M G unit := emit (Stderr l).

(** ** Helpers shared by both programs *)

(** [%09lu]: decimal, zero-padded on the left to nine digits. *)
Definition fmt_09u (idx : Z) : string :=
  let d := NilZero.string_of_uint (N.to_uint (Z.to_N idx)) in
  string_of_list_ascii (repeat "0"%char (9 - String.length d)%nat) ++ d.

(** [make_frame_filename]: [snprintf] into a 256-byte buffer, so at most 255
    characters are kept. *)
Definition make_frame_filename (camera_prefix : string) (idx : Z) : string :=
  substring 0 255 ("frame_" ++ camera_prefix ++ "_" ++ fmt_09u idx ++ ".hevc").

(** Whether the last character of [s] is the directory separator. *)
Fixpoint ends_in_separator (s : string) : bool :=
  match s with
  | EmptyString => false
  | String c EmptyString => Ascii.eqb c "/"
  | String _ s' => ends_in_separator s'
  end.

(** [fs::path (FRAME_FOLDER) / fname], with POSIX paths: an absolute
    [fname] replaces the folder; otherwise a separator is put between the
    two unless the folder is empty or already ends in one. *)
Definition full_path (folder fname : string) : string :=
  match fname with
  | String "/" _ => fname
  | _ =>
      match folder with
      | EmptyString => fname
      | _ => if ends_in_separator folder then folder ++ fname
             else folder ++ "/" ++ fname
      end
  end.

(** The [for] loop of [is_file_ready], [n] attempts left. *)
Fixpoint is_file_ready_loop {G} (path : string) (delay_ms : Z)
    (n : nat) (last_size : Z) : M G bool :=
  match n with
  | O => ret false
  | S n' =>
      sleep_for delay_ms ;;
      e <- fs_exists path ;;
      if negb e then ret false
      else
        new_size <- fs_file_size path ;;
        if new_size =? last_size then ret true
        else is_file_ready_loop path delay_ms n' new_size
  end.

Definition is_file_ready_with {G} (path : string) (max_attempts delay_ms : Z)
  : M G bool :=
  e <- fs_exists path ;;
  if negb e then ret false
  else
    last_size <- fs_file_size path ;;
    is_file_ready_loop path delay_ms (Z.to_nat max_attempts) last_size.

(** [is_file_ready (path)] with its default arguments. *)
Definition is_file_ready {G} (path : string) : M G bool :=
  is_file_ready_with path 5 2.

(** How an iteration of a [while (true)] body ends. *)
Inductive LoopCtl :=
| Continue
| Break.

(** [std::chrono::duration_cast<milliseconds>] of a count of nanoseconds
    (integer division, truncated towards zero). *)
Definition ns_to_ms (ns : Z) : Z := Z.quot ns 1000000.

(** ** [src/main.cpp] *)

Module Main.

(** What [main] fixes before the feeder thread starts.  [TARGET_FPS] is a
    [guint]; [main] divides 90000 by it before it starts the feeder. *)
Record Config := mkConfig {
  TARGET_FPS : Z;
  (** [static_cast<int> (FrameIntervalMs * 1000)], microseconds; the
      product is computed in [double] once per iteration and only its
      integer value is used. *)
  frame_interval_us : Z;
  FRAME_FOLDER : string;
  camera_prefix : string;
  csv_is_open : bool
}.

(** The file-scope variables and the function-local statics of
    [feed_frames]. *)
Record Globals := mkGlobals {
  frame_counter : Z;
  current_index : Z;
  next_frame_time : Z;
  custom_pts : Z;
  increment_index : nat;
  last_log : option Z
}.

Definition increments : list Z := [299; 300; 301].

Definition set_next_frame_time (t : Z) (g : Globals) : Globals :=
  {| frame_counter := frame_counter g; current_index := current_index g;
     next_frame_time := t; custom_pts := custom_pts g;
     increment_index := increment_index g; last_log := last_log g |}.

Definition set_last_log (t : Z) (g : Globals) : Globals :=
  {| frame_counter := frame_counter g; current_index := current_index g;
     next_frame_time := next_frame_time g; custom_pts := custom_pts g;
     increment_index := increment_index g; last_log := Some t |}.

(** Lines 135-140: the CSV pattern moves on, both counters go up by one. *)
Definition advance (g : Globals) : Globals :=
  {| frame_counter := wrap64 (frame_counter g + 1);
     current_index := wrap64 (current_index g + 1);
     next_frame_time := next_frame_time g;
     custom_pts :=
       wrap64 (custom_pts g + nth (increment_index g) increments 0);
     increment_index :=
       ((increment_index g + 1) mod List.length increments)%nat;
     last_log := last_log g |}.

(** Lines 109-112: the three stamps written on the buffer. *)
Definition stamp (cfg : Config) (frame_counter : Z) (b : Gst.GstBuffer)
  : Gst.GstBuffer :=
  let pts :=
    Gst.gst_util_uint64_scale frame_counter Gst.GST_SECOND (TARGET_FPS cfg) in
  {| Gst.payload := Gst.payload b;
     Gst.pts := pts;
     Gst.dts := pts;
     Gst.duration :=
       Gst.gst_util_uint64_scale 1 Gst.GST_SECOND (TARGET_FPS cfg);
     Gst.offset := Gst.offset b |}.

(** Lines 142-148: the once-per-[TARGET_FPS]-frames statistics line. *)
Definition log_stats (cfg : Config) : M Globals unit :=
  g <- get_globals ;;
  (match last_log g with
   | Some _ => ret tt
   | None => t <- clock_now ;; put_globals (set_last_log t g)
   end) ;;
  g <- get_globals ;;
  if frame_counter g mod TARGET_FPS cfg =? 0 then
    now <- clock_now ;;
    cerr (Stats (TARGET_FPS cfg)
            (ns_to_ms (now - match last_log g with Some t => t | None => 0 end))) ;;
    put_globals (set_last_log now g)
  else ret tt.

(** Lines 60-67: sleep until [next_frame_time] when it is still ahead, then
    move it on by one interval; nothing is written when it is behind. *)
Definition pace (cfg : Config) : M Globals unit :=
  now <- clock_now ;;
  g <- get_globals ;;
  (if now <? next_frame_time g then sleep_until (next_frame_time g)
   else ret tt) ;;
  put_globals
    (set_next_frame_time (next_frame_time g + frame_interval_us cfg * 1000) g).

(** One pass through the body of [while (true)] (lines 59-149). *)
Definition feed_iteration (cfg : Config) : M Globals LoopCtl :=
  pace cfg ;;
  g <- get_globals ;;
  let fname := make_frame_filename (camera_prefix cfg) (current_index g) in
  let fullpath := full_path (FRAME_FOLDER cfg) fname in
  ready <- is_file_ready fullpath ;;
  if negb ready then
    cerr (FileNotReady fullpath) ;;
    sleep_for 100 ;;
    ret Continue
  else
    r <- observe (fun w => ifstream_read w fullpath) ;;
    match r with
    | OpenFailed => cerr (FailedToOpen fullpath) ;; ret Break
    | ReadFailed => cerr (FailedReading fullpath) ;; ret Break
    | Bytes data =>
        mapped <- observe buffer_map_ok ;;
        if negb mapped then cerr BufferMapFailed ;; ret Break
        else
          let buffer :=
            stamp cfg (frame_counter g) (Gst.gst_buffer_new_allocate data) in
          emit (PushBuffer buffer) ;;
          flow <- observe push_result ;;
          if negb (flow =? Gst.GST_FLOW_OK) then
            cerr (PushReturned flow) ;; ret Break
          else
            cerr (PushedFrame (frame_counter g) fname) ;;
            (if csv_is_open cfg
             then emit (CsvLine (frame_counter g) (custom_pts g) fname)
             else ret tt) ;;
            put_globals (advance g) ;;
            log_stats cfg ;;
            ret Continue
    end.

(** [while (true) { ... }], at most [fuel] passes.  [Ok true]: the loop
    was left by [break]; [Ok false]: it is still running after [fuel]
    passes. *)
Fixpoint feed_loop (cfg : Config) (fuel : nat) : M Globals bool :=
  match fuel with
  | O => ret false
  | S fuel' =>
      c <- feed_iteration cfg ;;
      match c with
      | Break => ret true
      | Continue => feed_loop cfg fuel'
      end
  end.

(** [feed_frames]: the static [next_frame_time] is set on entry. *)
Definition feed_frames (cfg : Config) (fuel : nat) : M Globals bool :=
  t0 <- clock_now ;;
  g <- get_globals ;;
  put_globals (set_next_frame_time t0 g) ;;
  feed_loop cfg fuel.

(** The variables as [main] leaves them for the feeder. *)
Definition initial_globals (start_index : Z) : Globals :=
  {| frame_counter := 0; current_index := start_index;
     next_frame_time := 0; custom_pts := 324000000;
     increment_index := 0; last_log := None |}.

End Main.

(** ** [std::string] operations of the probe *)

(** [s.find_last_of (c)] *)
Fixpoint find_last_of (c : ascii) (s : string) : option nat :=
  match s with
  | EmptyString => None
  | String d s' =>
      match find_last_of c s' with
      | Some i => Some (S i)
      | None => if Ascii.eqb d c then Some O else None
      end
  end.

Fixpoint mem_ascii (c : ascii) (cs : string) : bool :=
  match cs with
  | EmptyString => false
  | String d cs' => Ascii.eqb c d || mem_ascii c cs'
  end.

(** [s.find_first_of (cs, pos)] *)
Fixpoint find_first_of (cs : string) (pos : nat) (s : string) : option nat :=
  match s with
  | EmptyString => None
  | String d s' =>
      match pos with
      | O =>
          if mem_ascii d cs then Some O
          else option_map S (find_first_of cs O s')
      | S p => option_map S (find_first_of cs p s')
      end
  end.

(** [std::string (char const* )]: the characters up to the first NUL. *)
Fixpoint c_str (s : string) : string :=
  match s with
  | EmptyString => EmptyString
  | String d s' => if Ascii.eqb d "000"%char then EmptyString else String d (c_str s')
  end.

(** The double-quote character. *)
Definition dquote : ascii := "034"%char.

(** [isspace] in the C locale. *)
Definition isspace (c : ascii) : bool :=
  match c with
  | " "%char | "009"%char | "010"%char | "011"%char | "012"%char | "013"%char => true
  | _ => false
  end.

Fixpoint skip_spaces (s : string) : string :=
  match s with
  | String c s' => if isspace c then skip_spaces s' else s
  | EmptyString => s
  end.

(** The value of a decimal digit, the character code less that of the
    character 0; [None] for any other character. *)
Definition digit_of (c : ascii) : option Z :=
  let code := Z.of_N (N_of_ascii c) in
  if (48 <=? code) && (code <=? 57) then Some (code - 48) else None.

(** The value of the longest run of decimal digits at the head of [s],
    [None] when [s] does not start with a digit ([seen] tells whether a
    digit has been read already). *)
Fixpoint digits_value (acc : Z) (seen : bool) (s : string) : option Z :=
  match s with
  | EmptyString => if seen then Some acc else None
  | String c s' =>
      match digit_of c with
      | Some d => digits_value (acc * 10 + d) true s'
      | None => if seen then Some acc else None
      end
  end.

(** What [std::stoull (str)] does: the value, or one of its two exceptions. *)
Inductive StoullResult :=
| Parsed (value : Z)
| invalid_argument
| out_of_range.

(** [std::stoull (s)], base 10, as [strtoull] does it: white space is
    skipped, one sign is accepted, the digits are read up to the first other
    character; no digit at all is [invalid_argument], a value above
    [ULLONG_MAX] is [out_of_range], and a minus sign negates the value in
    the unsigned type. *)
Definition stoull (s : string) : StoullResult :=
  let s1 := skip_spaces s in
  let '(negative, s2) :=
    match s1 with
    | String "-"%char r => (true, r)
    | String "+"%char r => (false, r)
    | _ => (false, s1)
    end in
  match digits_value 0 false s2 with
  | None => invalid_argument
  | Some v =>
      if 2 ^ 64 - 1 <? v then out_of_range
      else Parsed (if negative then wrap64 (- v) else v)
  end.

(** ** [src/unnamed/part_000] *)

Module AvSync.

(** *** The video pad probe *)

(** A reply of hiredis, by [reply->type]. *)
Inductive redisReply :=
| REDIS_REPLY_STRING (str : string)
| REDIS_REPLY_NIL
| REDIS_REPLY_OTHER.

(** A connected [redisContext]: what [redisCommand (ctx, "GET %s", key)]
    returns, [None] for the NULL the library returns on a connection
    error. *)
Definition redisContext := string -> option redisReply.

(** [struct ProbeData]; the two streams by whether they are open,
    [redis = None] for a null context. *)
Record ProbeData := mkProbeData {
  csv : bool;
  csv_summary : bool;
  redis : option redisContext
}.

Definition GST_PAD_PROBE_TYPE_BUFFER : Z := 16.

Record GstPadProbeInfo := mkInfo {
  type : Z;
  data : option Gst.GstBuffer
}.

Inductive GstPadProbeReturn :=
| GST_PAD_PROBE_DROP
| GST_PAD_PROBE_OK
| GST_PAD_PROBE_REMOVE
| GST_PAD_PROBE_PASS
| GST_PAD_PROBE_HANDLED.

(** The eight CSV fields the probe fills in for a frame. *)
Record MetadataRecord := mkMetadata {
  ball : string;
  frame_name : string;
  innings : string;
  isStart : string;
  matchID : string;
  over : string;
  ptp_timestamp : string;
  received_at : string
}.

(** Line 116: "Prepare CSV fields with defaults". *)
Definition defaults : MetadataRecord :=
  {| ball := "1"; frame_name := "NA"; innings := "1"; isStart := "false";
     matchID := "123"; over := "1"; ptp_timestamp := "NA";
     received_at := "NA" |}.

(** The label the lambda looks for: the key in double quotes, then a
    colon. *)
Definition label (key : string) : string :=
  String dquote key ++ String dquote ":".

(** The lambda [extract] of lines 123-138. *)
Definition extract (json key : string) : string :=
  match index 0 (label key) json with
  | None => "NA"
  | Some p =>
      let pos := (p + String.length key + 3)%nat in
      if (String.length json <=? pos)%nat then "NA"
      else
        match get pos json with
        | None => "NA"
        | Some c =>
            if Ascii.eqb c dquote then
              match index (pos + 1) (String dquote EmptyString) json with
              | None => "NA"
              | Some e => substring (pos + 1) (e - pos - 1) json
              end
            else
              match find_first_of ",}" pos json with
              | None => substring pos (String.length json - pos) json
              | Some e => substring pos (e - pos) json
              end
        end
  end.

(** Lines 140-147. *)
Definition parse_record (json : string) : MetadataRecord :=
  {| ball := extract json "ball";
     innings := extract json "innings";
     isStart := extract json "isStart";
     matchID := extract json "matchID";
     over := extract json "over";
     frame_name := extract json "frame_name";
     ptp_timestamp := extract json "ptp_timestamp";
     received_at := extract json "received_at" |}.

(** Line 113: [fname.substr (0, fname.find_last_of ('.'))]. *)
Definition redis_key (fname : string) : string :=
  match find_last_of "." fname with
  | Some i => substring 0 i fname
  | None => fname
  end.

(** Lines 118-150: at most one GET; the fields keep their defaults unless
    the reply is a string. *)
Definition lookup (pdata : option ProbeData) (redis_key : string)
  : MetadataRecord * list string :=
  match pdata with
  | Some pd =>
      match redis pd with
      | Some ctx =>
          (match ctx redis_key with
           | Some (REDIS_REPLY_STRING str) => parse_record (c_str str)
           | _ => defaults
           end,
           [redis_key])
      | None => (defaults, [])
      end
  | None => (defaults, [])
  end.

(** The function-local statics [prev_ball], [prev_over], [prev_innings]. *)
Record Prev := mkPrev {
  prev_ball : string;
  prev_over : string;
  prev_innings : string
}.

(** Line 99. *)
Definition initial_prev : Prev :=
  {| prev_ball := "0"; prev_over := "0"; prev_innings := "0" |}.

(** A row of the main CSV ([pts_90k = None] prints as NA) or of the
    summary CSV, by its columns in order. *)
Inductive Row :=
| MainRow (frame_counter : Z) (pts_90k : option Z) (fname : string)
    (ball frame_name innings isStart matchID over ptp_timestamp
       received_at : string)
| SummaryRow (frame_counter pts_90k : Z) (over ball innings matchID : string).

Definition main_row (fc : Z) (pts_90k : option Z) (fname : string)
    (m : MetadataRecord) : Row :=
  MainRow fc pts_90k fname (ball m) (frame_name m) (innings m) (isStart m)
    (matchID m) (over m) (ptp_timestamp m) (received_at m).

Definition csv_open (pdata : option ProbeData) : bool :=
  match pdata with Some pd => csv pd | None => false end.

Definition csv_summary_open (pdata : option ProbeData) : bool :=
  match pdata with Some pd => csv_summary pd | None => false end.

(** Line 166. *)
Definition changed (m : MetadataRecord) (p : Prev) : bool :=
  negb (String.eqb (ball m) (prev_ball p))
  || negb (String.eqb (over m) (prev_over p))
  || negb (String.eqb (innings m) (prev_innings p)).

(** What one call of the probe does. *)
Record ProbeOut := mkProbeOut {
  result : GstPadProbeReturn;
  (** the rows written, main CSV and summary CSV, in the order written *)
  rows : list Row;
  (** the keys asked of Redis *)
  gets : list string;
  statics : Prev
}.

Definition summary_rows (rs : list Row) : list Row :=
  filter (fun r => match r with SummaryRow _ _ _ _ _ _ => true | _ => false end) rs.

Definition main_rows (rs : list Row) : list Row :=
  filter (fun r => match r with MainRow _ _ _ _ _ _ _ _ _ _ _ => true | _ => false end) rs.

(** [video_probe]; [frame_counter] is the value of the global when the
    probe reads it. *)
Definition video_probe (camera_prefix : string) (frame_counter : Z)
    (info : GstPadProbeInfo) (pdata : option ProbeData) (prev : Prev)
  : ProbeOut :=
  if Z.land (type info) GST_PAD_PROBE_TYPE_BUFFER =? 0 then
    {| result := GST_PAD_PROBE_OK; rows := []; gets := []; statics := prev |}
  else
    match data info with
    | None =>
        {| result := GST_PAD_PROBE_OK; rows := []; gets := [];
           statics := prev |}
    | Some buffer =>
        let pts := Gst.pts buffer in
        let fname := make_frame_filename camera_prefix frame_counter in
        let (m, asked) := lookup pdata (redis_key fname) in
        let written :=
          if negb (pts =? Gst.GST_CLOCK_TIME_NONE) then
            let pts_90k :=
              Gst.gst_util_uint64_scale pts 90000 Gst.GST_SECOND in
            ((if csv_open pdata
              then [main_row frame_counter (Some pts_90k) fname m]
              else [])
             ++
             (if csv_summary_open pdata && changed m prev
              then [SummaryRow frame_counter pts_90k (over m) (ball m)
                      (innings m) (matchID m)]
              else []))%list
          else
            if csv_open pdata
            then [main_row frame_counter None fname m]
            else [] in
        {| result := GST_PAD_PROBE_OK;
           rows := written;
           gets := asked;
           statics :=
             {| prev_ball := ball m; prev_over := over m;
                prev_innings := innings m |} |}
    end.

(** *** The feeder *)

(** What [main] fixes before the feeder thread starts.  [TARGET_FPS] is a
    [guint]; [main] divides 90000 by it before it starts the feeder. *)
Record Config := mkConfig {
  TARGET_FPS : Z;
  (** the [double] global, by its exact value *)
  FrameIntervalMs : Q;
  (** [static_cast<int> (FrameIntervalMs * 1000)], microseconds: the
      count of the local [frame_duration], computed in [double] on entry
      of [feed_frames]. *)
  frame_duration : Z;
  FRAME_FOLDER : string;
  camera_prefix : string
}.

(** The two file-scope counters, the local [start_time] and the
    function-local static [last_log] of [feed_frames]. *)
Record Globals := mkGlobals {
  frame_counter : Z;
  current_index : Z;
  start_time : Z;
  last_log : option Z
}.

Definition set_start_time (t : Z) (g : Globals) : Globals :=
  {| frame_counter := frame_counter g; current_index := current_index g;
     start_time := t; last_log := last_log g |}.

Definition set_last_log (t : Z) (g : Globals) : Globals :=
  {| frame_counter := frame_counter g; current_index := current_index g;
     start_time := start_time g; last_log := Some t |}.

(** Line 283: [current_index++]. *)
Definition skip (g : Globals) : Globals :=
  {| frame_counter := frame_counter g;
     current_index := wrap64 (current_index g + 1);
     start_time := start_time g; last_log := last_log g |}.

(** Lines 336-337: [frame_counter++; current_index++]. *)
Definition advance (g : Globals) : Globals :=
  {| frame_counter := wrap64 (frame_counter g + 1);
     current_index := wrap64 (current_index g + 1);
     start_time := start_time g; last_log := last_log g |}.

Definition IFRAME_MIN_SIZE : Z := 30 * 1024.

(** [is_iframe]: any exception of the two file-system calls is caught. *)
Definition is_iframe {G} (path : string) : M G bool :=
  try_catch
    (e <- fs_exists path ;;
     if negb e then ret false
     else
       sz <- fs_file_size path ;;
       ret (IFRAME_MIN_SIZE <=? sz))
    (ret false).

(** Line 254: [start_time + frame_counter * frame_duration].  The product
    of a [guint64] and a count of microseconds is an unsigned 64-bit count
    of microseconds, and adding it to a time point gives an unsigned
    64-bit count of nanoseconds. *)
Definition expected_time (cfg : Config) (g : Globals) : Z :=
  wrap64 (wrap64 (start_time g)
          + wrap64 (wrap64 (frame_counter g * wrap64 (frame_duration cfg)) * 1000)).

(** Line 263: [delta > FrameIntervalMs], the integer [delta] converted to
    [double] (exactly, below 2^53). *)
Definition behind (cfg : Config) (delta : Z) : bool :=
  negb (Qle_bool (inject_Z delta) (FrameIntervalMs cfg)).

(** Lines 253-266: sleep until the expected time, or warn when late. *)
Definition pace (cfg : Config) : M Globals unit :=
  g <- get_globals ;;
  let expected := expected_time cfg g in
  now <- clock_now ;;
  if wrap64 now <? expected then sleep_until expected
  else
    let delta := ns_to_ms (wrap64 (wrap64 now - expected)) in
    if behind cfg delta then cerr (BehindSchedule delta (frame_counter g))
    else ret tt.

(** Lines 339-346: the once-per-[TARGET_FPS]-frames statistics line. *)
Definition log_stats (cfg : Config) : M Globals unit :=
  g <- get_globals ;;
  (match last_log g with
   | Some _ => ret tt
   | None => t <- clock_now ;; put_globals (set_last_log t g)
   end) ;;
  g <- get_globals ;;
  if frame_counter g mod TARGET_FPS cfg =? 0 then
    now2 <- clock_now ;;
    cerr (Stats (TARGET_FPS cfg)
            (ns_to_ms (now2 - match last_log g with Some t => t | None => 0 end))) ;;
    put_globals (set_last_log now2 g)
  else ret tt.

(** Line 323: [GST_BUFFER_OFFSET (buffer) = current_index]; the stamps stay
    as allocated (lines 317-320 are commented out). *)
Definition set_offset (index : Z) (b : Gst.GstBuffer) : Gst.GstBuffer :=
  {| Gst.payload := Gst.payload b; Gst.pts := Gst.pts b;
     Gst.dts := Gst.dts b; Gst.duration := Gst.duration b;
     Gst.offset := index |}.

(** Lines 281-282: the line is written piece by piece, so the text before
    the size is out when [file_size] throws. *)
Definition log_skip (fullpath fname : string) : M Globals unit :=
  o <- observe (fun w => files w fullpath) ;;
  match o with
  | Some sz => cerr (SkipFrame fname (sz / 1024))
  | None => cerr (SkipFramePrefix fname) ;; throw (filesystem_error fullpath)
  end.

(** One pass through the body of [while (true)] (lines 252-347). *)
Definition feed_iteration (cfg : Config) : M Globals LoopCtl :=
  pace cfg ;;
  g <- get_globals ;;
  let fname := make_frame_filename (camera_prefix cfg) (current_index g) in
  let fullpath := full_path (FRAME_FOLDER cfg) fname in
  ready <- is_file_ready fullpath ;;
  if negb ready then
    cerr (FileNotReady fullpath) ;;
    sleep_for 100 ;;
    ret Continue
  else
    iframe <- is_iframe fullpath ;;
    if negb iframe then
      log_skip fullpath fname ;;
      put_globals (skip g) ;;
      ret Continue
    else
      r <- observe (fun w => ifstream_read w fullpath) ;;
      match r with
      | OpenFailed =>
          cerr (FailedToOpen fullpath) ;; sleep_for 100 ;; ret Continue
      | ReadFailed =>
          cerr (FailedReading fullpath) ;; sleep_for 100 ;; ret Continue
      | Bytes bufferdata =>
          mapped <- observe buffer_map_ok ;;
          if negb mapped then cerr BufferMapFailed ;; ret Break
          else
            let buffer :=
              set_offset (current_index g)
                (Gst.gst_buffer_new_allocate bufferdata) in
            emit (PushBuffer buffer) ;;
            flow <- observe push_result ;;
            if negb (flow =? Gst.GST_FLOW_OK) then
              cerr (PushReturned flow) ;; ret Break
            else
              cerr (PushedFrame (frame_counter g) fname) ;;
              put_globals (advance g) ;;
              log_stats cfg ;;
              ret Continue
      end.

(** [while (true) { ... }], at most [fuel] passes.  [Ok true]: the loop
    was left by [break]; [Ok false]: it is still running after [fuel]
    passes. *)
Fixpoint feed_loop (cfg : Config) (fuel : nat) : M Globals bool :=
  match fuel with
  | O => ret false
  | S fuel' =>
      c <- feed_iteration cfg ;;
      match c with
      | Break => ret true
      | Continue => feed_loop cfg fuel'
      end
  end.

(** [feed_frames]: [start_time] is read on entry. *)
Definition feed_frames (cfg : Config) (fuel : nat) : M Globals bool :=
  t0 <- clock_now ;;
  g <- get_globals ;;
  put_globals (set_start_time t0 g) ;;
  feed_loop cfg fuel.

(** The variables as [main] leaves them for the feeder. *)
Definition initial_globals (start_index : Z) : Globals :=
  {| frame_counter := 0; current_index := start_index;
     start_time := 0; last_log := None |}.

(** *** Start-up *)

(** A directory entry as [find_first_index_fast] looks at it. *)
Record DirEntry := mkDirEntry {
  is_regular_file : bool;
  filename : string
}.

(** How [find_first_index_fast] ends: with an index, or with one of its two
    [std::runtime_error]s. *)
Inductive FirstIndex :=
| Found (index : Z)
| InvalidFileName (fname : string)
| NoValidFiles.

(** [find_first_index_fast]; [entries] is the directory in the order
    [fs::directory_iterator] yields it. *)
Fixpoint find_first_index_fast (entries : list DirEntry) : FirstIndex :=
  match entries with
  | [] => NoValidFiles
  | entry :: rest =>
      if is_regular_file entry then
        let fname := filename entry in
        match index 0 "frame_camera01_" fname, index 0 ".hevc" fname with
        | Some O, Some _ =>
            let number_str :=
              substring (String.length "frame_camera01_")
                (String.length fname - String.length "frame_camera01_" - 5)
                fname in
            match stoull number_str with
            | Parsed v => Found v
            | _ => InvalidFileName fname
            end
        | _, _ => find_first_index_fast rest
        end
      else find_first_index_fast rest
  end.

(** How the start index of [main] ends (lines 377-380). *)
Inductive StartIndex :=
| StartAt (current_index : Z)
| StartFailed.

(** Lines 377-380: [argv[1]] parsed with [std::stoull]; 0 asks for the
    first file of the folder plus 6000. *)
Definition start_index (argv1 : string) (entries : list DirEntry) : StartIndex :=
  match stoull argv1 with
  | Parsed 0 =>
      match find_first_index_fast entries with
      | Found first => StartAt (wrap64 (first + 6000))
      | _ => StartFailed
      end
  | Parsed v => StartAt v
  | _ => StartFailed
  end.

(** *** The audio pad probe *)

(** A row of the audio CSV. *)
Inductive AudioRow :=
| mkAudioRow (index pts_90k : Z).

(** [audio_probe]: the rows written and the new value of
    [audio_frame_counter]; [None] when the probe is of buffer type and has
    no buffer, which the function dereferences unchecked. *)
Definition audio_probe (info : GstPadProbeInfo) (audio_frame_counter : Z)
  : option (GstPadProbeReturn * list AudioRow * Z) :=
  if negb (Z.land (type info) GST_PAD_PROBE_TYPE_BUFFER =? 0) then
    match data info with
    | None => None
    | Some buffer =>
        let pts := Gst.pts buffer in
        if negb (pts =? Gst.GST_CLOCK_TIME_NONE) then
          let pts_90k := Gst.gst_util_uint64_scale pts 90000 Gst.GST_SECOND in
          Some (GST_PAD_PROBE_OK,
                [mkAudioRow audio_frame_counter pts_90k],
                wrap64 (audio_frame_counter + 1))
        else Some (GST_PAD_PROBE_OK, [], audio_frame_counter)
    end
  else Some (GST_PAD_PROBE_OK, [], audio_frame_counter).

End AvSync.

(** * Vocabulary of the statements *)

(** The buffers handed to [gst_app_src_push_buffer], oldest first. *)
Definition pushed (evs : list Event) : list Gst.GstBuffer :=
  flat_map (fun e => match e with PushBuffer b => [b] | _ => [] end) evs.

(** The rows written to the CSV of [src/main.cpp], oldest first. *)
Definition csv_lines (evs : list Event) : list Event :=
  filter (fun e => match e with CsvLine _ _ _ => true | _ => false end) evs.

(** A computation is [silent] when it leaves the program's variables alone,
    pushes no buffer and writes no CSV row, whatever it returns. *)
Definition silent {G A} (m : M G A) : Prop :=
  forall env s r s',
    m env s = (r, s') ->
    globals s' = globals s /\
    pushed (out s') = pushed (out s) /\
    csv_lines (out s') = csv_lines (out s).

(** The start of a thread: no call made yet, nothing written. *)
Definition boot {G} (g : G) : Sys G := {| globals := g; tick := O; out := [] |}.

(** The buffers of a list carry, in order, the stamps that [src/main.cpp]
    computes from the frame counts 0, 1, 2, ... *)
Definition stamped_in_order (cfg : Main.Config) (bs : list Gst.GstBuffer) : Prop :=
  forall k b,
    nth_error bs k = Some b ->
    b = Main.stamp cfg (wrap64 (Z.of_nat k))
          (Gst.gst_buffer_new_allocate (Gst.payload b)).

(** The PTS column (90 kHz ticks) that [video_probe] writes to the main CSV
    for a buffer. *)
Definition logged_pts_90k (b : Gst.GstBuffer) : option Z :=
  match
    AvSync.rows
      (AvSync.video_probe "camera01" 0
         {| AvSync.type := AvSync.GST_PAD_PROBE_TYPE_BUFFER;
            AvSync.data := Some b |}
         (Some {| AvSync.csv := true; AvSync.csv_summary := false;
                  AvSync.redis := None |})
         AvSync.initial_prev)
  with
  | AvSync.MainRow _ p _ _ _ _ _ _ _ _ _ :: _ => p
  | _ => None
  end.

(** The lines written to [std::cerr], oldest first. *)
Definition stderr_lines (evs : list Event) : list LogLine :=
  flat_map (fun e => match e with Stderr l => [l] | _ => [] end) evs.

(** An open or read failure. *)
Definition load_failed (r : ReadResult) : Prop :=
  r = OpenFailed \/ r = ReadFailed.

(** The stderr line of an open or read failure. *)
Definition load_failure_line (r : ReadResult) (path : string) : LogLine :=
  match r with
  | ReadFailed => FailedReading path
  | _ => FailedToOpen path
  end.

(** *** The probe *)

(** The probe is called for a buffer [b]. *)
Definition carries_buffer (info : AvSync.GstPadProbeInfo) (b : Gst.GstBuffer) : Prop :=
  Z.land (AvSync.type info) AvSync.GST_PAD_PROBE_TYPE_BUFFER <> 0 /\
  AvSync.data info = Some b.

Definition buffer_info (b : Gst.GstBuffer) : AvSync.GstPadProbeInfo :=
  {| AvSync.type := AvSync.GST_PAD_PROBE_TYPE_BUFFER; AvSync.data := Some b |}.

(** The key the probe asks Redis for when [frame_counter] reads [fc]. *)
Definition frame_key (camera_prefix : string) (fc : Z) : string :=
  AvSync.redis_key (make_frame_filename camera_prefix fc).

(** The fields the probe ends up with for that frame. *)
Definition frame_metadata (camera_prefix : string) (fc : Z)
    (pdata : option AvSync.ProbeData) : AvSync.MetadataRecord :=
  fst (AvSync.lookup pdata (frame_key camera_prefix fc)).

(** The string Redis holds for a key, as the probe gets it: [None] when
    there is no context (the store was unreachable at start-up), when the
    command returns NULL (the connection broke), or when the reply is not a
    string (the key is absent). *)
Definition string_reply (pdata : option AvSync.ProbeData) (key : string)
  : option string :=
  match pdata with
  | Some pd =>
      match AvSync.redis pd with
      | Some ctx =>
          match ctx key with
          | Some (AvSync.REDIS_REPLY_STRING str) => Some str
          | _ => None
          end
      | None => None
      end
  | None => None
  end.

Definition field_names : list string :=
  ["ball"; "innings"; "isStart"; "matchID"; "over"; "frame_name";
   "ptp_timestamp"; "received_at"].

(** A value in which none of the eight labels occurs. *)
Definition no_labels (json : string) : Prop :=
  forall key, In key field_names -> index 0 (AvSync.label key) json = None.

(** Every field holds the value [v]. *)
Definition every_field_is (v : string) (m : AvSync.MetadataRecord) : Prop :=
  AvSync.ball m = v /\ AvSync.frame_name m = v /\ AvSync.innings m = v /\
  AvSync.isStart m = v /\ AvSync.matchID m = v /\ AvSync.over m = v /\
  AvSync.ptp_timestamp m = v /\ AvSync.received_at m = v.

(** The triple the change detector compares. *)
Definition triple (m : AvSync.MetadataRecord) : string * string * string :=
  (AvSync.ball m, AvSync.over m, AvSync.innings m).

Definition prev_triple (p : AvSync.Prev) : string * string * string :=
  (AvSync.prev_ball p, AvSync.prev_over p, AvSync.prev_innings p).

(** The PTS column of a row for a buffer. *)
Definition pts_column (b : Gst.GstBuffer) : option Z :=
  if Gst.pts b =? Gst.GST_CLOCK_TIME_NONE then None
  else Some (Gst.gst_util_uint64_scale (Gst.pts b) 90000 Gst.GST_SECOND).

(** The summary row of a frame. *)
Definition summary_row (fc : Z) (b : Gst.GstBuffer) (m : AvSync.MetadataRecord)
  : AvSync.Row :=
  AvSync.SummaryRow fc (Gst.gst_util_uint64_scale (Gst.pts b) 90000 Gst.GST_SECOND)
    (AvSync.over m) (AvSync.ball m) (AvSync.innings m) (AvSync.matchID m).

(** ** Concrete worlds for the examples *)

(** Every frame file is there, 40 KiB and not growing; it opens and reads;
    the pipeline takes every buffer; the clock stands at [t]. *)
Definition calm_world (t : Z) : Snapshot :=
  {| files := fun _ => Some 40960;
     steady_now := t;
     ifstream_read := fun _ => Bytes [];
     buffer_map_ok := true;
     push_result := Gst.GST_FLOW_OK |}.

Definition calm_env : Env := fun _ => calm_world 0.

Definition main_cfg (fps : Z) : Main.Config :=
  {| Main.TARGET_FPS := fps;
     Main.frame_interval_us := 1000000 / fps;
     Main.FRAME_FOLDER := "/ramdisk";
     Main.camera_prefix := "camera01";
     Main.csv_is_open := true |}.

Ltac run_in H :=
  unfold bind, ret, throw, get_globals, put_globals, clock_now, observe,
    cerr, sleep_for, sleep_until, emit in H;
  cbn beta iota delta [globals tick out fst snd negb] in H.

(** The feeder of [src/main.cpp] started on index 0 in the calm world and
    watched for [fuel] passes of its loop. *)
Definition calm_main_run (fps : Z) (fuel : nat) : Res bool * Sys Main.Globals :=
  Main.feed_frames (main_cfg fps) fuel calm_env (boot (Main.initial_globals 0)).

(** The file of frame 0 of camera01 in [/ramdisk]. *)
Definition frame0_path : string :=
  full_path "/ramdisk" (make_frame_filename "camera01" 0).

(** As the calm world, but the frame files have been removed. *)
Definition emptied_world : Snapshot :=
  {| files := fun _ => None;
     steady_now := 0;
     ifstream_read := fun _ => OpenFailed;
     buffer_map_ok := true;
     push_result := Gst.GST_FLOW_OK |}.

(** The frame files are there for the first [n] calls and gone afterwards
    (the ring buffer on the capture side has recycled them). *)
Definition removed_after (n : nat) : Env :=
  fun t => if (t <? n)%nat then calm_world 0 else emptied_world.

(** The configuration [main] builds for 300 frames per second:
    [1000.0 / 300] is the [double] 7505999378950827 / 2^51, and a thousand
    times it truncates to 3333 microseconds. *)
Definition avsync_cfg_300 : AvSync.Config :=
  {| AvSync.TARGET_FPS := 300;
     AvSync.FrameIntervalMs := 7505999378950827 # 2251799813685248;
     AvSync.frame_duration := 3333;
     AvSync.FRAME_FOLDER := "/ramdisk";
     AvSync.camera_prefix := "camera01" |}.

(** The same for 1000 frames per second, where the interval is 1.0 ms and
    1000 microseconds exactly. *)
Definition avsync_cfg_1000 : AvSync.Config :=
  {| AvSync.TARGET_FPS := 1000;
     AvSync.FrameIntervalMs := 1;
     AvSync.frame_duration := 1000;
     AvSync.FRAME_FOLDER := "/ramdisk";
     AvSync.camera_prefix := "camera01" |}.

(** The file a pass of the feeder of part_000 looks at: the one named after
    [current_index]. *)
Definition frame_name_of (cfg : AvSync.Config) (g : AvSync.Globals) : string :=
  make_frame_filename (AvSync.camera_prefix cfg) (AvSync.current_index g).

Definition frame_path_of (cfg : AvSync.Config) (g : AvSync.Globals) : string :=
  full_path (AvSync.FRAME_FOLDER cfg) (frame_name_of cfg g).

(** The same for the feeder of [src/main.cpp]. *)
Definition main_frame_path_of (cfg : Main.Config) (g : Main.Globals) : string :=
  full_path (Main.FRAME_FOLDER cfg)
    (make_frame_filename (Main.camera_prefix cfg) (Main.current_index g)).

(** Every frame file is there, 1000 bytes and not growing. *)
Definition small_frames_world : Snapshot :=
  {| files := fun _ => Some 1000;
     steady_now := 0;
     ifstream_read := fun _ => Bytes [];
     buffer_map_ok := true;
     push_result := Gst.GST_FLOW_OK |}.

Definition small_frames_env : Env := fun _ => small_frames_world.

(** The 1000-byte frame files are there for the first [n] calls and gone
    afterwards. *)
Definition small_then_removed (n : nat) : Env :=
  fun t => if (t <? n)%nat then small_frames_world else emptied_world.

(** Every frame file is there, 40 KiB and not growing, but cannot be opened. *)
Definition unreadable_world : Snapshot :=
  {| files := fun _ => Some 40960;
     steady_now := 0;
     ifstream_read := fun _ => OpenFailed;
     buffer_map_ok := true;
     push_result := Gst.GST_FLOW_OK |}.

Definition unreadable_env : Env := fun _ => unreadable_world.

(** A buffer stamped 1 s, as the probe sees it. *)
Definition one_second_buffer : Gst.GstBuffer :=
  {| Gst.payload := []; Gst.pts := Gst.GST_SECOND; Gst.dts := Gst.GST_SECOND;
     Gst.duration := 3333333; Gst.offset := 0 |}.

(** Both CSV files open, no Redis context (the connection failed in [main]). *)
Definition pdata_unreachable : option AvSync.ProbeData :=
  Some {| AvSync.csv := true; AvSync.csv_summary := true; AvSync.redis := None |}.

(** Both CSV files open, Redis answering every GET with [reply]. *)
Definition pdata_answering (reply : AvSync.redisReply) : option AvSync.ProbeData :=
  Some {| AvSync.csv := true; AvSync.csv_summary := true;
          AvSync.redis := Some (fun _ => Some reply) |}.

(** A stored record whose ball, over and innings are all 0. *)
Definition json_all_zero : string :=
  "{" ++ AvSync.label "ball" ++ "0," ++ AvSync.label "over" ++ "0,"
      ++ AvSync.label "innings" ++ "0," ++ AvSync.label "matchID" ++ "77}".

(** A stored record for ball 3 of over 12, second innings. *)
Definition json_ball_3 : string :=
  "{" ++ AvSync.label "ball" ++ "3," ++ AvSync.label "over" ++ "12,"
      ++ AvSync.label "innings" ++ "2," ++ AvSync.label "matchID" ++ "77}".

(** * Vocabulary of the further statements *)

(** The video probe called once per element of [calls], in order, each call
    with the value [frame_counter] has when it runs; the function-local
    statics carry over from call to call. *)
Fixpoint video_probe_calls (camera_prefix : string)
    (calls : list (Z * AvSync.GstPadProbeInfo * option AvSync.ProbeData))
    (prev : AvSync.Prev) : list AvSync.Row * AvSync.Prev :=
  match calls with
  | [] => ([], prev)
  | (fc, info, pdata) :: rest =>
      let o := AvSync.video_probe camera_prefix fc info pdata prev in
      let '(rs, final) := video_probe_calls camera_prefix rest (AvSync.statics o) in
      ((AvSync.rows o ++ rs)%list, final)
  end.

(** The audio probe called once per element of [infos], in order;
    [audio_frame_counter] carries over. *)
Fixpoint audio_probe_calls (infos : list AvSync.GstPadProbeInfo) (counter : Z)
  : option (list AvSync.AudioRow * Z) :=
  match infos with
  | [] => Some ([], counter)
  | info :: rest =>
      match AvSync.audio_probe info counter with
      | None => None
      | Some (_, rs, counter') =>
          match audio_probe_calls rest counter' with
          | None => None
          | Some (rs', final) => Some ((rs ++ rs')%list, final)
          end
      end
  end.

Definition audio_row_index (r : AvSync.AudioRow) : Z :=
  match r with AvSync.mkAudioRow i _ => i end.

(** The buffer calls among [infos] whose buffer has a PTS. *)
Definition stamped_buffer_calls (infos : list AvSync.GstPadProbeInfo) : nat :=
  List.length
    (filter
       (fun info =>
          negb (Z.land (AvSync.type info) AvSync.GST_PAD_PROBE_TYPE_BUFFER =? 0)
          && match AvSync.data info with
             | Some b => negb (Gst.pts b =? Gst.GST_CLOCK_TIME_NONE)
             | None => false
             end)
       infos).

(** A string of decimal digits only. *)
Fixpoint all_digits (s : string) : bool :=
  match s with
  | EmptyString => true
  | String c s' =>
      match digit_of c with Some _ => all_digits s' | None => false end
  end.

(** A string in which the character [c] does not occur. *)
Fixpoint lacks (c : ascii) (s : string) : bool :=
  match s with
  | EmptyString => true
  | String d s' => negb (Ascii.eqb d c) && lacks c s'
  end.

(** No character of [s] is a comma or a closing brace. *)
Fixpoint plain_value (s : string) : bool :=
  match s with
  | EmptyString => true
  | String d s' => negb (mem_ascii d ",}") && plain_value s'
  end.

(** The custom PTS that [src/main.cpp] writes in row [3 * q + r] of its CSV
    ([r < 3]). *)
Definition custom_pts_at (q r : nat) : Z :=
  324000000 + 900 * Z.of_nat q + nth r [0; 299; 599] 0.

(** The sleeps among the events, by their length in milliseconds. *)
Definition sleeps (evs : list Event) : list Z :=
  flat_map (fun e => match e with SleepFor ms => [ms] | _ => [] end) evs.

(** The value of a string of decimal digits, most significant first
    (reading stops at the first other character). *)
Fixpoint decimal_value_from (acc : Z) (ds : string) : Z :=
  match ds with
  | EmptyString => acc
  | String c r =>
      match digit_of c with
      | Some d => decimal_value_from (acc * 10 + d) r
      | None => acc
      end
  end.

Definition decimal_value (ds : string) : Z := decimal_value_from 0 ds.

(** The string is empty or starts with a character that is not a digit. *)
Definition stops_digits (t : string) : Prop :=
  match t with
  | EmptyString => True
  | String c _ => digit_of c = None
  end.

(** A regular file of that name. *)
Definition file_entry (fname : string) : AvSync.DirEntry :=
  {| AvSync.is_regular_file := true; AvSync.filename := fname |}.

(** What [find_first_index_fast] tests on a directory entry. *)
Definition is_frame_entry (e : AvSync.DirEntry) : bool :=
  AvSync.is_regular_file e
  && match index 0 "frame_camera01_" (AvSync.filename e) with
     | Some O => true
     | _ => false
     end
  && match index 0 ".hevc" (AvSync.filename e) with
     | Some _ => true
     | None => false
     end.

(** Every frame file is there and is one byte longer at every call. *)
Definition growing_env : Env :=
  fun t =>
    {| files := fun _ => Some (Z.of_nat t);
       steady_now := 0;
       ifstream_read := fun _ => Bytes [];
       buffer_map_ok := true;
       push_result := Gst.GST_FLOW_OK |}.

(** No frame file is there, ever. *)
Definition empty_env : Env := fun _ => emptied_world.

(** The calls of the video probe for a list of frames: each frame is the
    value [frame_counter] has at the call, the buffer, and the probe data
    (with Redis as it answers at that moment). *)
Definition frame_calls (frames : list (Z * Gst.GstBuffer * option AvSync.ProbeData))
  : list (Z * AvSync.GstPadProbeInfo * option AvSync.ProbeData) :=
  map (fun f => match f with (fc, b, pdata) => (fc, buffer_info b, pdata) end) frames.

(** The main row of a frame. *)
Definition frame_main_row (camera_prefix : string)
    (f : Z * Gst.GstBuffer * option AvSync.ProbeData) : AvSync.Row :=
  match f with
  | (fc, b, pdata) =>
      AvSync.main_row fc (pts_column b) (make_frame_filename camera_prefix fc)
        (frame_metadata camera_prefix fc pdata)
  end.

(** The four variables of [src/main.cpp] that only an accepted push
    changes. *)
Definition main_counters (g : Main.Globals) : Z * Z * Z * nat :=
  (Main.frame_counter g, Main.current_index g, Main.custom_pts g,
   Main.increment_index g).

(** What holds of the CSV of [src/main.cpp] at every point of a run that
    started on index [start]: with [3 * q + r] rows written, the counters
    stand at that number, and row [3 * q' + r'] holds its own number, the
    custom PTS of that number and the file name of index [start] plus that
    number. *)
Definition main_csv_invariant (cfg : Main.Config) (start : Z)
    (s : Sys Main.Globals) : Prop :=
  exists q r : nat,
    (r < 3)%nat /\
    List.length (csv_lines (out s)) = (3 * q + r)%nat /\
    main_counters (globals s)
    = (wrap64 (Z.of_nat (3 * q + r)), wrap64 (start + Z.of_nat (3 * q + r)),
       wrap64 (custom_pts_at q r), r) /\
    forall (q' r' : nat) (line : Event),
      (r' < 3)%nat ->
      nth_error (csv_lines (out s)) (3 * q' + r') = Some line ->
      line = CsvLine (wrap64 (Z.of_nat (3 * q' + r')))
               (wrap64 (custom_pts_at q' r'))
               (make_frame_filename (Main.camera_prefix cfg)
                  (wrap64 (start + Z.of_nat (3 * q' + r')))).

(** A buffer as the feeder of part_000 hands it over: read from the file
    of index [Gst.offset], at least [low], with no stamp set. *)
Definition unstamped_from (low : Z) (b : Gst.GstBuffer) : Prop :=
  low <= Gst.offset b /\
  Gst.pts b = Gst.GST_CLOCK_TIME_NONE /\
  Gst.dts b = Gst.GST_CLOCK_TIME_NONE /\
  Gst.duration b = Gst.GST_CLOCK_TIME_NONE.

(** Evaluates [digit_of] on the characters written out in the goal. *)
Ltac known_digits :=
  repeat match goal with
         | |- context [digit_of (Ascii ?a ?b ?c ?d ?e ?f ?g ?h)] =>
             let v := eval vm_compute in (digit_of (Ascii a b c d e f g h)) in
             change (digit_of (Ascii a b c d e f g h)) with v
         end;
  cbv iota.

(** * Properties *)

(** ** Arithmetic of the stamps *)

Lemma G_MAXUINT64_value : Gst.G_MAXUINT64 = 18446744073709551615.
Proof. reflexivity. Qed.

Lemma wrap64_small (z : Z) : 0 <= z < 2 ^ 64 -> wrap64 z = z.
Proof. intros H. unfold wrap64. apply Z.mod_small; exact H. Qed.

Lemma scale_in_range (val num denom : Z) :
  0 < denom ->
  val * num / denom <= Gst.G_MAXUINT64 ->
  Gst.gst_util_uint64_scale val num denom = val * num / denom.
Proof.
  intros Hd Hq. unfold Gst.gst_util_uint64_scale.
  destruct (Z.eqb_spec denom 0) as [E | _]; [lia |].
  destruct (Z.ltb_spec Gst.G_MAXUINT64 (val * num / denom)); [lia | reflexivity].
Qed.

Lemma scale_saturates (val num denom : Z) :
  0 < denom ->
  Gst.G_MAXUINT64 < val * num / denom ->
  Gst.gst_util_uint64_scale val num denom = Gst.G_MAXUINT64.
Proof.
  intros Hd Hq. unfold Gst.gst_util_uint64_scale.
  destruct (Z.eqb_spec denom 0) as [E | _]; [lia |].
  destruct (Z.ltb_spec Gst.G_MAXUINT64 (val * num / denom)); [reflexivity | lia].
Qed.

(** Consecutive quotients of a rational scale differ by the quotient of the
    step, or by one more. *)
Lemma div_step (n g f : Z) :
  0 < f -> 0 <= g ->
  (n + 1) * g / f - n * g / f = g / f \/
  (n + 1) * g / f - n * g / f = g / f + 1.
Proof.
  intros Hf Hg.
  pose proof (Z.div_mod (n * g) f ltac:(lia)) as E1.
  pose proof (Z.mod_pos_bound (n * g) f Hf) as B1.
  pose proof (Z.div_mod g f ltac:(lia)) as E2.
  pose proof (Z.mod_pos_bound g f Hf) as B2.
  set (q := n * g / f) in *. set (r := (n * g) mod f) in *.
  set (d := g / f) in *. set (e := g mod f) in *.
  assert (E : (n + 1) * g = (q + d) * f + (r + e)) by lia.
  rewrite E.
  destruct (Z_lt_ge_dec (r + e) f) as [L | L].
  - left. rewrite Z.div_add_l by lia. rewrite (Z.div_small (r + e)) by lia. lia.
  - right. replace ((q + d) * f + (r + e)) with ((q + d + 1) * f + (r + e - f)) by lia.
    rewrite Z.div_add_l by lia. rewrite (Z.div_small (r + e - f)) by lia. lia.
Qed.

Lemma div_step_exact (n g f : Z) :
  0 < f -> (f | g) ->
  (n + 1) * g / f - n * g / f = g / f.
Proof.
  intros Hf [k ->].
  replace ((n + 1) * (k * f)) with (((n + 1) * k) * f) by lia.
  replace (n * (k * f)) with ((n * k) * f) by lia.
  rewrite !Z.div_mul by lia. lia.
Qed.

(** ** What a computation leaves untouched *)

Lemma pushed_app (a b : list Event) : pushed (a ++ b) = (pushed a ++ pushed b)%list.
Proof. unfold pushed. apply flat_map_app. Qed.

Lemma csv_lines_app (a b : list Event) :
  csv_lines (a ++ b) = (csv_lines a ++ csv_lines b)%list.
Proof. unfold csv_lines. apply filter_app. Qed.

Lemma silent_ret {G A} (a : A) : silent (@ret G A a).
Proof. intros env s r s' H. inversion H; subst. auto. Qed.

Lemma silent_throw {G A} (e : Exn) : silent (@throw G A e).
Proof. intros env s r s' H. inversion H; subst. auto. Qed.

Lemma silent_observe {G A} (f : Snapshot -> A) : silent (@observe G A f).
Proof. intros env s r s' H. inversion H; subst. simpl. auto. Qed.

Lemma silent_bind {G A B} (m : M G A) (k : A -> M G B) :
  silent m -> (forall a, silent (k a)) -> silent (bind m k).
Proof.
  intros Hm Hk env s r s' H. unfold bind in H.
  destruct (m env s) as [[a | e] s1] eqn:E.
  - destruct (Hm _ _ _ _ E) as (G1 & P1 & C1).
    destruct (Hk a _ _ _ _ H) as (G2 & P2 & C2).
    repeat split; congruence.
  - inversion H; subst. exact (Hm _ _ _ _ E).
Qed.

Lemma silent_try_catch {G A} (m h : M G A) :
  silent m -> silent h -> silent (try_catch m h).
Proof.
  intros Hm Hh env s r s' H. unfold try_catch in H.
  destruct (m env s) as [[a | e] s1] eqn:E.
  - inversion H; subst. exact (Hm _ _ _ _ E).
  - destruct (Hm _ _ _ _ E) as (G1 & P1 & C1).
    destruct (Hh _ _ _ _ H) as (G2 & P2 & C2).
    repeat split; congruence.
Qed.

Lemma silent_sleep_for {G} (ms : Z) : silent (@sleep_for G ms).
Proof.
  intros env s r s' H. inversion H; subst. simpl.
  rewrite pushed_app, csv_lines_app. simpl. rewrite !app_nil_r. auto.
Qed.

Lemma silent_sleep_until {G} (t : Z) : silent (@sleep_until G t).
Proof.
  intros env s r s' H. inversion H; subst. simpl.
  rewrite pushed_app, csv_lines_app. simpl. rewrite !app_nil_r. auto.
Qed.

Lemma silent_cerr {G} (l : LogLine) : silent (@cerr G l).
Proof.
  intros env s r s' H. inversion H; subst. simpl.
  rewrite pushed_app, csv_lines_app. simpl. rewrite !app_nil_r. auto.
Qed.

Lemma silent_fs_exists {G} (p : string) : silent (@fs_exists G p).
Proof. apply silent_observe. Qed.

Lemma silent_fs_file_size {G} (p : string) : silent (@fs_file_size G p).
Proof.
  apply silent_bind; [apply silent_observe |].
  intros [n |]; [apply silent_ret | apply silent_throw].
Qed.

Lemma silent_is_file_ready_loop {G} (p : string) (d : Z) (n : nat) :
  forall last, silent (@is_file_ready_loop G p d n last).
Proof.
  induction n as [| n IH]; intros last; simpl.
  - apply silent_ret.
  - apply silent_bind; [apply silent_sleep_for | intros _].
    apply silent_bind; [apply silent_fs_exists | intros e].
    destruct e; simpl; [| apply silent_ret].
    apply silent_bind; [apply silent_fs_file_size | intros sz].
    destruct (sz =? last); [apply silent_ret | apply IH].
Qed.

Lemma silent_is_file_ready {G} (p : string) : silent (@is_file_ready G p).
Proof.
  unfold is_file_ready, is_file_ready_with.
  apply silent_bind; [apply silent_fs_exists | intros e].
  destruct e; cbn [negb]; [| apply silent_ret].
  apply silent_bind; [apply silent_fs_file_size | intros sz].
  apply silent_is_file_ready_loop.
Qed.

(** ** The feeder of [src/main.cpp], pass by pass *)

Lemma main_pace_effect cfg env s r s' :
  Main.pace cfg env s = (r, s') ->
  r = Ok tt /\
  Main.frame_counter (globals s') = Main.frame_counter (globals s) /\
  Main.current_index (globals s') = Main.current_index (globals s) /\
  Main.custom_pts (globals s') = Main.custom_pts (globals s) /\
  pushed (out s') = pushed (out s) /\
  csv_lines (out s') = csv_lines (out s).
Proof.
  unfold Main.pace. intros H. run_in H.
  destruct (steady_now (env (tick s)) <? Main.next_frame_time (globals s));
    run_in H; inversion H; subst; cbn;
    rewrite ?pushed_app, ?csv_lines_app; cbn; rewrite ?app_nil_r; auto 10.
Qed.

Lemma main_log_stats_effect cfg env s r s' :
  Main.log_stats cfg env s = (r, s') ->
  r = Ok tt /\
  Main.frame_counter (globals s') = Main.frame_counter (globals s) /\
  Main.current_index (globals s') = Main.current_index (globals s) /\
  pushed (out s') = pushed (out s) /\
  csv_lines (out s') = csv_lines (out s).
Proof.
  unfold Main.log_stats. intros H. run_in H.
  destruct (Main.last_log (globals s)); run_in H;
    cbn [Main.set_last_log Main.frame_counter Main.last_log] in H;
    destruct (Main.frame_counter (globals s) mod Main.TARGET_FPS cfg =? 0);
    run_in H; inversion H; subst; cbn;
    rewrite ?pushed_app, ?csv_lines_app; cbn; rewrite ?app_nil_r; auto 10.
Qed.

(** How one pass can end: without a push and with both counters as they
    were, or with one push of a buffer stamped from [frame_counter], after
    which either the loop is left (the push was refused) or both counters
    are one higher. *)
Lemma main_iteration_cases cfg env s r s' :
  Main.feed_iteration cfg env s = (r, s') ->
  let g := globals s in
  let g' := globals s' in
  (pushed (out s') = pushed (out s) /\
   Main.frame_counter g' = Main.frame_counter g /\
   Main.current_index g' = Main.current_index g)
  \/
  (exists data,
     pushed (out s') =
       (pushed (out s)
        ++ [Main.stamp cfg (Main.frame_counter g) (Gst.gst_buffer_new_allocate data)])%list /\
     ((r = Ok Break /\
       Main.frame_counter g' = Main.frame_counter g /\
       Main.current_index g' = Main.current_index g)
      \/
      (r = Ok Continue /\
       Main.frame_counter g' = wrap64 (Main.frame_counter g + 1) /\
       Main.current_index g' = wrap64 (Main.current_index g + 1)))).
Proof.
  unfold Main.feed_iteration. intros H. cbn zeta.
  unfold bind at 1 in H.
  destruct (Main.pace cfg env s) as [r0 s0] eqn:Hp.
  destruct (main_pace_effect _ _ _ _ _ Hp) as (-> & F0 & I0 & _ & P0 & _).
  unfold bind at 1 in H. unfold get_globals at 1 in H.
  unfold bind at 1 in H.
  match type of H with
  | context [is_file_ready ?p env s0] =>
      destruct (is_file_ready p env s0) as [[ready | e] s1] eqn:Hr
  end;
    destruct (silent_is_file_ready _ _ _ _ _ Hr) as (G1 & P1 & _).
  2:{ inversion H; subst. left. rewrite G1, P1, P0, F0, I0. auto. }
  destruct ready; cbn [negb] in H.
  2:{ run_in H. inversion H; subst. cbn.
      rewrite !pushed_app. cbn. rewrite !app_nil_r.
      left. rewrite G1, P1, P0, F0, I0. auto. }
  run_in H.
  destruct (ifstream_read (env (tick s1)) _) as [| | bytes];
    run_in H.
  1,2: inversion H; subst; cbn; rewrite !pushed_app; cbn;
       rewrite !app_nil_r; left; rewrite G1, P1, P0, F0, I0; auto.
  destruct (buffer_map_ok (env (S (tick s1)))); run_in H.
  2:{ inversion H; subst; cbn; rewrite !pushed_app; cbn;
      rewrite !app_nil_r; left; rewrite G1, P1, P0, F0, I0; auto. }
  destruct (push_result (env (S (S (tick s1)))) =? Gst.GST_FLOW_OK); run_in H.
  2:{ inversion H; subst; cbn. rewrite !pushed_app; cbn.
      rewrite !app_nil_r. right. exists bytes.
      rewrite G1, P1, P0, F0, I0. auto 10. }
  destruct (Main.csv_is_open cfg); run_in H;
    match type of H with
    | context [Main.log_stats cfg env ?st] =>
        destruct (Main.log_stats cfg env st) as [r2 s2] eqn:Hl
    end;
    destruct (main_log_stats_effect _ _ _ _ _ Hl) as (-> & F2 & I2 & P2 & _);
    cbn in F2, I2, P2;
    inversion H; subst;
    right; exists bytes; rewrite P2, F2, I2;
    rewrite !pushed_app; cbn; rewrite ?app_nil_r, ?G1, ?P1, ?P0, ?F0, ?I0; auto 10.
Qed.

(** ** The feeder of [src/main.cpp], over a run *)

Lemma wrap64_succ (n : Z) : wrap64 (wrap64 n + 1) = wrap64 (n + 1).
Proof. unfold wrap64. apply Zplus_mod_idemp_l. Qed.

Lemma stamped_in_order_snoc cfg bs data :
  stamped_in_order cfg bs ->
  stamped_in_order cfg
    (bs ++ [Main.stamp cfg (wrap64 (Z.of_nat (List.length bs)))
              (Gst.gst_buffer_new_allocate data)]).
Proof.
  intros Hbs k b Hk.
  destruct (Nat.lt_ge_cases k (List.length bs)) as [L | L].
  - rewrite nth_error_app1 in Hk by exact L. apply Hbs; exact Hk.
  - rewrite nth_error_app2 in Hk by exact L.
    destruct (k - List.length bs)%nat as [| j] eqn:E.
    + cbn in Hk. inversion Hk; subst b. replace k with (List.length bs) by lia.
      reflexivity.
    + cbn in Hk. destruct j; discriminate.
Qed.

(** The loop invariant: at the head of the loop [frame_counter] is the
    number of buffers pushed so far, and they are stamped in order. *)
Lemma main_loop_stamps cfg env fuel :
  forall s r s',
    Main.frame_counter (globals s)
      = wrap64 (Z.of_nat (List.length (pushed (out s)))) ->
    stamped_in_order cfg (pushed (out s)) ->
    Main.feed_loop cfg fuel env s = (r, s') ->
    stamped_in_order cfg (pushed (out s')).
Proof.
  induction fuel as [| fuel IH]; intros s r s' Hfc Hst H; cbn in H.
  - inversion H; subst. exact Hst.
  - unfold bind at 1 in H.
    destruct (Main.feed_iteration cfg env s) as [rc s1] eqn:Hi.
    pose proof (main_iteration_cases _ _ _ _ _ Hi) as Hc. cbn zeta in Hc.
    assert (Hst1 : stamped_in_order cfg (pushed (out s1))).
    { destruct Hc as [(P & _) | (data & P & _)].
      - rewrite P. exact Hst.
      - rewrite P, Hfc. apply stamped_in_order_snoc. exact Hst. }
    destruct rc as [[|] | e].
    + apply (IH s1 r s'); [| exact Hst1 | exact H].
      destruct Hc as [(P & F & _) | (data & P & [(Hb & _) | (_ & F & _)])].
      * rewrite P, F. exact Hfc.
      * discriminate Hb.
      * rewrite P, F, Hfc, length_app. cbn.
        rewrite wrap64_succ. f_equal. lia.
    + inversion H; subst. exact Hst1.
    + inversion H; subst. exact Hst1.
Qed.

Lemma main_run_stamps cfg env fuel start r s' :
  Main.feed_frames cfg fuel env (boot (Main.initial_globals start)) = (r, s') ->
  stamped_in_order cfg (pushed (out s')).
Proof.
  unfold Main.feed_frames. intros H. run_in H.
  apply (main_loop_stamps _ _ _ _ _ _ ) with (3 := H).
  - reflexivity.
  - intros k b Hk. destruct k; discriminate Hk.
Qed.

(** The stamps of the [k]-th pushed buffer of a run, in numbers. *)
Lemma main_run_stamp_values
    (cfg : Main.Config) (env : Env) (fuel : nat) (start : Z)
    (r : Res bool) (s' : Sys Main.Globals) (k : nat) (b : Gst.GstBuffer) :
  0 < Main.TARGET_FPS cfg ->
  Main.feed_frames cfg fuel env (boot (Main.initial_globals start)) = (r, s') ->
  nth_error (pushed (out s')) k = Some b ->
  Z.of_nat k * Gst.GST_SECOND / Main.TARGET_FPS cfg <= Gst.G_MAXUINT64 ->
  Z.of_nat k < 2 ^ 64 ->
  Gst.pts b = Z.of_nat k * Gst.GST_SECOND / Main.TARGET_FPS cfg /\
  Gst.dts b = Gst.pts b /\
  Gst.duration b = Gst.GST_SECOND / Main.TARGET_FPS cfg.
Proof.
  intros Hfps Hrun Hk Hfit Hcount.
  pose proof (main_run_stamps _ _ _ _ _ _ Hrun k b Hk) as E.
  rewrite wrap64_small in E by lia.
  split; [| split].
  - rewrite E. cbn [Main.stamp Gst.pts]. apply scale_in_range; assumption.
  - rewrite E. reflexivity.
  - rewrite E. cbn [Main.stamp Gst.duration].
    rewrite scale_in_range; [f_equal; lia | assumption |].
    rewrite Z.mul_1_l.
    transitivity Gst.GST_SECOND.
    + apply Z.div_le_upper_bound; [assumption |]. unfold Gst.GST_SECOND. nia.
    + unfold Gst.GST_SECOND, Gst.G_MAXUINT64. lia.
Qed.

(** C1. In every run of the feeder of [src/main.cpp], whatever the clock,
    the file system and the pipeline do, the [k]-th buffer pushed (the one
    with [frame_counter = k]) carries PTS = k * 1e9 / F nanoseconds (integer
    division of the exact product), DTS = PTS and duration 1e9 / F, as long
    as that PTS fits 64 bits.  With F = 300, frame 0 carries PTS 0 and
    frame 300 carries PTS 1,000,000,000; the conversion of the probe of
    part_000 (lines 152-154) turns these into 0 and 90,000 ticks of 90 kHz. *)
Theorem C1_pts_is_scaled_frame_counter
    (cfg : Main.Config) (env : Env) (fuel : nat) (start : Z)
    (r : Res bool) (s' : Sys Main.Globals) (k : nat) (b : Gst.GstBuffer)
    (Hfps : 0 < Main.TARGET_FPS cfg)
    (Hrun : Main.feed_frames cfg fuel env (boot (Main.initial_globals start))
            = (r, s'))
    (Hk : nth_error (pushed (out s')) k = Some b)
    (Hfit : Z.of_nat k * Gst.GST_SECOND / Main.TARGET_FPS cfg <= Gst.G_MAXUINT64)
    (Hcount : Z.of_nat k < 2 ^ 64) :
  Gst.pts b = Z.of_nat k * Gst.GST_SECOND / Main.TARGET_FPS cfg /\
  Gst.dts b = Gst.pts b /\
  Gst.duration b = Gst.GST_SECOND / Main.TARGET_FPS cfg /\
  (Main.TARGET_FPS cfg = 300 -> k = 0%nat ->
   Gst.pts b = 0 /\ logged_pts_90k b = Some 0) /\
  (Main.TARGET_FPS cfg = 300 -> k = 300%nat ->
   Gst.pts b = 1000000000 /\ logged_pts_90k b = Some 90000).
Proof.
  destruct (main_run_stamp_values cfg env fuel start r s' k b
              Hfps Hrun Hk Hfit Hcount) as (Hp & Hd & Hu).
  assert (Hl : Gst.pts b <> Gst.GST_CLOCK_TIME_NONE ->
               logged_pts_90k b
               = Some (Gst.gst_util_uint64_scale (Gst.pts b) 90000 Gst.GST_SECOND)).
  { intros Hn. unfold logged_pts_90k, AvSync.video_probe. cbn.
    destruct (Gst.pts b =? 18446744073709551615) eqn:Eq;
      [apply Z.eqb_eq in Eq; contradiction | reflexivity]. }
  split; [exact Hp | split; [exact Hd | split; [exact Hu | split]]];
    intros HF Ek; subst k; rewrite HF in Hp; cbn in Hp;
    (split; [exact Hp | rewrite Hl; rewrite Hp; [reflexivity | discriminate]]).
Qed.

Lemma C1_pts_is_scaled_frame_counter_witness :
  let b := Main.stamp (main_cfg 300) 300 (Gst.gst_buffer_new_allocate []) in
  Gst.pts b = 300 * Gst.GST_SECOND / 300 /\
  Gst.dts b = Gst.pts b /\
  Gst.duration b = Gst.GST_SECOND / 300 /\
  (300 = 300 -> 300%nat = 0%nat -> Gst.pts b = 0 /\ logged_pts_90k b = Some 0) /\
  (300 = 300 -> 300%nat = 300%nat ->
   Gst.pts b = 1000000000 /\ logged_pts_90k b = Some 90000).
Proof.
  exact (C1_pts_is_scaled_frame_counter (main_cfg 300) calm_env 301 0
           (fst (calm_main_run 300 301)) (snd (calm_main_run 300 301)) 300
           (Main.stamp (main_cfg 300) 300 (Gst.gst_buffer_new_allocate []))
           ltac:(reflexivity)
           ltac:(vm_compute; reflexivity)
           ltac:(vm_compute; reflexivity)
           ltac:(vm_compute; discriminate)
           ltac:(reflexivity)).
Defined.

(** ** C2: the step between consecutive stamps *)

(** At 300 frames per second the first four buffers of a run carry PTS 0,
    3333333, 6666666 and 10000000 and each a duration of 3333333: the step
    from frame 2 to frame 3 is 3333334, one more than the duration. *)
Lemma C2_counterexample_fps_300 :
  let bs := pushed (out (snd (calm_main_run 300 4))) in
  map Gst.pts bs = [0; 3333333; 6666666; 10000000] /\
  map Gst.duration bs = [3333333; 3333333; 3333333; 3333333] /\
  ~ (forall n b b',
       nth_error bs n = Some b -> nth_error bs (S n) = Some b' ->
       Gst.pts b' - Gst.pts b = Gst.duration b).
Proof.
  cbv zeta.
  assert (E : pushed (out (snd (calm_main_run 300 4)))
              = map (fun k => Main.stamp (main_cfg 300) k (Gst.gst_buffer_new_allocate []))
                  [0; 1; 2; 3]).
  { vm_compute. reflexivity. }
  rewrite E. split; [reflexivity | split; [reflexivity |]].
  intros H. specialize (H 2%nat _ _ eq_refl eq_refl). discriminate H.
Qed.

(** C2 (amended). In every run of the feeder of [src/main.cpp], the PTS of
    frame n+1 minus the PTS of frame n is the duration stamped on the
    buffers or one nanosecond more, whatever the clock does; it is the
    duration itself when the frame rate divides 1e9. *)
Theorem C2_pts_step_is_duration_or_one_more
    (cfg : Main.Config) (env : Env) (fuel : nat) (start : Z)
    (r : Res bool) (s' : Sys Main.Globals) (n : nat) (b b' : Gst.GstBuffer)
    (Hfps : 0 < Main.TARGET_FPS cfg)
    (Hrun : Main.feed_frames cfg fuel env (boot (Main.initial_globals start))
            = (r, s'))
    (Hn : nth_error (pushed (out s')) n = Some b)
    (Hn' : nth_error (pushed (out s')) (S n) = Some b')
    (Hfit : Z.of_nat (S n) * Gst.GST_SECOND / Main.TARGET_FPS cfg
            <= Gst.G_MAXUINT64)
    (Hcount : Z.of_nat (S n) < 2 ^ 64) :
  (Gst.pts b' - Gst.pts b = Gst.duration b \/
   Gst.pts b' - Gst.pts b = Gst.duration b + 1) /\
  Gst.duration b' = Gst.duration b /\
  ((Main.TARGET_FPS cfg | Gst.GST_SECOND) ->
   Gst.pts b' - Gst.pts b = Gst.duration b).
Proof.
  assert (Hmono : Z.of_nat n * Gst.GST_SECOND / Main.TARGET_FPS cfg
                  <= Z.of_nat (S n) * Gst.GST_SECOND / Main.TARGET_FPS cfg).
  { apply Z.div_le_mono; [assumption |]. unfold Gst.GST_SECOND. lia. }
  destruct (main_run_stamp_values cfg env fuel start r s' n b Hfps Hrun Hn ltac:(lia) ltac:(lia))
    as (P & _ & D).
  destruct (main_run_stamp_values cfg env fuel start r s' (S n) b' Hfps Hrun Hn' Hfit Hcount)
    as (P' & _ & D').
  rewrite P, P', D, D'.
  replace (Z.of_nat (S n)) with (Z.of_nat n + 1) by lia.
  split; [| split].
  - apply div_step; [assumption | unfold Gst.GST_SECOND; lia].
  - reflexivity.
  - intros Hdiv. apply div_step_exact; assumption.
Qed.

Lemma C2_pts_step_is_duration_or_one_more_witness :
  let b := Main.stamp (main_cfg 300) 2 (Gst.gst_buffer_new_allocate []) in
  let b' := Main.stamp (main_cfg 300) 3 (Gst.gst_buffer_new_allocate []) in
  (Gst.pts b' - Gst.pts b = Gst.duration b \/
   Gst.pts b' - Gst.pts b = Gst.duration b + 1) /\
  Gst.duration b' = Gst.duration b /\
  ((300 | Gst.GST_SECOND) -> Gst.pts b' - Gst.pts b = Gst.duration b).
Proof.
  exact (C2_pts_step_is_duration_or_one_more (main_cfg 300) calm_env 4 0
           (fst (calm_main_run 300 4)) (snd (calm_main_run 300 4)) 2
           (Main.stamp (main_cfg 300) 2 (Gst.gst_buffer_new_allocate []))
           (Main.stamp (main_cfg 300) 3 (Gst.gst_buffer_new_allocate []))
           ltac:(reflexivity)
           ltac:(vm_compute; reflexivity)
           ltac:(vm_compute; reflexivity)
           ltac:(vm_compute; reflexivity)
           ltac:(vm_compute; discriminate)
           ltac:(reflexivity)).
Defined.

(** ** C4: the readiness probe *)

(** The size samples of one call of [is_file_ready] started at call number
    [t]: the first is taken by call [t + 1], the next ones two calls apart. *)
Lemma is_file_ready_loop_true {G} (p : string) (d : Z) (env : Env) (n : nat) :
  forall (last : Z) (s s' : Sys G),
    is_file_ready_loop p d n last env s = (Ok true, s') ->
    exists i sz,
      (i < n)%nat /\
      files (env (tick s + 2 * i + 1)%nat) p = Some sz /\
      ((i = 0%nat /\ sz = last) \/
       (0 < i /\ files (env (tick s + 2 * i - 1)%nat) p = Some sz)%nat).
Proof.
  induction n as [| n IH]; intros last s s' H; cbn in H.
  - discriminate H.
  - unfold fs_exists, fs_file_size in H. run_in H.
    destruct (files (env (tick s)) p) as [sz0 |] eqn:E0; run_in H;
      [| discriminate H].
    destruct (files (env (S (tick s))) p) as [sz1 |] eqn:E1; run_in H;
      [| discriminate H].
    destruct (Z.eqb_spec sz1 last) as [-> | Hne].
    + exists 0%nat, last. split; [lia |].
      replace (tick s + 2 * 0 + 1)%nat with (S (tick s)) by lia. auto.
    + apply IH in H. cbn [tick] in H.
      destruct H as (i & sz & Hi & Hs & Hprev).
      exists (S i), sz. split; [lia |].
      replace (tick s + 2 * S i + 1)%nat with (S (S (tick s)) + 2 * i + 1)%nat by lia.
      split; [exact Hs |]. right. split; [lia |].
      destruct Hprev as [(-> & ->) | (Hpos & Hp)].
      * replace (tick s + 2 * 1 - 1)%nat with (S (tick s)) by lia. exact E1.
      * replace (tick s + 2 * S i - 1)%nat with (S (S (tick s)) + 2 * i - 1)%nat by lia.
        exact Hp.
Qed.

(** Ready is only reported on two consecutive size samples that are equal. *)
Lemma is_file_ready_true_two_equal_samples {G} (p : string) (env : Env)
    (s s' : Sys G) :
  is_file_ready p env s = (Ok true, s') ->
  exists i sz,
    (i < 5)%nat /\
    files (env (tick s + 2 * i + 1)%nat) p = Some sz /\
    files (env (tick s + 2 * i + 3)%nat) p = Some sz.
Proof.
  unfold is_file_ready, is_file_ready_with, fs_exists, fs_file_size.
  intros H. run_in H.
  destruct (files (env (tick s)) p) as [sz0 |] eqn:E0; run_in H;
    [| discriminate H].
  destruct (files (env (S (tick s))) p) as [sz1 |] eqn:E1; run_in H;
    [| discriminate H].
  apply is_file_ready_loop_true in H. cbn [tick] in H.
  destruct H as (i & sz & Hi & Hs & Hprev).
  change (Z.to_nat 5) with 5%nat in Hi.
  exists i, sz. split; [exact Hi |].
  replace (tick s + 2 * i + 3)%nat with (S (S (tick s)) + 2 * i + 1)%nat by lia.
  split; [| exact Hs].
  destruct Hprev as [(-> & ->) | (Hpos & Hp)].
  - replace (tick s + 2 * 0 + 1)%nat with (S (tick s)) by lia. exact E1.
  - replace (tick s + 2 * i + 1)%nat with (S (S (tick s)) + 2 * i - 1)%nat by lia.
    exact Hp.
Qed.

(** A file that is not there at the first existence test is not ready. *)
Lemma is_file_ready_absent {G} (p : string) (env : Env) (s : Sys G) :
  files (env (tick s)) p = None ->
  is_file_ready p env s
  = (Ok false, {| globals := globals s; tick := S (tick s); out := out s |}).
Proof.
  intros E. unfold is_file_ready, is_file_ready_with, fs_exists. run_in E.
  unfold bind, observe. cbn. rewrite E. reflexivity.
Qed.

(** A file whose size differs between every two consecutive samples of the
    attempts left is not ready. *)
Lemma is_file_ready_loop_unstable {G} (p : string) (d : Z) (env : Env)
    (size : nat -> Z) (n : nat) :
  forall (j : nat) (s : Sys G),
    (forall i, (i < n)%nat ->
       files (env (tick s + 2 * i)%nat) p <> None /\
       files (env (tick s + 2 * i + 1)%nat) p = Some (size (S (j + i))) /\
       size (S (j + i)) <> size (j + i)%nat) ->
    exists s',
      is_file_ready_loop p d n (size j) env s = (Ok false, s') /\
      globals s' = globals s.
Proof.
  induction n as [| n IH]; intros j s Hs; cbn.
  - eexists. split; reflexivity.
  - destruct (Hs 0%nat ltac:(lia)) as (E0 & E1 & Hne).
    replace (tick s + 2 * 0)%nat with (tick s) in E0 by lia.
    replace (tick s + 2 * 0 + 1)%nat with (S (tick s)) in E1 by lia.
    replace (j + 0)%nat with j in * by lia.
    unfold fs_exists, fs_file_size, bind, sleep_for, emit, observe, ret.
    cbn [tick globals out negb].
    destruct (files (env (tick s)) p) as [sz0 |]; [| contradiction].
    cbn [tick globals out negb]. rewrite E1.
    destruct (Z.eqb_spec (size (S j)) (size j)) as [E | _]; [contradiction |].
    match goal with
    | |- exists s', is_file_ready_loop _ _ _ _ _ ?st = _ /\ _ =>
        destruct (IH (S j) st) as (s' & H' & G')
    end.
    + intros i Hi. cbn [tick].
      destruct (Hs (S i) ltac:(lia)) as (A & B & C).
      replace (S (S (tick s)) + 2 * i)%nat with (tick s + 2 * S i)%nat by lia.
      replace (S j + i)%nat with (j + S i)%nat by lia.
      auto.
    + exists s'. split; [exact H' | exact G'].
Qed.

(** When the file is there at every existence test and every size sample
    differs from the one before, across all five attempts, the probe
    reports not-ready. *)
Lemma is_file_ready_unstable {G} (p : string) (env : Env) (size : nat -> Z)
    (s : Sys G) :
  (forall i, (i <= 5)%nat ->
     files (env (tick s + 2 * i)%nat) p <> None /\
     files (env (tick s + 2 * i + 1)%nat) p = Some (size i)) ->
  (forall i, (i < 5)%nat -> size (S i) <> size i) ->
  exists s', is_file_ready p env s = (Ok false, s') /\ globals s' = globals s.
Proof.
  intros Hobs Hdiff.
  destruct (Hobs 0%nat ltac:(lia)) as (E0 & E1).
  replace (tick s + 2 * 0)%nat with (tick s) in E0 by lia.
  replace (tick s + 2 * 0 + 1)%nat with (S (tick s)) in E1 by lia.
  unfold is_file_ready, is_file_ready_with, fs_exists, fs_file_size, bind,
    observe, ret.
  cbn [tick globals out negb].
  destruct (files (env (tick s)) p) as [sz0 |]; [| contradiction].
  cbn [tick globals out negb]. rewrite E1.
  change (Z.to_nat 5) with 5%nat.
  match goal with
  | |- exists s', is_file_ready_loop _ _ _ _ _ ?st = _ /\ _ =>
      destruct (is_file_ready_loop_unstable p 2 env size 5 0%nat st)
        as (s' & H' & G')
  end.
  - intros i Hi. cbn [tick].
    destruct (Hobs (S i) ltac:(lia)) as (A & B).
    replace (S (S (tick s)) + 2 * i)%nat with (tick s + 2 * S i)%nat by lia.
    cbn [Nat.add]. auto.
  - exists s'. split; [exact H' | exact G'].
Qed.

(** C4 (the code at the failing input). A frame file that is there when
    [fs::exists] looks and has been removed when [fs::file_size] asks for
    its size makes [is_file_ready] throw [filesystem_error] instead of
    reporting not-ready: on entry (lines 71-72), inside the attempts (lines
    75-76), and the exception leaves the feeder loop of part_000. *)
Theorem C4_is_file_ready_throws_when_file_vanishes :
  fst (is_file_ready frame0_path (removed_after 1) (boot tt))
  = Raise (filesystem_error frame0_path) /\
  fst (is_file_ready_loop frame0_path 2 5 1 (removed_after 1) (boot tt))
  = Raise (filesystem_error frame0_path) /\
  fst (AvSync.feed_frames avsync_cfg_300 10 (removed_after 3)
         (boot (AvSync.initial_globals 0)))
  = Raise (filesystem_error frame0_path).
Proof. split; [| split]; vm_compute; reflexivity. Qed.

(** ** The feeder of [src/unnamed/part_000], pass by pass *)

Lemma silent_is_iframe {G} (p : string) : silent (@AvSync.is_iframe G p).
Proof.
  unfold AvSync.is_iframe. apply silent_try_catch; [| apply silent_ret].
  apply silent_bind; [apply silent_fs_exists | intros e].
  destruct e; cbn [negb]; [| apply silent_ret].
  apply silent_bind; [apply silent_fs_file_size | intros sz]. apply silent_ret.
Qed.

Lemma silent_avsync_pace cfg : silent (AvSync.pace cfg).
Proof.
  unfold AvSync.pace.
  apply silent_bind; [intros env s r s' H; inversion H; subst; auto | intros g].
  apply silent_bind; [apply silent_observe | intros now].
  destruct (wrap64 now <? AvSync.expected_time cfg g);
    [apply silent_sleep_until |].
  destruct (AvSync.behind cfg _); [apply silent_cerr | apply silent_ret].
Qed.

Lemma avsync_pace_returns cfg env s :
  fst (AvSync.pace cfg env s) = Ok tt.
Proof.
  unfold AvSync.pace. run_in s. unfold bind, get_globals, clock_now, observe.
  cbn [fst snd].
  destruct (wrap64 _ <? _); [reflexivity |].
  destruct (AvSync.behind cfg _); reflexivity.
Qed.

Lemma silent_log_skip (p fname : string) : silent (AvSync.log_skip p fname).
Proof.
  unfold AvSync.log_skip.
  apply silent_bind; [apply silent_observe | intros o].
  destruct o; [apply silent_cerr |].
  apply silent_bind; [apply silent_cerr | intros _; apply silent_throw].
Qed.

Lemma avsync_log_stats_effect cfg env s r s' :
  AvSync.log_stats cfg env s = (r, s') ->
  r = Ok tt /\
  AvSync.frame_counter (globals s') = AvSync.frame_counter (globals s) /\
  AvSync.current_index (globals s') = AvSync.current_index (globals s) /\
  AvSync.start_time (globals s') = AvSync.start_time (globals s) /\
  pushed (out s') = pushed (out s) /\
  csv_lines (out s') = csv_lines (out s).
Proof.
  unfold AvSync.log_stats. intros H. run_in H.
  destruct (AvSync.last_log (globals s)); run_in H;
    cbn [AvSync.set_last_log AvSync.frame_counter AvSync.last_log] in H;
    destruct (AvSync.frame_counter (globals s) mod AvSync.TARGET_FPS cfg =? 0);
    run_in H; inversion H; subst; cbn;
    rewrite ?pushed_app, ?csv_lines_app; cbn; rewrite ?app_nil_r; auto 10.
Qed.

(** How one pass can end: with the variables as they were (not ready, open
    or read failure, an exception, a failed map); with only [current_index]
    moved on and nothing pushed (a skipped frame); or with one buffer
    pushed, after which either the loop is left with the counters as they
    were (the push was refused) or both counters are one higher. *)
Lemma avsync_iteration_cases cfg env s r s' :
  AvSync.feed_iteration cfg env s = (r, s') ->
  let g := globals s in
  let g' := globals s' in
  csv_lines (out s') = csv_lines (out s) /\
  ((pushed (out s') = pushed (out s) /\ g' = g)
   \/
   (pushed (out s') = pushed (out s) /\ g' = AvSync.skip g /\ r = Ok Continue)
   \/
   (exists b,
      pushed (out s') = (pushed (out s) ++ [b])%list /\
      Gst.offset b = AvSync.current_index g /\
      ((r = Ok Break /\ g' = g)
       \/
       (r = Ok Continue /\
        AvSync.frame_counter g' = wrap64 (AvSync.frame_counter g + 1) /\
        AvSync.current_index g' = wrap64 (AvSync.current_index g + 1) /\
        AvSync.start_time g' = AvSync.start_time g)))).
Proof.
  unfold AvSync.feed_iteration. intros H. cbn zeta.
  unfold bind at 1 in H.
  destruct (AvSync.pace cfg env s) as [r0 s0] eqn:Hp.
  destruct (silent_avsync_pace _ _ _ _ _ Hp) as (G0 & P0 & C0).
  pose proof (avsync_pace_returns cfg env s) as R0. rewrite Hp in R0.
  cbn in R0. subst r0.
  unfold bind at 1 in H. unfold get_globals at 1 in H.
  unfold bind at 1 in H.
  match type of H with
  | context [is_file_ready ?p env s0] =>
      destruct (is_file_ready p env s0) as [[ready | e] s1] eqn:Hr
  end;
    destruct (silent_is_file_ready _ _ _ _ _ Hr) as (G1 & P1 & C1).
  2:{ inversion H; subst. split; [congruence |]. left. split; congruence. }
  destruct ready; cbn [negb] in H.
  2:{ run_in H. inversion H; subst. cbn.
      rewrite !pushed_app, !csv_lines_app. cbn. rewrite !app_nil_r.
      split; [congruence |]. left. split; congruence. }
  unfold bind at 1 in H.
  match type of H with
  | context [AvSync.is_iframe ?p env s1] =>
      destruct (AvSync.is_iframe p env s1) as [[iframe | e] s2] eqn:Hf
  end;
    destruct (silent_is_iframe _ _ _ _ _ Hf) as (G2 & P2 & C2).
  2:{ inversion H; subst. split; [congruence |]. left. split; congruence. }
  destruct iframe; cbn [negb] in H.
  2:{ unfold bind at 1 in H.
      match type of H with
      | context [AvSync.log_skip ?p ?f env s2] =>
          destruct (AvSync.log_skip p f env s2) as [[[] | e] s3] eqn:Hs
      end;
        destruct (silent_log_skip _ _ _ _ _ _ Hs) as (G3 & P3 & C3).
      - run_in H. inversion H; subst. cbn [globals out tick].
        split; [congruence |]. right. left.
        repeat split; congruence.
      - inversion H; subst. split; [congruence |]. left. split; congruence. }
  run_in H.
  destruct (ifstream_read (env (tick s2)) _) as [| | bytes]; run_in H.
  1,2: inversion H; subst; cbn; rewrite !pushed_app, !csv_lines_app; cbn;
       rewrite !app_nil_r; (split; [congruence |]); left; split; congruence.
  destruct (buffer_map_ok (env (S (tick s2)))); run_in H.
  2:{ inversion H; subst; cbn; rewrite !pushed_app, !csv_lines_app; cbn;
      rewrite !app_nil_r; (split; [congruence |]); left; split; congruence. }
  destruct (push_result (env (S (S (tick s2)))) =? Gst.GST_FLOW_OK); run_in H.
  2:{ inversion H; subst; cbn. rewrite !pushed_app, !csv_lines_app; cbn.
      rewrite !app_nil_r. split; [congruence |]. right. right.
      exists (AvSync.set_offset (AvSync.current_index (globals s0))
                (Gst.gst_buffer_new_allocate bytes)).
      split; [rewrite P2, P1, P0; reflexivity |].
      split; [cbn; congruence |]. left. split; congruence. }
  match type of H with
  | context [AvSync.log_stats cfg env ?st] =>
      destruct (AvSync.log_stats cfg env st) as [r3 s3] eqn:Hl
  end.
  destruct (avsync_log_stats_effect _ _ _ _ _ Hl) as (-> & F3 & I3 & T3 & P3 & C3).
  cbn in F3, I3, T3, P3, C3.
  rewrite !pushed_app in P3. rewrite !csv_lines_app in C3. cbn in P3, C3.
  rewrite !app_nil_r in C3. rewrite !app_nil_r in P3.
  inversion H; subst.
  split; [congruence |]. right. right.
  exists (AvSync.set_offset (AvSync.current_index (globals s0))
            (Gst.gst_buffer_new_allocate bytes)).
  split; [rewrite P3, P2, P1, P0; reflexivity |].
  split; [cbn; congruence |]. right.
  rewrite F3, I3, T3. cbn. repeat split; congruence.
Qed.

(** ** C9: the two counters *)

Lemma avsync_iteration_counters cfg env s r s' :
  AvSync.feed_iteration cfg env s = (r, s') ->
  0 <= AvSync.frame_counter (globals s) < 2 ^ 64 - 1 ->
  0 <= AvSync.current_index (globals s) < 2 ^ 64 - 1 ->
  let fc := AvSync.frame_counter (globals s) in
  let ci := AvSync.current_index (globals s) in
  let fc' := AvSync.frame_counter (globals s') in
  let ci' := AvSync.current_index (globals s') in
  (fc' = fc /\ ci' = ci)
  \/
  (fc' = fc /\ ci' = ci + 1 /\ r = Ok Continue /\
   pushed (out s') = pushed (out s))
  \/
  (fc' = fc + 1 /\ ci' = ci + 1 /\ r = Ok Continue /\
   exists b, pushed (out s') = (pushed (out s) ++ [b])%list).
Proof.
  intros H Hfc Hci. cbn zeta.
  destruct (avsync_iteration_cases _ _ _ _ _ H) as (_ & Hc). cbn zeta in Hc.
  destruct Hc as [(P & G) | [(P & G & R) | (b & P & _ & [(R & G) | (R & F & I & _)])]].
  - left. rewrite G. auto.
  - right. left. rewrite G. cbn. rewrite wrap64_small by lia. auto.
  - left. rewrite G. auto.
  - right. right. rewrite F, I, !wrap64_small by lia.
    repeat split; try assumption. exists b. exact P.
Qed.

Lemma avsync_loop_counters cfg env fuel :
  forall s r s',
    AvSync.feed_loop cfg fuel env s = (r, s') ->
    0 <= AvSync.frame_counter (globals s) ->
    0 <= AvSync.current_index (globals s) ->
    AvSync.frame_counter (globals s) + Z.of_nat fuel < 2 ^ 64 ->
    AvSync.current_index (globals s) + Z.of_nat fuel < 2 ^ 64 ->
    AvSync.frame_counter (globals s) <= AvSync.frame_counter (globals s')
      <= AvSync.frame_counter (globals s) + Z.of_nat fuel /\
    AvSync.current_index (globals s) <= AvSync.current_index (globals s')
      <= AvSync.current_index (globals s) + Z.of_nat fuel.
Proof.
  induction fuel as [| fuel IH]; intros s r s' H Hfc Hci Bfc Bci.
  - cbn in H. inversion H; subst. lia.
  - cbn [AvSync.feed_loop] in H. unfold bind at 1 in H.
    destruct (AvSync.feed_iteration cfg env s) as [rc s1] eqn:Hi.
    pose proof (avsync_iteration_counters _ _ _ _ _ Hi ltac:(lia) ltac:(lia)) as Hc.
    cbn zeta in Hc.
    assert (Hstep :
      AvSync.frame_counter (globals s) <= AvSync.frame_counter (globals s1)
        <= AvSync.frame_counter (globals s) + 1 /\
      AvSync.current_index (globals s) <= AvSync.current_index (globals s1)
        <= AvSync.current_index (globals s) + 1) by lia.
    destruct rc as [[|] | e].
    + specialize (IH s1 r s' H ltac:(lia) ltac:(lia) ltac:(lia) ltac:(lia)). lia.
    + inversion H; subst. lia.
    + inversion H; subst. lia.
Qed.

(** C9. In the feeder loop of part_000 each pass leaves [frame_counter] and
    [current_index] as they were, or moves only [current_index] on by one
    (a skipped frame, nothing pushed), or moves both on by one (one buffer
    pushed and accepted); over any number of passes neither counter goes
    down.  The counters are 64-bit: the statement is for counters that do
    not reach 2^64 - 1 within the passes considered. *)
Theorem C9_counters_never_decrease (cfg : AvSync.Config) (env : Env) :
  (forall s r s',
     AvSync.feed_iteration cfg env s = (r, s') ->
     0 <= AvSync.frame_counter (globals s) < 2 ^ 64 - 1 ->
     0 <= AvSync.current_index (globals s) < 2 ^ 64 - 1 ->
     (AvSync.frame_counter (globals s') = AvSync.frame_counter (globals s) /\
      AvSync.current_index (globals s') = AvSync.current_index (globals s))
     \/
     (AvSync.frame_counter (globals s') = AvSync.frame_counter (globals s) /\
      AvSync.current_index (globals s') = AvSync.current_index (globals s) + 1 /\
      r = Ok Continue /\
      pushed (out s') = pushed (out s))
     \/
     (AvSync.frame_counter (globals s') = AvSync.frame_counter (globals s) + 1 /\
      AvSync.current_index (globals s') = AvSync.current_index (globals s) + 1 /\
      r = Ok Continue /\
      exists b, pushed (out s') = (pushed (out s) ++ [b])%list))
  /\
  (forall fuel s r s',
     AvSync.feed_loop cfg fuel env s = (r, s') ->
     0 <= AvSync.frame_counter (globals s) ->
     0 <= AvSync.current_index (globals s) ->
     AvSync.frame_counter (globals s) + Z.of_nat fuel < 2 ^ 64 ->
     AvSync.current_index (globals s) + Z.of_nat fuel < 2 ^ 64 ->
     AvSync.frame_counter (globals s) <= AvSync.frame_counter (globals s') /\
     AvSync.current_index (globals s) <= AvSync.current_index (globals s')).
Proof.
  split.
  - intros s r s' H Hfc Hci.
    exact (avsync_iteration_counters cfg env s r s' H Hfc Hci).
  - intros fuel s r s' H Hfc Hci Bfc Bci.
    pose proof (avsync_loop_counters cfg env fuel s r s' H Hfc Hci Bfc Bci).
    lia.
Qed.

Lemma C9_counters_never_decrease_witness :
  let s := boot (AvSync.initial_globals 7) in
  let it := AvSync.feed_iteration avsync_cfg_300 small_frames_env s in
  let run := AvSync.feed_loop avsync_cfg_300 5 calm_env s in
  ((AvSync.frame_counter (globals (snd it)) = 0 /\
    AvSync.current_index (globals (snd it)) = 7)
   \/
   (AvSync.frame_counter (globals (snd it)) = 0 /\
    AvSync.current_index (globals (snd it)) = 7 + 1 /\
    fst it = Ok Continue /\
    pushed (out (snd it)) = pushed [])
   \/
   (AvSync.frame_counter (globals (snd it)) = 0 + 1 /\
    AvSync.current_index (globals (snd it)) = 7 + 1 /\
    fst it = Ok Continue /\
    exists b, pushed (out (snd it)) = (pushed [] ++ [b])%list))
  /\
  (0 <= AvSync.frame_counter (globals (snd run)) /\
   7 <= AvSync.current_index (globals (snd run))).
Proof.
  split.
  - exact (proj1 (C9_counters_never_decrease avsync_cfg_300 small_frames_env)
             (boot (AvSync.initial_globals 7))
             (fst (AvSync.feed_iteration avsync_cfg_300 small_frames_env
                     (boot (AvSync.initial_globals 7))))
             (snd (AvSync.feed_iteration avsync_cfg_300 small_frames_env
                     (boot (AvSync.initial_globals 7))))
             ltac:(vm_compute; reflexivity)
             ltac:(vm_compute; split; [discriminate | reflexivity])
             ltac:(vm_compute; split; [discriminate | reflexivity])).
  - exact (proj2 (C9_counters_never_decrease avsync_cfg_300 calm_env)
             5%nat (boot (AvSync.initial_globals 7))
             (fst (AvSync.feed_loop avsync_cfg_300 5 calm_env
                     (boot (AvSync.initial_globals 7))))
             (snd (AvSync.feed_loop avsync_cfg_300 5 calm_env
                     (boot (AvSync.initial_globals 7))))
             ltac:(vm_compute; reflexivity)
             ltac:(vm_compute; discriminate)
             ltac:(vm_compute; discriminate)
             ltac:(vm_compute; reflexivity)
             ltac:(vm_compute; reflexivity)).
Defined.

(** ** C3: the keyframe filter *)

Lemma avsync_pace_pair cfg env s :
  AvSync.pace cfg env s = (Ok tt, snd (AvSync.pace cfg env s)).
Proof.
  pose proof (avsync_pace_returns cfg env s) as R.
  destruct (AvSync.pace cfg env s) as [r s1]. cbn in *. congruence.
Qed.

Lemma is_iframe_by_size {G} (p : string) (env : Env) (s : Sys G) (sz : Z) :
  files (env (tick s)) p <> None ->
  files (env (S (tick s))) p = Some sz ->
  AvSync.is_iframe p env s
  = (Ok (AvSync.IFRAME_MIN_SIZE <=? sz),
     {| globals := globals s; tick := S (S (tick s)); out := out s |}).
Proof.
  intros E0 E1.
  unfold AvSync.is_iframe, try_catch, fs_exists, fs_file_size, bind, observe, ret.
  cbn [tick globals out].
  destruct (files (env (tick s)) p); [| contradiction].
  cbn [negb tick globals out]. rewrite E1. reflexivity.
Qed.

(** The keyframe filter while the file stays.  The feeder of part_000
    always filters (there is no switch).  For a frame file that has passed
    the readiness probe and is still there at the two calls of [is_iframe]
    and at the size query of the skip line, [is_iframe] answers by the size
    alone: keyframe if and only if the size is at least [IFRAME_MIN_SIZE]
    (30 KiB).  When it is smaller the pass ends in [continue] with
    [current_index] one higher (modulo 2^64), [frame_counter] as it was, no
    buffer pushed (so the probe, which does the lookup and writes the rows,
    is not run for it) and only the skip line written to stderr. *)
Theorem non_keyframe_is_skipped_while_file_stays
    (cfg : AvSync.Config) (env : Env) (s s2 : Sys AvSync.Globals) (sz sz' : Z)
    (Hready : is_file_ready (frame_path_of cfg (globals s)) env
                (snd (AvSync.pace cfg env s)) = (Ok true, s2))
    (Hthere : files (env (tick s2)) (frame_path_of cfg (globals s)) <> None)
    (Hsize : files (env (S (tick s2))) (frame_path_of cfg (globals s)) = Some sz)
    (Hstill : files (env (S (S (tick s2)))) (frame_path_of cfg (globals s))
              = Some sz') :
  (exists s3,
     AvSync.is_iframe (frame_path_of cfg (globals s)) env s2
     = (Ok (AvSync.IFRAME_MIN_SIZE <=? sz), s3)) /\
  ((AvSync.IFRAME_MIN_SIZE <=? sz) = true <-> AvSync.IFRAME_MIN_SIZE <= sz) /\
  (sz < AvSync.IFRAME_MIN_SIZE ->
   exists s',
     AvSync.feed_iteration cfg env s = (Ok Continue, s') /\
     AvSync.current_index (globals s')
       = wrap64 (AvSync.current_index (globals s) + 1) /\
     (0 <= AvSync.current_index (globals s) < 2 ^ 64 - 1 ->
      AvSync.current_index (globals s') = AvSync.current_index (globals s) + 1) /\
     AvSync.frame_counter (globals s') = AvSync.frame_counter (globals s) /\
     pushed (out s') = pushed (out s) /\
     csv_lines (out s') = csv_lines (out s) /\
     out s' = (out s2 ++ [Stderr (SkipFrame (frame_name_of cfg (globals s))
                                    (sz' / 1024))])%list).
Proof.
  pose proof (is_iframe_by_size _ env s2 sz Hthere Hsize) as Hif.
  split; [eexists; exact Hif |].
  split; [apply Z.leb_le |].
  intros Hsmall.
  pose proof (avsync_pace_pair cfg env s) as Hp.
  destruct (silent_avsync_pace _ _ _ _ _ Hp) as (G0 & P0 & C0).
  destruct (silent_is_file_ready _ _ _ _ _ Hready) as (G1 & P1 & C1).
  unfold frame_path_of, frame_name_of in *.
  eexists. split.
  - unfold AvSync.feed_iteration.
    unfold bind at 1. rewrite Hp.
    unfold bind at 1. unfold get_globals at 1.
    rewrite G0. unfold bind at 1. rewrite Hready. cbn [negb].
    unfold bind at 1. rewrite Hif.
    destruct (Z.leb_spec AvSync.IFRAME_MIN_SIZE sz) as [L | _]; [lia |].
    cbn [negb]. unfold AvSync.log_skip, bind, observe, cerr, emit, put_globals, ret.
    cbn [tick globals out]. rewrite Hstill. reflexivity.
  - cbn [globals out AvSync.skip AvSync.current_index AvSync.frame_counter].
    rewrite pushed_app, csv_lines_app. cbn. rewrite !app_nil_r.
    repeat split; try congruence.
    intros R. apply wrap64_small. lia.
Qed.

Lemma non_keyframe_is_skipped_while_file_stays_witness :
  let cfg := avsync_cfg_300 in
  let env := small_frames_env in
  let s := boot (AvSync.initial_globals 7) in
  let s2 := snd (is_file_ready (frame_path_of cfg (globals s)) env
                   (snd (AvSync.pace cfg env s))) in
  (exists s3,
     AvSync.is_iframe (frame_path_of cfg (globals s)) env s2
     = (Ok (AvSync.IFRAME_MIN_SIZE <=? 1000), s3)) /\
  ((AvSync.IFRAME_MIN_SIZE <=? 1000) = true <-> AvSync.IFRAME_MIN_SIZE <= 1000) /\
  (1000 < AvSync.IFRAME_MIN_SIZE ->
   exists s',
     AvSync.feed_iteration cfg env s = (Ok Continue, s') /\
     AvSync.current_index (globals s')
       = wrap64 (AvSync.current_index (globals s) + 1) /\
     (0 <= AvSync.current_index (globals s) < 2 ^ 64 - 1 ->
      AvSync.current_index (globals s') = AvSync.current_index (globals s) + 1) /\
     AvSync.frame_counter (globals s') = AvSync.frame_counter (globals s) /\
     pushed (out s') = pushed (out s) /\
     csv_lines (out s') = csv_lines (out s) /\
     out s' = (out s2 ++ [Stderr (SkipFrame (frame_name_of cfg (globals s))
                                    (1000 / 1024))])%list).
Proof.
  exact (non_keyframe_is_skipped_while_file_stays avsync_cfg_300 small_frames_env
           (boot (AvSync.initial_globals 7))
           (snd (is_file_ready
                   (frame_path_of avsync_cfg_300
                      (globals (boot (AvSync.initial_globals 7))))
                   small_frames_env
                   (snd (AvSync.pace avsync_cfg_300 small_frames_env
                           (boot (AvSync.initial_globals 7))))))
           1000 1000
           ltac:(vm_compute; reflexivity)
           ltac:(vm_compute; discriminate)
           ltac:(vm_compute; reflexivity)
           ltac:(vm_compute; reflexivity)).
Defined.

(** C3 (the code at the failing input).  A frame file that has passed the
    readiness probe and is removed before the pass is over is not skipped.
    A 1000-byte file removed after [is_iframe] has answered false makes the
    unguarded [fs::file_size] of the skip line (line 282) throw
    [filesystem_error]: the pass does not end in [continue],
    [current_index] stays at 7 and the exception leaves [feed_frames].  A
    40960-byte file, above the threshold, removed between the two calls of
    [is_iframe] is classified not-a-keyframe whatever its size, and the
    pass throws in the same way. *)
Theorem C3_skip_throws_when_ready_file_vanishes :
  let cfg := avsync_cfg_300 in
  let s := boot (AvSync.initial_globals 7) in
  let path := frame_path_of cfg (globals s) in
  let name := frame_name_of cfg (globals s) in
  let ready env := is_file_ready path env (snd (AvSync.pace cfg env s)) in
  (fst (ready (small_then_removed 7)) = Ok true /\
   fst (AvSync.is_iframe path (small_then_removed 7)
          (snd (ready (small_then_removed 7)))) = Ok false /\
   AvSync.feed_iteration cfg (small_then_removed 7) s
   = (Raise (filesystem_error path),
      {| globals := AvSync.initial_globals 7; tick := 8;
         out := [SleepFor 2; Stderr (SkipFramePrefix name)] |}) /\
   fst (AvSync.feed_frames cfg 10 (small_then_removed 8) s)
   = Raise (filesystem_error path))
  /\
  (fst (ready (removed_after 6)) = Ok true /\
   files (removed_after 6 (tick (snd (ready (removed_after 6))))) path
   = Some 40960 /\
   AvSync.IFRAME_MIN_SIZE <= 40960 /\
   fst (AvSync.is_iframe path (removed_after 6)
          (snd (ready (removed_after 6)))) = Ok false /\
   AvSync.feed_iteration cfg (removed_after 6) s
   = (Raise (filesystem_error path),
      {| globals := AvSync.initial_globals 7; tick := 8;
         out := [SleepFor 2; Stderr (SkipFramePrefix name)] |}) /\
   fst (AvSync.feed_frames cfg 10 (removed_after 7) s)
   = Raise (filesystem_error path)).
Proof.
  cbv zeta. split.
  - repeat split; vm_compute; reflexivity.
  - split; [vm_compute; reflexivity |].
    split; [vm_compute; reflexivity |].
    split; [vm_compute; discriminate |].
    repeat split; vm_compute; reflexivity.
Qed.

(** ** C5: a file that is ready but cannot be loaded *)

Lemma main_pace_pair cfg env s :
  Main.pace cfg env s = (Ok tt, snd (Main.pace cfg env s)).
Proof.
  destruct (Main.pace cfg env s) as [r s1] eqn:E.
  destruct (main_pace_effect _ _ _ _ _ E) as (-> & _). reflexivity.
Qed.

(** In the feeder of part_000 a frame file of 40 KiB that is stable but
    cannot be opened does not end the loop: after three passes the loop is
    still running, [current_index] is still 7, and stderr holds three
    "Failed to open" lines for that one file. *)
Lemma C5_counterexample_part_000_retries :
  let run := AvSync.feed_loop avsync_cfg_300 3 unreadable_env
               (boot (AvSync.initial_globals 7)) in
  let path := frame_path_of avsync_cfg_300 (AvSync.initial_globals 7) in
  fst run = Ok false /\
  AvSync.current_index (globals (snd run)) = 7 /\
  AvSync.frame_counter (globals (snd run)) = 0 /\
  stderr_lines (out (snd run))
  = [FailedToOpen path; FailedToOpen path; FailedToOpen path] /\
  pushed (out (snd run)) = [].
Proof. vm_compute. repeat split; reflexivity. Qed.

(** C5 (amended). A frame file that passed the readiness probe and then
    fails to open or to read ends the feeder loop of [src/main.cpp]
    ([break]: the loop is left at that pass, counters as they were, nothing
    pushed).  In the feeder of part_000 the same failure is not the end:
    the pass writes the failure line, sleeps 100 ms and ends in [continue]
    with every variable as it was, so the next pass tries the same index
    again. *)
Theorem C5_load_failure_fatal_in_main_retried_in_part_000 :
  (forall (cfg : Main.Config) (env : Env) (s s2 : Sys Main.Globals),
     let path := main_frame_path_of cfg (globals s) in
     is_file_ready path env (snd (Main.pace cfg env s)) = (Ok true, s2) ->
     load_failed (ifstream_read (env (tick s2)) path) ->
     exists s',
       Main.feed_iteration cfg env s = (Ok Break, s') /\
       (forall fuel, Main.feed_loop cfg (S fuel) env s = (Ok true, s')) /\
       Main.frame_counter (globals s') = Main.frame_counter (globals s) /\
       Main.current_index (globals s') = Main.current_index (globals s) /\
       pushed (out s') = pushed (out s) /\
       out s' = (out s2 ++ [Stderr (load_failure_line
                                      (ifstream_read (env (tick s2)) path) path)])%list)
  /\
  (forall (cfg : AvSync.Config) (env : Env) (s s2 s3 : Sys AvSync.Globals),
     let path := frame_path_of cfg (globals s) in
     is_file_ready path env (snd (AvSync.pace cfg env s)) = (Ok true, s2) ->
     AvSync.is_iframe path env s2 = (Ok true, s3) ->
     load_failed (ifstream_read (env (tick s3)) path) ->
     exists s',
       AvSync.feed_iteration cfg env s = (Ok Continue, s') /\
       (forall fuel,
          AvSync.feed_loop cfg (S fuel) env s = AvSync.feed_loop cfg fuel env s') /\
       globals s' = globals s /\
       pushed (out s') = pushed (out s) /\
       out s' = (out s3 ++ [Stderr (load_failure_line
                                      (ifstream_read (env (tick s3)) path) path);
                            SleepFor 100])%list).
Proof.
  split.
  - intros cfg env s s2 path Hready Hfail.
    pose proof (main_pace_pair cfg env s) as Hp.
    destruct (main_pace_effect _ _ _ _ _ Hp) as (_ & F0 & I0 & _ & P0 & _).
    destruct (silent_is_file_ready _ _ _ _ _ Hready) as (G1 & P1 & _).
    assert (Hit : exists s',
      Main.feed_iteration cfg env s = (Ok Break, s') /\
      globals s' = globals s2 /\
      out s' = (out s2 ++ [Stderr (load_failure_line
                                     (ifstream_read (env (tick s2)) path) path)])%list).
    { unfold Main.feed_iteration.
      unfold bind at 1. rewrite Hp.
      unfold bind at 1. unfold get_globals at 1.
      unfold bind at 1. subst path. unfold main_frame_path_of in *.
      rewrite I0, Hready. cbn [negb].
      unfold bind at 1. unfold observe at 1.
      destruct Hfail as [E | E]; rewrite E;
        unfold bind, cerr, emit, ret; cbn [tick globals out load_failure_line];
        eexists; (split; [reflexivity |]); cbn [globals out]; auto. }
    destruct Hit as (s' & Hit & G' & O').
    exists s'. split; [exact Hit |]. split; [| repeat split].
    + intros fuel. cbn [Main.feed_loop]. unfold bind at 1. rewrite Hit. reflexivity.
    + rewrite G', G1. exact F0.
    + rewrite G', G1. exact I0.
    + rewrite O', pushed_app. cbn. rewrite app_nil_r. congruence.
    + exact O'.
  - intros cfg env s s2 s3 path Hready Hif Hfail.
    pose proof (avsync_pace_pair cfg env s) as Hp.
    destruct (silent_avsync_pace _ _ _ _ _ Hp) as (G0 & P0 & _).
    destruct (silent_is_file_ready _ _ _ _ _ Hready) as (G1 & P1 & _).
    destruct (silent_is_iframe _ _ _ _ _ Hif) as (G2 & P2 & _).
    assert (Hit : exists s',
      AvSync.feed_iteration cfg env s = (Ok Continue, s') /\
      globals s' = globals s3 /\
      out s' = (out s3 ++ [Stderr (load_failure_line
                                     (ifstream_read (env (tick s3)) path) path);
                           SleepFor 100])%list).
    { unfold AvSync.feed_iteration.
      unfold bind at 1. rewrite Hp.
      unfold bind at 1. unfold get_globals at 1.
      unfold bind at 1. subst path. unfold frame_path_of, frame_name_of in *.
      rewrite G0, Hready. cbn [negb].
      unfold bind at 1. rewrite Hif. cbn [negb].
      unfold bind at 1. unfold observe at 1.
      destruct Hfail as [E | E]; rewrite E;
        unfold bind, cerr, sleep_for, emit, ret;
        cbn [tick globals out load_failure_line];
        eexists; (split; [reflexivity |]); cbn [globals out];
        rewrite <- app_assoc; auto. }
    destruct Hit as (s' & Hit & G' & O').
    exists s'. split; [exact Hit |]. split; [| repeat split].
    + intros fuel. cbn [AvSync.feed_loop]. unfold bind at 1. rewrite Hit. reflexivity.
    + congruence.
    + rewrite O', pushed_app. cbn. rewrite app_nil_r. congruence.
    + exact O'.
Qed.

Lemma C5_load_failure_fatal_in_main_retried_in_part_000_witness :
  (exists s',
     Main.feed_iteration (main_cfg 300) unreadable_env
       (boot (Main.initial_globals 7)) = (Ok Break, s') /\
     Main.current_index (globals s') = 7)
  /\
  (exists s',
     AvSync.feed_iteration avsync_cfg_300 unreadable_env
       (boot (AvSync.initial_globals 7)) = (Ok Continue, s') /\
     globals s' = AvSync.initial_globals 7).
Proof.
  split.
  - destruct (proj1 C5_load_failure_fatal_in_main_retried_in_part_000
                (main_cfg 300) unreadable_env (boot (Main.initial_globals 7))
                (snd (is_file_ready
                        (main_frame_path_of (main_cfg 300) (Main.initial_globals 7))
                        unreadable_env
                        (snd (Main.pace (main_cfg 300) unreadable_env
                                (boot (Main.initial_globals 7))))))
                ltac:(vm_compute; reflexivity)
                ltac:(left; vm_compute; reflexivity))
      as (s' & Hit & _ & _ & Hci & _).
    exists s'. split; [exact Hit | exact Hci].
  - destruct (proj2 C5_load_failure_fatal_in_main_retried_in_part_000
                avsync_cfg_300 unreadable_env (boot (AvSync.initial_globals 7))
                (snd (is_file_ready
                        (frame_path_of avsync_cfg_300 (AvSync.initial_globals 7))
                        unreadable_env
                        (snd (AvSync.pace avsync_cfg_300 unreadable_env
                                (boot (AvSync.initial_globals 7))))))
                (snd (AvSync.is_iframe
                        (frame_path_of avsync_cfg_300 (AvSync.initial_globals 7))
                        unreadable_env
                        (snd (is_file_ready
                                (frame_path_of avsync_cfg_300 (AvSync.initial_globals 7))
                                unreadable_env
                                (snd (AvSync.pace avsync_cfg_300 unreadable_env
                                        (boot (AvSync.initial_globals 7))))))))
                ltac:(vm_compute; reflexivity)
                ltac:(vm_compute; reflexivity)
                ltac:(left; vm_compute; reflexivity))
      as (s' & Hit & _ & Hg & _).
    exists s'. split; [exact Hit | exact Hg].
Defined.

(** ** C8: pacing *)

Lemma behind_iff cfg delta :
  AvSync.behind cfg delta = true <-> Qlt (AvSync.FrameIntervalMs cfg) (inject_Z delta).
Proof.
  unfold AvSync.behind. rewrite negb_true_iff.
  destruct (Qle_bool (inject_Z delta) (AvSync.FrameIntervalMs cfg)) eqn:E.
  - apply Qle_bool_iff in E. split; [discriminate |].
    intros L. exfalso. exact (Qlt_not_le _ _ L E).
  - split; [intros _ | reflexivity].
    apply Qnot_le_lt. intros L. apply Qle_bool_iff in L. congruence.
Qed.

Lemma expected_time_in_range cfg g :
  0 <= AvSync.start_time g -> 0 <= AvSync.frame_counter g ->
  0 <= AvSync.frame_duration cfg ->
  AvSync.start_time g + AvSync.frame_counter g * AvSync.frame_duration cfg * 1000
    < 2 ^ 64 ->
  AvSync.expected_time cfg g
  = AvSync.start_time g + AvSync.frame_counter g * AvSync.frame_duration cfg * 1000.
Proof.
  intros Hs Hf Hd Hb. unfold AvSync.expected_time, wrap64.
  rewrite Z.mul_mod_idemp_r by lia.
  rewrite Z.mul_mod_idemp_l by lia.
  rewrite <- Zplus_mod.
  apply Z.mod_small. nia.
Qed.

(** At 300 frames per second ([FrameIntervalMs] about 3.333, 3333
    microseconds a frame) a pass of the feeder of part_000 that starts
    3.5 ms after its target time writes no warning, and neither does one
    that starts 1.5 ms late at 1000 frames per second (interval 1 ms); a
    pass of the feeder of [src/main.cpp] that starts 5 ms after
    [next_frame_time] writes none either. *)
Lemma C8_counterexample_late_without_warning :
  let s := boot (AvSync.initial_globals 0) in
  (let late : Env := fun _ => calm_world 3500000 in
   AvSync.expected_time avsync_cfg_300 (globals s) = 0 /\
   AvSync.frame_duration avsync_cfg_300 * 1000 < steady_now (late (tick s)) - 0 /\
   Qlt (AvSync.FrameIntervalMs avsync_cfg_300) (3500000 # 1000000) /\
   AvSync.pace avsync_cfg_300 late s
   = (Ok tt, {| globals := globals s; tick := 1; out := [] |}))
  /\
  (let late : Env := fun _ => calm_world 1500000 in
   AvSync.expected_time avsync_cfg_1000 (globals s) = 0 /\
   AvSync.frame_duration avsync_cfg_1000 * 1000 < steady_now (late (tick s)) - 0 /\
   Qlt (AvSync.FrameIntervalMs avsync_cfg_1000) (1500000 # 1000000) /\
   AvSync.pace avsync_cfg_1000 late s
   = (Ok tt, {| globals := globals s; tick := 1; out := [] |}))
  /\
  (let later : Env := fun _ => calm_world 5000000 in
   let m := boot (Main.initial_globals 0) in
   Main.next_frame_time (globals m) = 0 /\
   Main.frame_interval_us (main_cfg 1000) * 1000 < steady_now (later (tick m)) - 0 /\
   out (snd (Main.pace (main_cfg 1000) later m)) = []).
Proof. vm_compute. repeat split; reflexivity. Qed.

(** C8 (amended). In the feeder of part_000 the target time of the pass
    for frame n is [start_time + n * frame_duration], computed afresh from
    the anchor [start_time] read on entry.  The pass sleeps until the target
    when the clock is before it.  Otherwise it goes on at once, and writes
    the behind-schedule warning exactly when the lateness, cut down to whole
    milliseconds, is more than [FrameIntervalMs]; either way the counters
    are untouched, so no frame is dropped.  The feeder of [src/main.cpp]
    instead adds one interval to [next_frame_time] at every pass and never
    writes a warning. *)
Theorem C8_pacing_from_anchor :
  (forall (cfg : AvSync.Config) (env : Env) (s : Sys AvSync.Globals),
     let g := globals s in
     let now := steady_now (env (tick s)) in
     let target :=
       AvSync.start_time g + AvSync.frame_counter g * AvSync.frame_duration cfg * 1000 in
     0 <= AvSync.start_time g -> 0 <= AvSync.frame_counter g ->
     0 <= AvSync.frame_duration cfg -> target < 2 ^ 64 ->
     0 <= now < 2 ^ 64 ->
     AvSync.expected_time cfg g = target /\
     exists s',
       AvSync.pace cfg env s = (Ok tt, s') /\
       globals s' = g /\
       (now < target -> out s' = (out s ++ [SleepUntil target])%list) /\
       (target <= now ->
        Qlt (AvSync.FrameIntervalMs cfg) (inject_Z ((now - target) / 1000000)) ->
        out s' = (out s ++ [Stderr (BehindSchedule ((now - target) / 1000000)
                                      (AvSync.frame_counter g))])%list) /\
       (target <= now ->
        Qle (inject_Z ((now - target) / 1000000)) (AvSync.FrameIntervalMs cfg) ->
        out s' = out s))
  /\
  (forall (cfg : Main.Config) (env : Env) (s : Sys Main.Globals),
     exists s',
       Main.pace cfg env s = (Ok tt, s') /\
       Main.next_frame_time (globals s')
       = Main.next_frame_time (globals s) + Main.frame_interval_us cfg * 1000 /\
       Main.frame_counter (globals s') = Main.frame_counter (globals s) /\
       Main.current_index (globals s') = Main.current_index (globals s) /\
       stderr_lines (out s') = stderr_lines (out s)).
Proof.
  split.
  - intros cfg env s g now target Hs Hf Hd Hb Hnow.
    pose proof (expected_time_in_range cfg g Hs Hf Hd Hb) as He.
    split; [exact He |].
    unfold AvSync.pace, bind, get_globals, clock_now, observe.
    cbn [tick globals out]. fold g. fold now. rewrite He. fold target.
    rewrite (wrap64_small now) by lia.
    destruct (Z.ltb_spec now target) as [L | L].
    + eexists. split; [reflexivity |]. cbn [globals out].
      repeat split; trivial; intros; lia.
    + assert (Hdelta : ns_to_ms (wrap64 (now - target)) = (now - target) / 1000000).
      { rewrite wrap64_small by (subst target; nia).
        unfold ns_to_ms. apply Z.quot_div_nonneg; lia. }
      rewrite Hdelta.
      destruct (AvSync.behind cfg ((now - target) / 1000000)) eqn:B.
      * eexists. split; [reflexivity |]. cbn [globals out].
        repeat split; trivial; try (intros; lia).
        intros _ Hle. apply behind_iff in B. exfalso. exact (Qlt_not_le _ _ B Hle).
      * eexists. split; [reflexivity |]. cbn [globals out].
        repeat split; trivial; try (intros; lia).
        intros _ Hlt. apply behind_iff in Hlt. congruence.
  - intros cfg env s.
    unfold Main.pace, bind, get_globals, put_globals, clock_now, observe,
      sleep_until, emit, ret.
    cbn [tick globals out].
    destruct (steady_now (env (tick s)) <? Main.next_frame_time (globals s));
      eexists; (split; [reflexivity |]); cbn; repeat split.
    unfold stderr_lines. rewrite flat_map_app. cbn. apply app_nil_r.
Qed.

Lemma C8_pacing_from_anchor_witness :
  let late : Env := fun _ => calm_world 5000000 in
  (exists s',
     AvSync.pace avsync_cfg_1000 late (boot (AvSync.initial_globals 0)) = (Ok tt, s') /\
     out s' = [Stderr (BehindSchedule 5 0)])
  /\
  (exists s',
     Main.pace (main_cfg 1000) late (boot (Main.initial_globals 0)) = (Ok tt, s') /\
     Main.next_frame_time (globals s') = 0 + 1000 * 1000).
Proof.
  split.
  - destruct (proj1 C8_pacing_from_anchor avsync_cfg_1000
                (fun _ => calm_world 5000000) (boot (AvSync.initial_globals 0))
                ltac:(vm_compute; discriminate) ltac:(vm_compute; discriminate)
                ltac:(vm_compute; discriminate) ltac:(vm_compute; reflexivity)
                ltac:(vm_compute; split; [discriminate | reflexivity]))
      as (_ & s' & Hp & _ & _ & Hwarn & _).
    exists s'. split; [exact Hp |].
    exact (Hwarn ltac:(vm_compute; discriminate) ltac:(vm_compute; reflexivity)).
  - destruct (proj2 C8_pacing_from_anchor (main_cfg 1000)
                (fun _ => calm_world 5000000) (boot (Main.initial_globals 0)))
      as (s' & Hp & Hn & _).
    exists s'. split; [exact Hp | exact Hn].
Defined.

(** ** The video probe *)

Lemma probe_on_buffer prefix fc info b pdata prev :
  carries_buffer info b ->
  AvSync.video_probe prefix fc info pdata prev
  = let fname := make_frame_filename prefix fc in
    let m := frame_metadata prefix fc pdata in
    {| AvSync.result := AvSync.GST_PAD_PROBE_OK;
       AvSync.rows :=
         if negb (Gst.pts b =? Gst.GST_CLOCK_TIME_NONE) then
           ((if AvSync.csv_open pdata
             then [AvSync.main_row fc (pts_column b) fname m] else [])
            ++
            (if AvSync.csv_summary_open pdata && AvSync.changed m prev
             then [summary_row fc b m] else []))%list
         else
           if AvSync.csv_open pdata
           then [AvSync.main_row fc (pts_column b) fname m] else [];
       AvSync.gets := snd (AvSync.lookup pdata (frame_key prefix fc));
       AvSync.statics :=
         {| AvSync.prev_ball := AvSync.ball m; AvSync.prev_over := AvSync.over m;
            AvSync.prev_innings := AvSync.innings m |} |}.
Proof.
  intros (Hty & Hd). unfold AvSync.video_probe.
  destruct (Z.eqb_spec (Z.land (AvSync.type info) AvSync.GST_PAD_PROBE_TYPE_BUFFER) 0)
    as [E | _]; [contradiction |].
  rewrite Hd. cbn zeta. unfold frame_metadata, frame_key, pts_column, summary_row.
  destruct (AvSync.lookup pdata _) as [m asked]. cbn [fst snd].
  destruct (Gst.pts b =? Gst.GST_CLOCK_TIME_NONE); reflexivity.
Qed.

Lemma changed_iff m p :
  AvSync.changed m p = true <-> triple m <> prev_triple p.
Proof.
  unfold AvSync.changed, triple, prev_triple.
  destruct (String.eqb_spec (AvSync.ball m) (AvSync.prev_ball p)) as [Eb | Nb];
    destruct (String.eqb_spec (AvSync.over m) (AvSync.prev_over p)) as [Eo | No];
    destruct (String.eqb_spec (AvSync.innings m) (AvSync.prev_innings p)) as [Ei | Ni];
    cbn; split; try discriminate; try reflexivity; try congruence.
  all: intros _ H; inversion H; contradiction.
Qed.

Lemma lookup_without_string pdata key :
  string_reply pdata key = None -> fst (AvSync.lookup pdata key) = AvSync.defaults.
Proof.
  unfold string_reply, AvSync.lookup.
  destruct pdata as [pd |]; [| reflexivity].
  destruct (AvSync.redis pd) as [ctx |]; [| reflexivity].
  destruct (ctx key) as [[str | |] |]; try reflexivity. discriminate.
Qed.

Lemma lookup_with_string pdata key str :
  string_reply pdata key = Some str ->
  fst (AvSync.lookup pdata key) = AvSync.parse_record (c_str str).
Proof.
  unfold string_reply, AvSync.lookup.
  destruct pdata as [pd |]; [| discriminate].
  destruct (AvSync.redis pd) as [ctx |]; [| discriminate].
  destruct (ctx key) as [[str' | |] |]; try discriminate.
  intros E. inversion E; subst. reflexivity.
Qed.

Lemma lookup_asks_at_most_once pdata key :
  (List.length (snd (AvSync.lookup pdata key)) <= 1)%nat.
Proof.
  unfold AvSync.lookup.
  destruct pdata as [pd |]; [| cbn; lia].
  destruct (AvSync.redis pd) as [ctx |]; cbn; lia.
Qed.

Lemma extract_without_label json key :
  index 0 (AvSync.label key) json = None -> AvSync.extract json key = "NA".
Proof. intros E. unfold AvSync.extract. rewrite E. reflexivity. Qed.

Lemma parse_record_without_labels json :
  no_labels json -> every_field_is "NA" (AvSync.parse_record json).
Proof.
  intros H. unfold every_field_is, AvSync.parse_record. cbn.
  repeat split; apply extract_without_label; apply H; cbn; auto 10.
Qed.

(** ** C6: metadata that cannot be had *)

(** Without a Redis context, and likewise when the key is absent, the
    probe's record is the defaults of line 116: ball, innings and over are
    1, isStart is false, matchID is 123 and only the other three are NA, so
    no one value fills every field; a stored value without any label gives
    NA in every field, so the two kinds of failure do not give the same
    record either. *)
Lemma C6_counterexample_defaults_are_not_one_sentinel :
  let unreachable := frame_metadata "camera01" 0 pdata_unreachable in
  let absent := frame_metadata "camera01" 0 (pdata_answering AvSync.REDIS_REPLY_NIL) in
  let malformed :=
    frame_metadata "camera01" 0
      (pdata_answering (AvSync.REDIS_REPLY_STRING "garbage")) in
  AvSync.rows
    (AvSync.video_probe "camera01" 0 (buffer_info one_second_buffer)
       pdata_unreachable AvSync.initial_prev)
  = [AvSync.MainRow 0 (Some 90000) "frame_camera01_000000000.hevc"
       "1" "NA" "1" "false" "123" "1" "NA" "NA";
     AvSync.SummaryRow 0 90000 "1" "1" "1" "123"] /\
  ~ (exists v, every_field_is v unreachable) /\
  ~ (exists v, every_field_is v absent) /\
  every_field_is "NA" malformed /\
  malformed <> unreachable.
Proof.
  cbv zeta. split; [vm_compute; reflexivity |].
  split; [| split; [| split]].
  - intros (v & Hb & Hf & _). vm_compute in Hb, Hf. congruence.
  - intros (v & Hb & Hf & _). vm_compute in Hb, Hf. congruence.
  - vm_compute. repeat split; reflexivity.
  - vm_compute. discriminate.
Qed.

(** C6 (amended). For every buffer the probe sees, it returns
    [GST_PAD_PROBE_OK] (the buffer goes on), asks Redis at most once, and,
    with the main CSV open, writes exactly one main row for the frame.  When
    there is no context, the command fails or the reply is not a string,
    the record is the defaults (ball 1, frame_name NA, innings 1, isStart
    false, matchID 123, over 1, ptp_timestamp NA, received_at NA); when the
    reply is a string in which no field label occurs, every field is NA. *)
Theorem C6_metadata_failure_gives_defaults_or_NA
    (prefix : string) (fc : Z) (info : AvSync.GstPadProbeInfo)
    (b : Gst.GstBuffer) (pdata : option AvSync.ProbeData) (prev : AvSync.Prev)
    (Hbuf : carries_buffer info b) :
  let o := AvSync.video_probe prefix fc info pdata prev in
  let m := frame_metadata prefix fc pdata in
  AvSync.result o = AvSync.GST_PAD_PROBE_OK /\
  (List.length (AvSync.gets o) <= 1)%nat /\
  (AvSync.csv_open pdata = true ->
   AvSync.main_rows (AvSync.rows o)
   = [AvSync.main_row fc (pts_column b) (make_frame_filename prefix fc) m]) /\
  (string_reply pdata (frame_key prefix fc) = None -> m = AvSync.defaults) /\
  (forall str,
     string_reply pdata (frame_key prefix fc) = Some str ->
     no_labels (c_str str) -> every_field_is "NA" m).
Proof.
  cbv zeta. rewrite (probe_on_buffer prefix fc info b pdata prev Hbuf). cbv zeta.
  cbn [AvSync.result AvSync.gets AvSync.rows].
  split; [reflexivity |].
  split; [apply lookup_asks_at_most_once |].
  split; [| split].
  - intros Hopen. rewrite Hopen.
    destruct (negb (Gst.pts b =? Gst.GST_CLOCK_TIME_NONE)); [| reflexivity].
    destruct (AvSync.csv_summary_open pdata && AvSync.changed _ prev); reflexivity.
  - apply lookup_without_string.
  - intros str Hs Hn. unfold frame_metadata.
    rewrite (lookup_with_string _ _ _ Hs). apply parse_record_without_labels.
    exact Hn.
Qed.

Lemma C6_metadata_failure_gives_defaults_or_NA_witness :
  let o := AvSync.video_probe "camera01" 0 (buffer_info one_second_buffer)
             pdata_unreachable AvSync.initial_prev in
  AvSync.result o = AvSync.GST_PAD_PROBE_OK /\
  frame_metadata "camera01" 0 pdata_unreachable = AvSync.defaults.
Proof.
  destruct (C6_metadata_failure_gives_defaults_or_NA "camera01" 0
              (buffer_info one_second_buffer) one_second_buffer
              pdata_unreachable AvSync.initial_prev
              ltac:(split; [vm_compute; discriminate | reflexivity]))
    as (Hr & _ & _ & Hd & _).
  split; [exact Hr | exact (Hd eq_refl)].
Defined.

(** ** C7: the summary row *)

(** Frame 0 has ball 0, over 0, innings 0; frame 1 has ball 3, over 12,
    innings 2, but its buffer has no PTS: the probe writes its main row with
    NA for the PTS and no summary row.  Frame 2, with the same record and a
    PTS, gets none either, so the change is never summarised. *)
Lemma C7_counterexample_no_pts_no_summary_row :
  let unstamped := Gst.gst_buffer_new_allocate [] in
  let o_a := AvSync.video_probe "camera01" 0 (buffer_info one_second_buffer)
               (pdata_answering (AvSync.REDIS_REPLY_STRING json_all_zero))
               AvSync.initial_prev in
  let o_b := AvSync.video_probe "camera01" 1 (buffer_info unstamped)
               (pdata_answering (AvSync.REDIS_REPLY_STRING json_ball_3))
               (AvSync.statics o_a) in
  let o_c := AvSync.video_probe "camera01" 2 (buffer_info one_second_buffer)
               (pdata_answering (AvSync.REDIS_REPLY_STRING json_ball_3))
               (AvSync.statics o_b) in
  triple (frame_metadata "camera01" 0
            (pdata_answering (AvSync.REDIS_REPLY_STRING json_all_zero)))
  = ("0", "0", "0") /\
  triple (frame_metadata "camera01" 1
            (pdata_answering (AvSync.REDIS_REPLY_STRING json_ball_3)))
  = ("3", "12", "2") /\
  AvSync.rows o_b
  = [AvSync.MainRow 1 None "frame_camera01_000000001.hevc"
       "3" "NA" "2" "NA" "77" "12" "NA" "NA"] /\
  AvSync.summary_rows (AvSync.rows o_b) = [] /\
  AvSync.summary_rows (AvSync.rows o_c) = [].
Proof. vm_compute. repeat split; reflexivity. Qed.

(** C7 (amended). Take two consecutive calls of the probe for buffers, with
    the summary CSV open at the later one.  When the later buffer has a PTS,
    the later call writes exactly one summary row, the frame's own, if the
    frame's (ball, over, innings) differ from the earlier frame's, and none
    if the triples are the same.  When the later buffer has no PTS the call
    writes no summary row either way. *)
Theorem C7_summary_row_iff_triple_changes
    (prefix : string) (fc_a fc_b : Z) (info_a info_b : AvSync.GstPadProbeInfo)
    (b_a b_b : Gst.GstBuffer) (pdata_a pdata_b : option AvSync.ProbeData)
    (prev : AvSync.Prev)
    (Ha : carries_buffer info_a b_a)
    (Hb : carries_buffer info_b b_b)
    (Hopen : AvSync.csv_summary_open pdata_b = true) :
  let o_a := AvSync.video_probe prefix fc_a info_a pdata_a prev in
  let o_b := AvSync.video_probe prefix fc_b info_b pdata_b (AvSync.statics o_a) in
  let m_a := frame_metadata prefix fc_a pdata_a in
  let m_b := frame_metadata prefix fc_b pdata_b in
  (Gst.pts b_b <> Gst.GST_CLOCK_TIME_NONE ->
   (triple m_b <> triple m_a ->
    AvSync.summary_rows (AvSync.rows o_b) = [summary_row fc_b b_b m_b]) /\
   (triple m_b = triple m_a ->
    AvSync.summary_rows (AvSync.rows o_b) = [])) /\
  (Gst.pts b_b = Gst.GST_CLOCK_TIME_NONE ->
   AvSync.summary_rows (AvSync.rows o_b) = []) /\
  prev_triple (AvSync.statics o_b) = triple m_b.
Proof.
  cbv zeta.
  rewrite (probe_on_buffer prefix fc_a info_a b_a pdata_a prev Ha). cbv zeta.
  cbn [AvSync.statics].
  rewrite (probe_on_buffer prefix fc_b info_b b_b pdata_b _ Hb). cbv zeta.
  cbn [AvSync.rows AvSync.statics].
  set (m_a := frame_metadata prefix fc_a pdata_a).
  set (m_b := frame_metadata prefix fc_b pdata_b).
  set (p := {| AvSync.prev_ball := AvSync.ball m_a;
               AvSync.prev_over := AvSync.over m_a;
               AvSync.prev_innings := AvSync.innings m_a |}).
  assert (Hp : prev_triple p = triple m_a) by reflexivity.
  pose proof (changed_iff m_b p) as Hc. rewrite Hp in Hc.
  split; [| split; [| reflexivity]].
  - intros Hpts.
    destruct (Z.eqb_spec (Gst.pts b_b) Gst.GST_CLOCK_TIME_NONE) as [E | _];
      [contradiction |].
    cbn [negb]. rewrite Hopen. cbn [andb].
    destruct (AvSync.changed m_b p).
    + split.
      * intros _. destruct (AvSync.csv_open pdata_b); reflexivity.
      * intros E. exfalso. apply (proj1 Hc eq_refl). exact E.
    + split.
      * intros N. apply Hc in N. discriminate N.
      * intros _. destruct (AvSync.csv_open pdata_b); reflexivity.
  - intros Hpts. rewrite Hpts, Z.eqb_refl. cbn [negb].
    destruct (AvSync.csv_open pdata_b); reflexivity.
Qed.

Lemma C7_summary_row_iff_triple_changes_witness :
  let o_a := AvSync.video_probe "camera01" 0 (buffer_info one_second_buffer)
               (pdata_answering (AvSync.REDIS_REPLY_STRING json_all_zero))
               AvSync.initial_prev in
  AvSync.summary_rows
    (AvSync.rows
       (AvSync.video_probe "camera01" 1 (buffer_info one_second_buffer)
          (pdata_answering (AvSync.REDIS_REPLY_STRING json_ball_3))
          (AvSync.statics o_a)))
  = [AvSync.SummaryRow 1 90000 "12" "3" "2" "77"].
Proof.
  exact (proj1
           (proj1 (C7_summary_row_iff_triple_changes "camera01" 0 1
                     (buffer_info one_second_buffer) (buffer_info one_second_buffer)
                     one_second_buffer one_second_buffer
                     (pdata_answering (AvSync.REDIS_REPLY_STRING json_all_zero))
                     (pdata_answering (AvSync.REDIS_REPLY_STRING json_ball_3))
                     AvSync.initial_prev
                     ltac:(split; [vm_compute; discriminate | reflexivity])
                     ltac:(split; [vm_compute; discriminate | reflexivity])
                     ltac:(reflexivity))
              ltac:(vm_compute; discriminate))
           ltac:(vm_compute; discriminate)).
Defined.

(** ** C10: the first frame *)

(** When Redis holds ball 0, over 0, innings 0 for the first frame, the
    probe writes the main row and no summary row: the record equals the
    initial values of the change detector. *)
Lemma C10_counterexample_first_frame_all_zero :
  let o := AvSync.video_probe "camera01" 0 (buffer_info one_second_buffer)
             (pdata_answering (AvSync.REDIS_REPLY_STRING json_all_zero))
             AvSync.initial_prev in
  AvSync.rows o
  = [AvSync.MainRow 0 (Some 90000) "frame_camera01_000000000.hevc"
       "0" "NA" "0" "NA" "77" "0" "NA" "NA"] /\
  AvSync.summary_rows (AvSync.rows o) = [].
Proof. vm_compute. split; reflexivity. Qed.

(** C10 (amended). The change detector starts from ("0", "0", "0").  For
    the first buffer the probe sees, if it has a PTS and the summary CSV is
    open, a summary row is written exactly when the frame's (ball, over,
    innings) is not ("0", "0", "0"); so it is written whenever no metadata
    is found, because the defaults are ("1", "1", "1"). *)
Theorem C10_first_frame_summary_row
    (prefix : string) (fc : Z) (info : AvSync.GstPadProbeInfo)
    (b : Gst.GstBuffer) (pdata : option AvSync.ProbeData)
    (Hbuf : carries_buffer info b)
    (Hpts : Gst.pts b <> Gst.GST_CLOCK_TIME_NONE)
    (Hopen : AvSync.csv_summary_open pdata = true) :
  let o := AvSync.video_probe prefix fc info pdata AvSync.initial_prev in
  let m := frame_metadata prefix fc pdata in
  prev_triple AvSync.initial_prev = ("0", "0", "0") /\
  triple AvSync.defaults = ("1", "1", "1") /\
  (triple m <> ("0", "0", "0") ->
   AvSync.summary_rows (AvSync.rows o) = [summary_row fc b m]) /\
  (triple m = ("0", "0", "0") ->
   AvSync.summary_rows (AvSync.rows o) = []) /\
  (string_reply pdata (frame_key prefix fc) = None ->
   AvSync.summary_rows (AvSync.rows o) = [summary_row fc b AvSync.defaults]).
Proof.
  cbv zeta.
  rewrite (probe_on_buffer prefix fc info b pdata _ Hbuf). cbv zeta.
  cbn [AvSync.rows].
  destruct (Z.eqb_spec (Gst.pts b) Gst.GST_CLOCK_TIME_NONE) as [E | _];
    [contradiction |].
  cbn [negb]. rewrite Hopen. cbn [andb].
  set (m := frame_metadata prefix fc pdata).
  pose proof (changed_iff m AvSync.initial_prev) as Hc.
  change (prev_triple AvSync.initial_prev) with ("0", "0", "0") in Hc.
  split; [reflexivity |]. split; [reflexivity |].
  assert (Hyes : triple m <> ("0", "0", "0") ->
                 AvSync.summary_rows
                   ((if AvSync.csv_open pdata
                     then [AvSync.main_row fc (pts_column b)
                             (make_frame_filename prefix fc) m]
                     else []) ++
                    (if AvSync.changed m AvSync.initial_prev
                     then [summary_row fc b m] else []))
                 = [summary_row fc b m]).
  { intros N. apply Hc in N. rewrite N.
    destruct (AvSync.csv_open pdata); reflexivity. }
  split; [exact Hyes |]. split.
  - intros E. destruct (AvSync.changed m AvSync.initial_prev).
    + exfalso. apply (proj1 Hc eq_refl). exact E.
    + destruct (AvSync.csv_open pdata); reflexivity.
  - intros Hn. pose proof (lookup_without_string _ _ Hn) as Hd.
    fold (frame_metadata prefix fc pdata) in Hd. fold m in Hd.
    rewrite <- Hd. apply Hyes. rewrite Hd. discriminate.
Qed.

Lemma C10_first_frame_summary_row_witness :
  AvSync.summary_rows
    (AvSync.rows
       (AvSync.video_probe "camera01" 0 (buffer_info one_second_buffer)
          pdata_unreachable AvSync.initial_prev))
  = [AvSync.SummaryRow 0 90000 "1" "1" "1" "123"].
Proof.
  destruct (C10_first_frame_summary_row "camera01" 0
              (buffer_info one_second_buffer) one_second_buffer pdata_unreachable
              ltac:(split; [vm_compute; discriminate | reflexivity])
              ltac:(vm_compute; discriminate)
              ltac:(reflexivity))
    as (_ & _ & _ & _ & H).
  exact (H eq_refl).
Defined.

(** * Further properties of the code *)

(** ** Strings *)

Lemma length_app (a b : string) :
  String.length (a ++ b) = (String.length a + String.length b)%nat.
Proof. induction a as [| c a IH]; cbn; [reflexivity | rewrite IH; reflexivity]. Qed.

Lemma append_assoc (a b c : string) : ((a ++ b) ++ c)%string = (a ++ (b ++ c))%string.
Proof. induction a as [| x a IH]; cbn; [reflexivity | rewrite IH; reflexivity]. Qed.

Lemma append_nil_r (a : string) : (a ++ "")%string = a.
Proof. induction a as [| x a IH]; cbn; [reflexivity | rewrite IH; reflexivity]. Qed.

Lemma substring_all (s : string) (n : nat) :
  (String.length s <= n)%nat -> substring 0 n s = s.
Proof.
  revert n. induction s as [| c s IH]; intros n H.
  - destruct n; reflexivity.
  - destruct n as [| n]; cbn in H; [lia |]. cbn. rewrite IH by lia. reflexivity.
Qed.

Lemma substring_length_le (s : string) (n : nat) :
  (String.length (substring 0 n s) <= n)%nat.
Proof.
  revert n. induction s as [| c s IH]; intros n.
  - destruct n; cbn; lia.
  - destruct n as [| n]; cbn; [lia |]. specialize (IH n). lia.
Qed.

Lemma substring_skip (a b : string) (n : nat) :
  substring (String.length a) n (a ++ b) = substring 0 n b.
Proof. induction a as [| c a IH]; cbn; [reflexivity | exact IH]. Qed.

Lemma substring_prefix (a b : string) (m : nat) :
  substring 0 (String.length a + m) (a ++ b) = (a ++ substring 0 m b)%string.
Proof. induction a as [| c a IH]; cbn; [reflexivity | rewrite IH; reflexivity]. Qed.

Lemma append_inv_head (x a b : string) : (x ++ a)%string = (x ++ b)%string -> a = b.
Proof.
  induction x as [| c x IH]; cbn; intros H; [exact H |].
  injection H as H. exact (IH H).
Qed.

Lemma append_inv_tail (y : string) :
  forall a b : string, (a ++ y)%string = (b ++ y)%string -> a = b.
Proof.
  induction a as [| c a IH]; intros b H.
  - destruct b as [| d b]; [reflexivity |].
    apply (f_equal String.length) in H. cbn in H. rewrite length_app in H. lia.
  - destruct b as [| d b].
    + apply (f_equal String.length) in H. cbn in H. rewrite length_app in H. lia.
    + cbn in H. injection H as Hc H. rewrite Hc, (IH b H). reflexivity.
Qed.

Lemma index_skip (n : nat) (t a b : string) :
  index (String.length a + n) t (a ++ b) = option_map (Nat.add (String.length a)) (index n t b).
Proof.
  induction a as [| c a IH]; cbn.
  - destruct (index n t b); reflexivity.
  - rewrite IH. destruct (index n t b); reflexivity.
Qed.

Lemma index_found (t a b : string) :
  t <> EmptyString -> index 0 t (a ++ t ++ b) <> None.
Proof.
  intros Ht E.
  apply (index_correct3 0 (String.length a)) in E; [| exact Ht | lia].
  apply E. rewrite substring_skip.
  replace (String.length t) with (String.length t + 0)%nat by lia.
  rewrite substring_prefix. destruct b; cbn; apply append_nil_r.
Qed.

Lemma prefix_app (a b : string) : prefix a (a ++ b) = true.
Proof.
  induction a as [| c a IH]; cbn; [destruct b; reflexivity |].
  destruct (ascii_dec c c) as [_ | N]; [exact IH | contradiction].
Qed.

Lemma index_at_head (a b : string) :
  a <> EmptyString -> index 0 a (a ++ b) = Some 0%nat.
Proof.
  destruct a as [| c a]; [contradiction |]. intros _.
  pose proof (prefix_app (String c a) b) as H.
  cbn [String.append index] in *. rewrite H. reflexivity.
Qed.

Lemma find_last_of_app (c : ascii) (a b : string) :
  find_last_of c (a ++ b)
  = match find_last_of c b with
    | Some i => Some (String.length a + i)%nat
    | None => find_last_of c a
    end.
Proof.
  induction a as [| d a IH]; cbn.
  - destruct (find_last_of c b); reflexivity.
  - rewrite IH. destruct (find_last_of c b); reflexivity.
Qed.

(** ** Decimal digits *)

Lemma digit_head_plain (c : ascii) (d : Z) :
  digit_of c = Some d ->
  isspace c = false /\ c <> "-"%char /\ c <> "+"%char /\ 0 <= d <= 9.
Proof.
  destruct c as [[|] [|] [|] [|] [|] [|] [|] [|]]; cbn; intros H;
    try discriminate H; inversion H; subst;
    (split; [reflexivity | split; [discriminate | split; [discriminate | lia]]]).
Qed.

Lemma digits_value_run (ds t : string) :
  forall acc,
    all_digits ds = true ->
    digits_value acc true (ds ++ t) = digits_value (decimal_value_from acc ds) true t.
Proof.
  induction ds as [| c ds IH]; intros acc H; cbn in *; [reflexivity |].
  destruct (digit_of c); [apply IH; exact H | discriminate H].
Qed.

Lemma digits_value_stop (v : Z) (t : string) :
  stops_digits t -> digits_value v true t = Some v.
Proof. destruct t as [| c t]; cbn; [reflexivity | intros ->; reflexivity]. Qed.

Lemma digits_value_unseen (ds t : string) (acc : Z) :
  ds <> EmptyString -> all_digits ds = true ->
  digits_value acc false (ds ++ t) = digits_value acc true (ds ++ t).
Proof.
  destruct ds as [| c ds]; [contradiction |]. intros _ H. cbn in *.
  destruct (digit_of c); [reflexivity | discriminate H].
Qed.

Lemma decimal_value_from_app (a b : string) :
  forall acc,
    all_digits a = true ->
    decimal_value_from acc (a ++ b) = decimal_value_from (decimal_value_from acc a) b.
Proof.
  induction a as [| c a IH]; intros acc H; cbn in *; [reflexivity |].
  destruct (digit_of c); [apply IH; exact H | discriminate H].
Qed.

Lemma decimal_value_from_nonneg (ds : string) :
  forall acc, 0 <= acc -> 0 <= decimal_value_from acc ds.
Proof.
  induction ds as [| c ds IH]; intros acc H; cbn; [exact H |].
  destruct (digit_of c) as [d |] eqn:E; [| exact H].
  apply IH. destruct (digit_head_plain c d E) as (_ & _ & _ & B). lia.
Qed.

Lemma all_digits_app (a b : string) :
  all_digits a = true -> all_digits b = true -> all_digits (a ++ b) = true.
Proof.
  induction a as [| c a IH]; cbn; intros Ha Hb; [exact Hb |].
  destruct (digit_of c); [apply IH; assumption | discriminate Ha].
Qed.

Lemma all_digits_zeros (m : nat) :
  all_digits (string_of_list_ascii (repeat "0"%char m)) = true.
Proof. induction m as [| m IH]; cbn; [reflexivity | exact IH]. Qed.

Lemma decimal_value_zeros (m : nat) :
  decimal_value_from 0 (string_of_list_ascii (repeat "0"%char m)) = 0.
Proof. induction m as [| m IH]; cbn; [reflexivity | exact IH]. Qed.

Lemma length_zeros (m : nat) :
  String.length (string_of_list_ascii (repeat "0"%char m)) = m.
Proof. induction m as [| m IH]; cbn; [reflexivity | rewrite IH; reflexivity]. Qed.

Lemma all_digits_string_of_uint (d : Decimal.uint) :
  all_digits (NilEmpty.string_of_uint d) = true.
Proof. induction d; cbn; auto. Qed.

Lemma length_string_of_uint (d : Decimal.uint) :
  String.length (NilEmpty.string_of_uint d) = Decimal.nb_digits d.
Proof. induction d; cbn; auto. Qed.

Lemma decimal_value_from_uint_pos (d : Decimal.uint) :
  forall p,
    decimal_value_from (Z.pos p) (NilEmpty.string_of_uint d)
    = Z.pos (Pos.of_uint_acc d p).
Proof.
  induction d; intros p;
    cbn [NilEmpty.string_of_uint decimal_value_from Pos.of_uint_acc];
    known_digits; [reflexivity | ..];
    rewrite <- IHd; f_equal; lia.
Qed.

Lemma decimal_value_from_uint (d : Decimal.uint) :
  decimal_value_from 0 (NilEmpty.string_of_uint d) = Z.of_N (Pos.of_uint d).
Proof.
  induction d;
    cbn [NilEmpty.string_of_uint decimal_value_from Pos.of_uint Z.of_N];
    known_digits; [reflexivity | exact IHd | ..];
    rewrite <- decimal_value_from_uint_pos; reflexivity.
Qed.

Lemma decimal_value_to_uint (n : N) :
  decimal_value_from 0 (NilZero.string_of_uint (N.to_uint n)) = Z.of_N n.
Proof.
  rewrite <- (DecimalN.Unsigned.of_to n) at 2. unfold N.of_uint.
  destruct (N.to_uint n) eqn:E;
    [reflexivity | ..];
    unfold NilZero.string_of_uint; apply decimal_value_from_uint.
Qed.

Lemma all_digits_to_uint (n : N) :
  all_digits (NilZero.string_of_uint (N.to_uint n)) = true.
Proof.
  destruct (N.to_uint n) eqn:E;
    [reflexivity | ..];
    unfold NilZero.string_of_uint; apply all_digits_string_of_uint.
Qed.

Lemma all_digits_fmt_09u (idx : Z) : all_digits (fmt_09u idx) = true.
Proof.
  unfold fmt_09u. apply all_digits_app;
    [apply all_digits_zeros | apply all_digits_to_uint].
Qed.

Lemma length_fmt_09u_ge (idx : Z) : (9 <= String.length (fmt_09u idx))%nat.
Proof. unfold fmt_09u. rewrite length_app, length_zeros. lia. Qed.

Lemma decimal_value_fmt_09u (idx : Z) :
  0 <= idx -> decimal_value (fmt_09u idx) = idx.
Proof.
  intros H. unfold decimal_value, fmt_09u.
  rewrite decimal_value_from_app by apply all_digits_zeros.
  rewrite decimal_value_zeros, decimal_value_to_uint. lia.
Qed.

Lemma of_uint_acc_lower (d : Decimal.uint) :
  forall p, Z.pos p * 10 ^ Z.of_nat (Decimal.nb_digits d) <= Z.pos (Pos.of_uint_acc d p).
Proof.
  induction d; intros p; cbn [Decimal.nb_digits Pos.of_uint_acc];
    [cbn; lia | ..];
    rewrite Nat2Z.inj_succ, Z.pow_succ_r by lia;
    match goal with
    | |- _ <= Z.pos (Pos.of_uint_acc _ ?q) =>
        specialize (IHd q);
        assert (0 < 10 ^ Z.of_nat (Decimal.nb_digits d)) by (apply Z.pow_pos_nonneg; lia);
        nia
    end.
Qed.

Lemma nb_digits_to_uint (n : N) :
  (n < 2 ^ 64)%N -> (Decimal.nb_digits (N.to_uint n) <= 20)%nat.
Proof.
  intros Hn.
  pose proof (DecimalN.Unsigned.to_of (N.to_uint n)) as Hu.
  rewrite DecimalN.Unsigned.of_to in Hu.
  pose proof (DecimalN.Unsigned.of_to n) as Hv. unfold N.of_uint in Hv.
  pose proof (DecimalFacts.nb_digits_nzhead (N.to_uint n)) as Hz.
  set (d := N.to_uint n) in *.
  assert (Hbig : forall x p, N.pos (Pos.of_uint_acc x p) = n ->
                 (Decimal.nb_digits x < 20)%nat).
  { intros x p E.
    destruct (Nat.lt_ge_cases (Decimal.nb_digits x) 20) as [L | L]; [exact L |].
    exfalso. pose proof (of_uint_acc_lower x p) as B.
    assert (10 ^ 20 <= 10 ^ Z.of_nat (Decimal.nb_digits x))
      by (apply Z.pow_le_mono_r; lia).
    assert (Z.of_N n < 2 ^ 64) by (change (2 ^ 64) with (Z.of_N (2 ^ 64)); lia).
    rewrite <- E in *. cbn [Z.of_N] in *.
    assert (2 ^ 64 < 10 ^ 20) by reflexivity. nia. }
  unfold Decimal.unorm in Hu.
  destruct d as [| x | x | x | x | x | x | x | x | x | x];
    cbn [Decimal.nb_digits Pos.of_uint] in *;
    try (specialize (Hbig x _ Hv); lia); [lia |].
  (* a leading zero: the number is zero *)
  cbn [Decimal.nzhead] in Hu.
  pose proof (DecimalFacts.nb_digits_nzhead x) as Hx.
  destruct (Decimal.nzhead x) eqn:Ex; try discriminate Hu.
  - inversion Hu; subst. cbn. lia.
  - exfalso. injection Hu as Hu. subst. cbn [Decimal.nb_digits] in Hx. lia.
Qed.

Lemma length_to_uint_string (n : N) :
  (n < 2 ^ 64)%N ->
  (String.length (NilZero.string_of_uint (N.to_uint n)) <= 20)%nat.
Proof.
  intros Hn. pose proof (nb_digits_to_uint n Hn) as B.
  destruct (N.to_uint n) eqn:E; [cbn; lia | ..];
    unfold NilZero.string_of_uint; rewrite length_string_of_uint; exact B.
Qed.

Lemma length_fmt_09u_le (idx : Z) :
  0 <= idx < 2 ^ 64 -> (String.length (fmt_09u idx) <= 20)%nat.
Proof.
  intros H. unfold fmt_09u. rewrite length_app, length_zeros.
  assert (B : (String.length (NilZero.string_of_uint (N.to_uint (Z.to_N idx))) <= 20)%nat).
  { apply length_to_uint_string. change (2 ^ 64)%N with (Z.to_N (2 ^ 64)). lia. }
  lia.
Qed.

(** ** File names *)

Lemma make_frame_filename_uncut (camera_prefix : string) (idx : Z) :
  0 <= idx < 2 ^ 64 ->
  (String.length camera_prefix <= 223)%nat ->
  make_frame_filename camera_prefix idx
  = "frame_" ++ camera_prefix ++ "_" ++ fmt_09u idx ++ ".hevc".
Proof.
  intros Hi Hp.
  pose proof (length_fmt_09u_le idx Hi) as L.
  unfold make_frame_filename. apply substring_all.
  generalize dependent (fmt_09u idx). intros f L.
  rewrite !length_app. cbn [String.length]. lia.
Qed.

(** What [make_frame_filename] gives when nothing is cut off: for an index
    that fits 64 bits and a camera id of at most 223 characters the name is
    frame_, the camera id, an underscore, the index in decimal on at least
    nine digits (zero-padded, never shortened) and .hevc; reading the
    digits back gives the index.  In every case the name has at most 255
    characters. *)
Theorem make_frame_filename_whole (camera_prefix : string) (idx : Z) :
  0 <= idx < 2 ^ 64 ->
  (String.length camera_prefix <= 223)%nat ->
  make_frame_filename camera_prefix idx
  = "frame_" ++ camera_prefix ++ "_" ++ fmt_09u idx ++ ".hevc" /\
  (9 <= String.length (fmt_09u idx) <= 20)%nat /\
  all_digits (fmt_09u idx) = true /\
  decimal_value (fmt_09u idx) = idx /\
  (forall p i, (String.length (make_frame_filename p i) <= 255)%nat).
Proof.
  intros Hi Hp.
  pose proof (length_fmt_09u_le idx Hi) as L.
  pose proof (length_fmt_09u_ge idx) as G.
  split; [| split; [lia | split; [apply all_digits_fmt_09u | split]]].
  - apply make_frame_filename_uncut; assumption.
  - apply decimal_value_fmt_09u. lia.
  - intros p i. unfold make_frame_filename. apply substring_length_le.
Qed.

Lemma make_frame_filename_whole_witness :
  make_frame_filename "camera01" 42 = "frame_camera01_000000042.hevc".
Proof.
  exact (proj1 (make_frame_filename_whole "camera01" 42
                  ltac:(split; [discriminate | reflexivity])
                  ltac:(cbn; lia))).
Defined.

(** Two indices give the same file name only when they are the same index
    (for indices that fit 64 bits and a camera id short enough not to be
    cut). *)
Theorem make_frame_filename_injective (camera_prefix : string) (idx idx' : Z) :
  0 <= idx < 2 ^ 64 -> 0 <= idx' < 2 ^ 64 ->
  (String.length camera_prefix <= 223)%nat ->
  make_frame_filename camera_prefix idx = make_frame_filename camera_prefix idx' ->
  idx = idx'.
Proof.
  intros Hi Hi' Hp E.
  pose proof (make_frame_filename_uncut camera_prefix idx Hi Hp) as E1.
  pose proof (make_frame_filename_uncut camera_prefix idx' Hi' Hp) as E2.
  assert (V1 : decimal_value (fmt_09u idx) = idx)
    by (apply decimal_value_fmt_09u; lia).
  assert (V2 : decimal_value (fmt_09u idx') = idx')
    by (apply decimal_value_fmt_09u; lia).
  rewrite E1, E2 in E.
  apply append_inv_head in E. apply append_inv_head in E.
  apply append_inv_head in E. apply append_inv_tail in E.
  rewrite <- V1, <- V2, E. reflexivity.
Qed.

Lemma make_frame_filename_injective_witness : 7 = 7.
Proof.
  exact (make_frame_filename_injective "camera01" 7 7
           ltac:(split; [discriminate | reflexivity])
           ltac:(split; [discriminate | reflexivity])
           ltac:(cbn; lia)
           ltac:(reflexivity)).
Defined.

(** The key the video probe asks Redis for is the file name without its
    extension: frame_, the camera id, an underscore and the zero-padded
    count, also when the camera id itself contains dots. *)
Theorem redis_key_drops_extension (camera_prefix : string) (fc : Z) :
  0 <= fc < 2 ^ 64 ->
  (String.length camera_prefix <= 223)%nat ->
  frame_key camera_prefix fc = "frame_" ++ camera_prefix ++ "_" ++ fmt_09u fc.
Proof.
  intros Hi Hp. unfold frame_key, AvSync.redis_key.
  pose proof (make_frame_filename_uncut camera_prefix fc Hi Hp) as E.
  rewrite E.
  replace ("frame_" ++ camera_prefix ++ "_" ++ fmt_09u fc ++ ".hevc")%string
    with (("frame_" ++ camera_prefix ++ "_" ++ fmt_09u fc) ++ ".hevc")%string
    by (rewrite !append_assoc; reflexivity).
  rewrite find_last_of_app. cbn [find_last_of Ascii.eqb Bool.eqb].
  rewrite Nat.add_0_r.
  replace (String.length ("frame_" ++ camera_prefix ++ "_" ++ fmt_09u fc))
    with (String.length ("frame_" ++ camera_prefix ++ "_" ++ fmt_09u fc) + 0)%nat
    by lia.
  rewrite substring_prefix. cbn [substring]. apply append_nil_r.
Qed.

Lemma redis_key_drops_extension_witness :
  frame_key "cam.01" 42 = "frame_cam.01_000000042".
Proof.
  exact (redis_key_drops_extension "cam.01" 42
           ltac:(split; [discriminate | reflexivity])
           ltac:(cbn; lia)).
Defined.

(** ** [std::stoull] and the first index of the folder *)

Lemma stoull_digits (ds t : string) :
  ds <> EmptyString -> all_digits ds = true -> stops_digits t ->
  stoull (ds ++ t)
  = if 2 ^ 64 - 1 <? decimal_value ds then out_of_range
    else Parsed (decimal_value ds).
Proof.
  intros Hne Hd Ht.
  assert (Hv : digits_value 0 false (ds ++ t) = Some (decimal_value ds)).
  { rewrite digits_value_unseen, digits_value_run by assumption.
    apply digits_value_stop. exact Ht. }
  destruct ds as [| c ds]; [contradiction |].
  cbn [all_digits] in Hd. destruct (digit_of c) as [d |] eqn:Ec; [| discriminate Hd].
  destruct (digit_head_plain c d Ec) as (Hs & Hm & Hp & _).
  unfold stoull. cbn [String.append skip_spaces]. rewrite Hs.
  assert (Hsign :
    match String c (ds ++ t) with
    | String "-"%char r => (true, r)
    | String "+"%char r => (false, r)
    | _ => (false, String c (ds ++ t))
    end = (false, String c (ds ++ t))).
  { destruct c as [[|] [|] [|] [|] [|] [|] [|] [|]];
      try reflexivity; exfalso; auto. }
  rewrite Hsign. cbn [String.append] in Hv. rewrite Hv. reflexivity.
Qed.

Lemma is_frame_entry_skipped (e : AvSync.DirEntry) (rest : list AvSync.DirEntry) :
  is_frame_entry e = false ->
  AvSync.find_first_index_fast (e :: rest) = AvSync.find_first_index_fast rest.
Proof.
  unfold is_frame_entry. cbn [AvSync.find_first_index_fast].
  destruct (AvSync.is_regular_file e); [| reflexivity].
  destruct (index 0 "frame_camera01_" (AvSync.filename e)) as [[| n] |];
    destruct (index 0 ".hevc" (AvSync.filename e)); cbn; intros H;
    try discriminate H; reflexivity.
Qed.

Lemma find_first_index_fast_skips (before rest : list AvSync.DirEntry) :
  Forall (fun e => is_frame_entry e = false) before ->
  AvSync.find_first_index_fast (before ++ rest) = AvSync.find_first_index_fast rest.
Proof.
  induction 1 as [| e before He _ IH]; [reflexivity |].
  cbn [List.app]. rewrite is_frame_entry_skipped by exact He. exact IH.
Qed.

Lemma find_first_index_fast_head
    (rest : list AvSync.DirEntry) (ds junk : string) :
  ds <> EmptyString -> all_digits ds = true ->
  AvSync.find_first_index_fast
    (file_entry ("frame_camera01_" ++ ds ++ ".hevc" ++ junk) :: rest)
  = if 2 ^ 64 - 1 <? decimal_value ds
    then AvSync.InvalidFileName ("frame_camera01_" ++ ds ++ ".hevc" ++ junk)
    else AvSync.Found (decimal_value ds).
Proof.
  intros Hne Hd.
  set (fname := ("frame_camera01_" ++ ds ++ ".hevc" ++ junk)%string).
  cbn [AvSync.find_first_index_fast file_entry AvSync.is_regular_file AvSync.filename].
  assert (Hpre : index 0 "frame_camera01_" fname = Some 0%nat)
    by (apply index_at_head; discriminate).
  rewrite Hpre.
  destruct (index 0 ".hevc" fname) as [k |] eqn:Ek.
  2:{ exfalso. revert Ek. unfold fname.
      replace ("frame_camera01_" ++ ds ++ ".hevc" ++ junk)%string
        with (("frame_camera01_" ++ ds) ++ ".hevc" ++ junk)%string
        by (rewrite append_assoc; reflexivity).
      apply index_found. discriminate. }
  assert (Hnum :
    substring (String.length "frame_camera01_")
      (String.length fname - String.length "frame_camera01_" - 5) fname
    = (ds ++ substring 0 (String.length junk) (".hevc" ++ junk))%string).
  { unfold fname. rewrite substring_skip.
    rewrite !length_app.
    replace (String.length "frame_camera01_"
             + (String.length ds + (String.length ".hevc" + String.length junk))
             - String.length "frame_camera01_" - 5)%nat
      with (String.length ds + String.length junk)%nat by (cbn; lia).
    apply substring_prefix. }
  rewrite Hnum. rewrite stoull_digits; try assumption.
  - destruct (2 ^ 64 - 1 <? decimal_value ds); reflexivity.
  - destruct junk; cbn; [exact I | reflexivity].
Qed.

Lemma find_first_index_fast_made_name (rest : list AvSync.DirEntry) (idx : Z) :
  0 <= idx < 2 ^ 64 ->
  AvSync.find_first_index_fast
    (file_entry (make_frame_filename "camera01" idx) :: rest)
  = AvSync.Found idx.
Proof.
  intros Hi.
  rewrite (make_frame_filename_uncut "camera01" idx Hi ltac:(cbn; lia)).
  change ("frame_" ++ "camera01" ++ "_" ++ fmt_09u idx ++ ".hevc")%string
    with ("frame_camera01_" ++ fmt_09u idx ++ ".hevc" ++ "")%string.
  rewrite find_first_index_fast_head.
  - rewrite decimal_value_fmt_09u by lia.
    destruct (Z.ltb_spec (2 ^ 64 - 1) idx); [lia | reflexivity].
  - intros N. pose proof (length_fmt_09u_ge idx) as G.
    rewrite N in G. cbn in G. lia.
  - apply all_digits_fmt_09u.
Qed.



(** The file the feeder would read for index [idx] of camera01 is found
    again by [find_first_index_fast] with the same index: writing the index
    into the name and reading it back is the identity on 64-bit indices. *)
Theorem find_first_index_fast_round_trip
    (before rest : list AvSync.DirEntry) (idx : Z) :
  0 <= idx < 2 ^ 64 ->
  Forall (fun e => is_frame_entry e = false) before ->
  AvSync.find_first_index_fast
    (before ++ file_entry (make_frame_filename "camera01" idx) :: rest)
  = AvSync.Found idx.
Proof.
  intros Hi Hb.
  rewrite find_first_index_fast_skips by exact Hb.
  apply find_first_index_fast_made_name. exact Hi.
Qed.

Lemma find_first_index_fast_round_trip_witness :
  AvSync.find_first_index_fast
    ([] ++ file_entry (make_frame_filename "camera01" 2379000) :: [])
  = AvSync.Found 2379000.
Proof.
  exact (find_first_index_fast_round_trip [] [] 2379000
           ltac:(split; [discriminate | reflexivity])
           ltac:(constructor)).
Defined.

(** [find_first_index_fast] throws its no-valid-files error exactly when no
    entry of the folder is a regular file whose name starts with
    frame_camera01_ and contains .hevc. *)
Theorem find_first_index_fast_no_valid_files (entries : list AvSync.DirEntry) :
  AvSync.find_first_index_fast entries = AvSync.NoValidFiles
  <-> Forall (fun e => is_frame_entry e = false) entries.
Proof.
  induction entries as [| e entries IH].
  - split; [constructor | reflexivity].
  - destruct (is_frame_entry e) eqn:He.
    + split.
      * intros H. exfalso. revert H He. unfold is_frame_entry.
        cbn [AvSync.find_first_index_fast].
        destruct (AvSync.is_regular_file e); [| discriminate].
        destruct (index 0 "frame_camera01_" (AvSync.filename e)) as [[| n] |];
          destruct (index 0 ".hevc" (AvSync.filename e)); cbn;
          try discriminate.
        destruct (stoull _); discriminate.
      * intros H. inversion H; subst. congruence.
    + rewrite is_frame_entry_skipped by exact He. rewrite IH.
      split; [intros H; constructor; assumption | intros H; inversion H; assumption].
Qed.

(** The start index of [main]: a first argument that reads as zero (0, 00,
    ...) makes the feeder start 6000 files after the first frame file of the
    folder; any other number that fits 64 bits is taken as it is and the
    folder is not consulted. *)
Theorem start_index_auto_or_given
    (argv1 : string) (before rest entries : list AvSync.DirEntry) (idx : Z) :
  argv1 <> EmptyString -> all_digits argv1 = true ->
  decimal_value argv1 <= 2 ^ 64 - 1 ->
  0 <= idx -> idx + 6000 < 2 ^ 64 ->
  Forall (fun e => is_frame_entry e = false) before ->
  (decimal_value argv1 = 0 ->
   AvSync.start_index argv1
     (before ++ file_entry (make_frame_filename "camera01" idx) :: rest)
   = AvSync.StartAt (idx + 6000)) /\
  (decimal_value argv1 <> 0 ->
   AvSync.start_index argv1 entries = AvSync.StartAt (decimal_value argv1)).
Proof.
  intros Hne Hd Hmax Hi Hi' Hb.
  assert (Hs : stoull argv1 = Parsed (decimal_value argv1)).
  { rewrite <- (append_nil_r argv1) at 1.
    rewrite stoull_digits by (try assumption; exact I).
    destruct (Z.ltb_spec (2 ^ 64 - 1) (decimal_value argv1)); [lia | reflexivity]. }
  unfold AvSync.start_index. rewrite Hs. split.
  - intros ->. rewrite find_first_index_fast_skips by exact Hb.
    rewrite find_first_index_fast_made_name by lia.
    rewrite wrap64_small by lia. reflexivity.
  - intros Hnz. destruct (decimal_value argv1); [contradiction | reflexivity ..].
Qed.

Lemma start_index_auto_or_given_witness :
  AvSync.start_index "0"
    ([] ++ file_entry (make_frame_filename "camera01" 100) :: [])
  = AvSync.StartAt (100 + 6000)
  /\ AvSync.start_index "2379000" [] = AvSync.StartAt 2379000.
Proof.
  split.
  - exact (proj1 (start_index_auto_or_given "0" [] [] [] 100
                    ltac:(discriminate) ltac:(reflexivity)
                    ltac:(vm_compute; discriminate)
                    ltac:(discriminate) ltac:(reflexivity) ltac:(constructor))
             ltac:(reflexivity)).
  - exact (proj2 (start_index_auto_or_given "2379000" [] [] [] 100
                    ltac:(discriminate) ltac:(reflexivity)
                    ltac:(vm_compute; discriminate)
                    ltac:(discriminate) ltac:(reflexivity) ltac:(constructor))
             ltac:(vm_compute; discriminate)).
Defined.

(** ** More on the readiness probe and the keyframe test *)

Lemma is_file_ready_true_two_equal_samples_witness :
  exists i sz,
    (i < 5)%nat /\
    files (calm_env (0 + 2 * i + 1)%nat) frame0_path = Some sz /\
    files (calm_env (0 + 2 * i + 3)%nat) frame0_path = Some sz.
Proof.
  exact (@is_file_ready_true_two_equal_samples unit frame0_path calm_env
           (boot tt) (snd (is_file_ready frame0_path calm_env (boot tt)))
           ltac:(vm_compute; reflexivity)).
Defined.

Lemma is_file_ready_unstable_witness :
  exists s',
    is_file_ready frame0_path growing_env (boot tt) = (Ok false, s') /\
    globals s' = tt.
Proof.
  exact (@is_file_ready_unstable unit frame0_path growing_env
           (fun i => Z.of_nat (2 * i + 1)) (boot tt)
           ltac:(intros i Hi; split; [discriminate | reflexivity])
           ltac:(intros i Hi; cbv beta; lia)).
Defined.

(** A file that is there with the same size at the first two samples is
    reported ready after one delay of 2 ms and four calls into the file
    system. *)
Theorem is_file_ready_stable {G} (p : string) (env : Env) (s : Sys G) (sz : Z) :
  files (env (tick s)) p <> None ->
  files (env (S (tick s))) p = Some sz ->
  files (env (S (S (tick s)))) p <> None ->
  files (env (S (S (S (tick s))))) p = Some sz ->
  is_file_ready p env s
  = (Ok true,
     {| globals := globals s; tick := S (S (S (S (tick s))));
        out := (out s ++ [SleepFor 2])%list |}).
Proof.
  intros E0 E1 E2 E3.
  unfold is_file_ready, is_file_ready_with, fs_exists, fs_file_size, bind,
    observe, ret.
  cbn [tick globals out].
  destruct (files (env (tick s)) p); [| contradiction].
  cbn [negb tick globals out]. rewrite E1.
  change (Z.to_nat 5) with 5%nat. cbn [is_file_ready_loop].
  unfold fs_exists, fs_file_size, bind, observe, ret, sleep_for, emit.
  cbn [tick globals out].
  destruct (files (env (S (S (tick s)))) p); [| contradiction].
  cbn [negb tick globals out]. rewrite E3, Z.eqb_refl. reflexivity.
Qed.

Lemma is_file_ready_stable_witness :
  is_file_ready frame0_path calm_env (boot tt)
  = (Ok true, {| globals := tt; tick := 4; out := [SleepFor 2] |}).
Proof.
  exact (@is_file_ready_stable unit frame0_path calm_env (boot tt) 40960
           ltac:(discriminate) ltac:(reflexivity)
           ltac:(discriminate) ltac:(reflexivity)).
Defined.

Lemma is_file_ready_loop_bounded {G} (p : string) (d : Z) (env : Env) (n : nat) :
  forall (last : Z) (s s' : Sys G) r,
    is_file_ready_loop p d n last env s = (r, s') ->
    exists k,
      (k <= n)%nat /\
      out s' = (out s ++ repeat (SleepFor d) k)%list /\
      (tick s <= tick s' <= tick s + 2 * k)%nat.
Proof.
  induction n as [| n IH]; intros last s s' r H; cbn in H.
  - inversion H; subst. exists 0%nat. cbn. rewrite app_nil_r. split; [lia | split; [reflexivity | lia]].
  - unfold fs_exists, fs_file_size in H. run_in H.
    destruct (files (env (tick s)) p) as [sz0 |]; run_in H.
    2:{ inversion H; subst. exists 1%nat. cbn. split; [lia | split; [reflexivity | lia]]. }
    destruct (files (env (S (tick s))) p) as [sz1 |]; run_in H.
    2:{ inversion H; subst. exists 1%nat. cbn. split; [lia | split; [reflexivity | lia]]. }
    destruct (sz1 =? last).
    + inversion H; subst. exists 1%nat. cbn. split; [lia | split; [reflexivity | lia]].
    + apply IH in H. destruct H as (k & Hk & Ho & Ht). cbn [tick out] in *.
      exists (S k). split; [lia |]. split; [| lia].
      rewrite Ho, <- app_assoc. reflexivity.
Qed.

(** Whatever the file system does, one call of [is_file_ready] sleeps at
    most five times 2 ms, makes at most twelve calls into the file system,
    writes nothing else and leaves the program's variables alone. *)
Theorem is_file_ready_bounded {G} (p : string) (env : Env) (s s' : Sys G)
    (r : Res bool) :
  is_file_ready p env s = (r, s') ->
  exists k,
    (k <= 5)%nat /\
    out s' = (out s ++ repeat (SleepFor 2) k)%list /\
    (tick s <= tick s' <= tick s + 12)%nat /\
    globals s' = globals s.
Proof.
  intros H.
  destruct (silent_is_file_ready _ _ _ _ _ H) as (Hg & _).
  unfold is_file_ready, is_file_ready_with, fs_exists, fs_file_size in H.
  run_in H.
  destruct (files (env (tick s)) p) as [sz0 |]; run_in H.
  2:{ inversion H; subst. exists 0%nat. cbn. rewrite app_nil_r.
      repeat split; lia. }
  destruct (files (env (S (tick s))) p) as [sz1 |]; run_in H.
  2:{ inversion H; subst. exists 0%nat. cbn. rewrite app_nil_r.
      repeat split; lia. }
  apply is_file_ready_loop_bounded in H.
  destruct H as (k & Hk & Ho & Ht). cbn [tick out] in *.
  change (Z.to_nat 5) with 5%nat in Hk.
  exists k. repeat split; try assumption; lia.
Qed.

Lemma is_file_ready_bounded_witness :
  exists k,
    (k <= 5)%nat /\
    out (snd (is_file_ready frame0_path growing_env (boot tt)))
    = ([] ++ repeat (SleepFor 2) k)%list /\
    (0 <= tick (snd (is_file_ready frame0_path growing_env (boot tt))) <= 0 + 12)%nat /\
    globals (snd (is_file_ready frame0_path growing_env (boot tt))) = tt.
Proof.
  exact (@is_file_ready_bounded unit frame0_path growing_env (boot tt)
           (snd (is_file_ready frame0_path growing_env (boot tt)))
           (fst (is_file_ready frame0_path growing_env (boot tt)))
           ltac:(vm_compute; reflexivity)).
Defined.

(** [is_iframe] never throws, writes nothing and leaves the variables
    alone; it answers true only for a file that was there when asked and
    whose size, read by the next call, was at least 30 KiB, and false for
    a file that is missing at either call. *)
Theorem is_iframe_never_throws {G} (p : string) (env : Env) (s : Sys G) :
  exists b s',
    AvSync.is_iframe p env s = (Ok b, s') /\
    globals s' = globals s /\ out s' = out s /\
    (b = true <->
     files (env (tick s)) p <> None /\
     exists sz, files (env (S (tick s))) p = Some sz /\ 30720 <= sz).
Proof.
  unfold AvSync.is_iframe, try_catch, fs_exists, fs_file_size, bind, observe,
    ret, throw.
  cbn [tick globals out].
  destruct (files (env (tick s)) p) as [sz0 |] eqn:E0; cbn [negb tick globals out].
  - destruct (files (env (S (tick s))) p) as [sz1 |] eqn:E1.
    + eexists _, _. split; [reflexivity |]. cbn [globals out].
      split; [reflexivity | split; [reflexivity |]].
      change AvSync.IFRAME_MIN_SIZE with 30720. rewrite Z.leb_le. split.
      * intros L. split; [discriminate | exists sz1; auto].
      * intros (_ & sz & E & L). inversion E; subst. exact L.
    + eexists _, _. split; [reflexivity |]. cbn [globals out].
      split; [reflexivity | split; [reflexivity |]]. split; [discriminate |].
      intros (_ & sz & E & _). discriminate E.
  - eexists _, _. split; [reflexivity |]. cbn [globals out].
    split; [reflexivity | split; [reflexivity |]]. split; [discriminate |].
    intros (N & _). contradiction.
Qed.

(** ** The field extraction of the video probe *)

Lemma length_label (key : string) :
  String.length (AvSync.label key) = (String.length key + 3)%nat.
Proof. unfold AvSync.label. cbn. rewrite length_app. cbn. lia. Qed.

Lemma get_skip (a b : string) (c : ascii) :
  get (String.length a) (a ++ String c b) = Some c.
Proof. induction a as [| d a IH]; cbn; [reflexivity | exact IH]. Qed.

Lemma get_at_end (a : string) : get (String.length a) a = None.
Proof. induction a as [| d a IH]; cbn; [reflexivity | exact IH]. Qed.

Lemma index_quote (v rest : string) :
  lacks dquote v = true ->
  index 0 (String dquote EmptyString) (v ++ String dquote rest)
  = Some (String.length v).
Proof.
  induction v as [| c v IH]; cbn [lacks String.append String.length]; intros H.
  - cbn. destruct rest; reflexivity.
  - apply andb_true_iff in H. destruct H as (Hc & Hv).
    cbn [index prefix].
    destruct (ascii_dec dquote c) as [E | _].
    + subst c. rewrite Ascii.eqb_refl in Hc. discriminate Hc.
    + rewrite (IH Hv). reflexivity.
Qed.

Lemma index_no_quote (v : string) :
  lacks dquote v = true -> index 0 (String dquote EmptyString) v = None.
Proof.
  induction v as [| c v IH]; cbn [lacks]; intros H; [reflexivity |].
  apply andb_true_iff in H. destruct H as (Hc & Hv).
  cbn [index prefix].
  destruct (ascii_dec dquote c) as [E | _].
  - subst c. rewrite Ascii.eqb_refl in Hc. discriminate Hc.
  - rewrite (IH Hv). reflexivity.
Qed.

Lemma find_first_of_skip (cs a b : string) (n : nat) :
  find_first_of cs (String.length a + n) (a ++ b)
  = option_map (Nat.add (String.length a)) (find_first_of cs n b).
Proof.
  induction a as [| d a IH]; cbn.
  - destruct (find_first_of cs n b); reflexivity.
  - rewrite IH. destruct (find_first_of cs n b); reflexivity.
Qed.

Lemma find_first_of_plain (v rest : string) (c : ascii) :
  plain_value v = true -> mem_ascii c ",}" = true ->
  find_first_of ",}" 0 (v ++ String c rest) = Some (String.length v).
Proof.
  intros Hv Hc. induction v as [| d v IH]; cbn [plain_value String.append] in *.
  - cbn [find_first_of]. rewrite Hc. reflexivity.
  - apply andb_true_iff in Hv. destruct Hv as (Hd & Hv).
    cbn [find_first_of]. apply negb_true_iff in Hd. rewrite Hd, (IH Hv). reflexivity.
Qed.

Lemma find_first_of_none (v : string) :
  plain_value v = true -> find_first_of ",}" 0 v = None.
Proof.
  induction v as [| d v IH]; cbn [plain_value]; intros Hv; [reflexivity |].
  apply andb_true_iff in Hv. destruct Hv as (Hd & Hv).
  cbn [find_first_of]. apply negb_true_iff in Hd. rewrite Hd, (IH Hv). reflexivity.
Qed.

(** A quoted value is given back without its quotes: when the first
    occurrence of the label of [key] is followed by a double quote, the text
    [v] (free of double quotes) and a closing double quote, the lambda
    returns [v], whatever comes before the label and after the closing
    quote. *)
Theorem extract_quoted (pre key v rest : string) :
  let json := (pre ++ AvSync.label key ++ String dquote (v ++ String dquote rest))%string in
  index 0 (AvSync.label key) json = Some (String.length pre) ->
  lacks dquote v = true ->
  AvSync.extract json key = v.
Proof.
  intros json Hidx Hv. unfold AvSync.extract. rewrite Hidx.
  set (a := (pre ++ AvSync.label key)%string).
  assert (Ha : (String.length pre + String.length key + 3)%nat = String.length a)
    by (unfold a; rewrite length_app, length_label; lia).
  assert (Hj : json = (a ++ String dquote (v ++ String dquote rest))%string)
    by (unfold json, a; rewrite append_assoc; reflexivity).
  cbv zeta. rewrite Ha, Hj.
  destruct (Nat.leb_spec (String.length (a ++ String dquote (v ++ String dquote rest)))
              (String.length a)) as [L | _].
  { rewrite length_app in L. cbn in L. lia. }
  rewrite get_skip, Ascii.eqb_refl.
  set (a' := (a ++ String dquote EmptyString)%string).
  assert (Ha' : (String.length a + 1)%nat = String.length a')
    by (unfold a'; rewrite length_app; reflexivity).
  assert (Hj' : (a ++ String dquote (v ++ String dquote rest))%string
                = (a' ++ (v ++ String dquote rest))%string)
    by (unfold a'; rewrite append_assoc; reflexivity).
  rewrite Ha', Hj'.
  replace (String.length a') with (String.length a' + 0)%nat at 1 by lia.
  rewrite index_skip, (index_quote v rest Hv). cbn [option_map].
  rewrite substring_skip.
  replace (String.length a' + String.length v - String.length a - 1)%nat
    with (String.length v + 0)%nat by lia.
  rewrite substring_prefix. cbn [substring].
  destruct rest; apply append_nil_r.
Qed.

Lemma extract_quoted_witness :
  AvSync.extract
    ("{" ++ AvSync.label "ball" ++ String dquote ("3" ++ String dquote "}"))
    "ball"
  = "3".
Proof.
  exact (extract_quoted "{" "ball" "3" "}"
           ltac:(vm_compute; reflexivity) ltac:(reflexivity)).
Defined.

(** A value that does not start with a double quote is given back as it
    stands, up to the next comma or closing brace, or up to the end of the
    string when there is neither; white space is not stripped. *)
Theorem extract_unquoted (pre key v tail : string) (c : ascii) :
  let json := (pre ++ AvSync.label key ++ String c (v ++ tail))%string in
  index 0 (AvSync.label key) json = Some (String.length pre) ->
  c <> dquote ->
  plain_value (String c v) = true ->
  tail = EmptyString \/
  (exists d rest, tail = String d rest /\ mem_ascii d ",}" = true) ->
  AvSync.extract json key = String c v.
Proof.
  intros json Hidx Hc Hv Htail. unfold AvSync.extract. rewrite Hidx.
  set (a := (pre ++ AvSync.label key)%string).
  assert (Ha : (String.length pre + String.length key + 3)%nat = String.length a)
    by (unfold a; rewrite length_app, length_label; lia).
  assert (Hj : json = (a ++ String c (v ++ tail))%string)
    by (unfold json, a; rewrite append_assoc; reflexivity).
  cbv zeta. rewrite Ha, Hj.
  destruct (Nat.leb_spec (String.length (a ++ String c (v ++ tail)))
              (String.length a)) as [L | _].
  { rewrite length_app in L. cbn in L. lia. }
  rewrite get_skip.
  destruct (Ascii.eqb_spec c dquote) as [E | _]; [contradiction |].
  replace (String.length a) with (String.length a + 0)%nat at 1 by lia.
  rewrite find_first_of_skip.
  change (String c (v ++ tail)) with (String c v ++ tail)%string.
  destruct Htail as [-> | (d & rest & -> & Hd)].
  - rewrite append_nil_r, (find_first_of_none _ Hv). cbn [option_map].
    rewrite length_app.
    replace (String.length a + String.length (String c v) - String.length a)%nat
      with (String.length (String c v) + 0)%nat by lia.
    rewrite substring_skip. apply substring_all. lia.
  - rewrite (find_first_of_plain _ rest d Hv Hd). cbn [option_map].
    replace (String.length a + String.length (String c v) - String.length a)%nat
      with (String.length (String c v) + 0)%nat by lia.
    rewrite substring_skip, substring_prefix. cbn [substring]. apply append_nil_r.
Qed.

Lemma extract_unquoted_witness :
  AvSync.extract ("{" ++ AvSync.label "over" ++ String " " ("12" ++ ",x")) "over"
  = " 12".
Proof.
  exact (extract_unquoted "{" "over" "12" ",x" " "
           ltac:(vm_compute; reflexivity) ltac:(discriminate)
           ltac:(reflexivity)
           ltac:(right; exists ","%char, "x"; split; reflexivity)).
Defined.

(** A label with nothing after it, and a quoted value whose closing quote
    is missing, both give NA. *)
Theorem extract_cut_short (pre key v : string) :
  (index 0 (AvSync.label key) (pre ++ AvSync.label key)
   = Some (String.length pre) ->
   AvSync.extract (pre ++ AvSync.label key) key = "NA") /\
  (index 0 (AvSync.label key) (pre ++ AvSync.label key ++ String dquote v)
   = Some (String.length pre) ->
   lacks dquote v = true ->
   AvSync.extract (pre ++ AvSync.label key ++ String dquote v) key = "NA").
Proof.
  split.
  - intros Hidx. unfold AvSync.extract. rewrite Hidx. cbv zeta.
    rewrite length_app, length_label.
    destruct (Nat.leb_spec (String.length pre + (String.length key + 3))
                (String.length pre + String.length key + 3)) as [_ | L];
      [reflexivity | lia].
  - intros Hidx Hv. unfold AvSync.extract. rewrite Hidx.
    set (a := (pre ++ AvSync.label key)%string).
    assert (Ha : (String.length pre + String.length key + 3)%nat = String.length a)
      by (unfold a; rewrite length_app, length_label; lia).
    assert (Hj : (pre ++ AvSync.label key ++ String dquote v)%string
                 = (a ++ String dquote v)%string)
      by (unfold a; rewrite append_assoc; reflexivity).
    cbv zeta. rewrite Ha, Hj.
    destruct (Nat.leb_spec (String.length (a ++ String dquote v))
                (String.length a)) as [L | _]; [reflexivity |].
    rewrite get_skip, Ascii.eqb_refl.
    set (a' := (a ++ String dquote EmptyString)%string).
    assert (Ha' : (String.length a + 1)%nat = String.length a')
      by (unfold a'; rewrite length_app; reflexivity).
    assert (Hj' : (a ++ String dquote v)%string = (a' ++ v)%string)
      by (unfold a'; rewrite append_assoc; reflexivity).
    rewrite Ha', Hj'.
    replace (String.length a') with (String.length a' + 0)%nat at 1 by lia.
    rewrite index_skip, (index_no_quote v Hv). reflexivity.
Qed.

Lemma extract_cut_short_witness :
  AvSync.extract ("{" ++ AvSync.label "ball") "ball" = "NA" /\
  AvSync.extract ("{" ++ AvSync.label "ball" ++ String dquote "3}") "ball" = "NA".
Proof.
  split.
  - exact (proj1 (extract_cut_short "{" "ball" "3}")
             ltac:(vm_compute; reflexivity)).
  - exact (proj2 (extract_cut_short "{" "ball" "3}")
             ltac:(vm_compute; reflexivity) ltac:(reflexivity)).
Defined.

(** ** The probes over a stream *)

Lemma main_rows_app (a b : list AvSync.Row) :
  AvSync.main_rows (a ++ b) = (AvSync.main_rows a ++ AvSync.main_rows b)%list.
Proof. unfold AvSync.main_rows. apply filter_app. Qed.

Lemma summary_rows_app (a b : list AvSync.Row) :
  AvSync.summary_rows (a ++ b)
  = (AvSync.summary_rows a ++ AvSync.summary_rows b)%list.
Proof. unfold AvSync.summary_rows. apply filter_app. Qed.

Lemma probe_rows_of_frame prefix fc b pdata prev :
  AvSync.csv_open pdata = true ->
  let o := AvSync.video_probe prefix fc (buffer_info b) pdata prev in
  AvSync.main_rows (AvSync.rows o) = [frame_main_row prefix (fc, b, pdata)] /\
  (List.length (AvSync.summary_rows (AvSync.rows o)) <= 1)%nat /\
  prev_triple (AvSync.statics o) = triple (frame_metadata prefix fc pdata).
Proof.
  intros Hopen. cbv zeta.
  rewrite (probe_on_buffer prefix fc (buffer_info b) b pdata prev)
    by (split; [discriminate | reflexivity]).
  cbv zeta. cbn [AvSync.rows AvSync.statics frame_main_row]. rewrite Hopen.
  split; [| split; [| reflexivity]];
    destruct (negb (Gst.pts b =? Gst.GST_CLOCK_TIME_NONE));
    try destruct (AvSync.csv_summary_open pdata && AvSync.changed _ prev);
    cbn; try reflexivity; lia.
Qed.

(** Over any stream of buffers, with the main CSV open, the video probe
    writes exactly one main row per buffer, in order, each with the frame's
    own count, file name and fields (the PTS column is NA for a buffer
    without PTS), and at most one summary row per buffer. *)
Theorem video_probe_calls_log_every_frame
    (prefix : string)
    (frames : list (Z * Gst.GstBuffer * option AvSync.ProbeData))
    (prev : AvSync.Prev) :
  Forall (fun f => AvSync.csv_open (snd f) = true) frames ->
  let run := video_probe_calls prefix (frame_calls frames) prev in
  AvSync.main_rows (fst run) = map (frame_main_row prefix) frames /\
  (List.length (AvSync.summary_rows (fst run)) <= List.length frames)%nat.
Proof.
  intros Hopen. revert prev.
  induction Hopen as [| [[fc b] pdata] frames Hf _ IH]; intros prev.
  - cbn. split; [reflexivity | lia].
  - cbn [frame_calls map video_probe_calls]. fold (frame_calls frames).
    cbn [snd] in Hf.
    destruct (probe_rows_of_frame prefix fc b pdata prev Hf) as (M & S1 & _).
    cbv zeta in M, S1.
    set (o := AvSync.video_probe prefix fc (buffer_info b) pdata prev) in *.
    specialize (IH (AvSync.statics o)). cbv zeta in IH.
    destruct (video_probe_calls prefix (frame_calls frames) (AvSync.statics o))
      as [rs final] eqn:E.
    cbn [fst snd] in *. destruct IH as (IM & IS).
    rewrite main_rows_app, summary_rows_app, List.length_app, M, IM.
    split; [reflexivity | cbn [List.length]; lia].
Qed.

Lemma video_probe_calls_log_every_frame_witness :
  AvSync.main_rows
    (fst (video_probe_calls "camera01"
            (frame_calls [(0, one_second_buffer, pdata_unreachable);
                          (1, Gst.gst_buffer_new_allocate [], pdata_unreachable)])
            AvSync.initial_prev))
  = [AvSync.MainRow 0 (Some 90000) "frame_camera01_000000000.hevc"
       "1" "NA" "1" "false" "123" "1" "NA" "NA";
     AvSync.MainRow 1 None "frame_camera01_000000001.hevc"
       "1" "NA" "1" "false" "123" "1" "NA" "NA"].
Proof.
  exact (proj1 (video_probe_calls_log_every_frame "camera01"
                  [(0, one_second_buffer, pdata_unreachable);
                   (1, Gst.gst_buffer_new_allocate [], pdata_unreachable)]
                  AvSync.initial_prev
                  ltac:(repeat constructor))).
Defined.

(** The audio CSV is numbered without gaps: over any stream of probe calls
    the rows written carry the indices c, c + 1, c + 2, ... from the value
    c of [audio_frame_counter] at the start, one row for each buffer that
    has a PTS and none for the others, and the counter ends at c plus
    the number of rows. *)
Theorem audio_probe_calls_consecutive (infos : list AvSync.GstPadProbeInfo) :
  forall (c : Z) (rows : list AvSync.AudioRow) (c' : Z),
    0 <= c -> c + Z.of_nat (List.length infos) < 2 ^ 64 ->
    audio_probe_calls infos c = Some (rows, c') ->
    map audio_row_index rows
    = map (fun i => c + Z.of_nat i) (seq 0 (List.length rows)) /\
    c' = c + Z.of_nat (List.length rows) /\
    List.length rows = stamped_buffer_calls infos.
Proof.
  induction infos as [| info infos IH]; intros c rows c' Hc Hb H.
  - cbn in H. inversion H; subst. cbn. repeat split; lia.
  - cbn [audio_probe_calls] in H. cbn [List.length] in Hb.
    unfold AvSync.audio_probe in H.
    unfold stamped_buffer_calls in *. cbn [filter].
    destruct (negb (Z.land (AvSync.type info) AvSync.GST_PAD_PROBE_TYPE_BUFFER =? 0)).
    + destruct (AvSync.data info) as [b |]; [| discriminate H].
      destruct (negb (Gst.pts b =? Gst.GST_CLOCK_TIME_NONE)).
      * destruct (audio_probe_calls infos (wrap64 (c + 1))) as [[rs final] |] eqn:E;
          [| discriminate H].
        rewrite wrap64_small in E by lia.
        destruct (IH (c + 1) rs final ltac:(lia) ltac:(lia) E) as (I1 & I2 & I3).
        inversion H; subst.
        cbn [andb List.app List.length map seq audio_row_index].
        rewrite <- seq_shift, map_map, I1.
        split; [| split; [lia | lia]].
        f_equal; [lia |]. apply map_ext. intros i. lia.
      * destruct (audio_probe_calls infos c) as [[rs final] |] eqn:E;
          [| discriminate H].
        destruct (IH c rs final ltac:(lia) ltac:(lia) E) as (I1 & I2 & I3).
        inversion H; subst. cbn [andb List.app]. auto.
    + destruct (audio_probe_calls infos c) as [[rs final] |] eqn:E;
        [| discriminate H].
      destruct (IH c rs final ltac:(lia) ltac:(lia) E) as (I1 & I2 & I3).
      inversion H; subst. cbn [andb List.app]. auto.
Qed.

Lemma audio_probe_calls_consecutive_witness :
  map audio_row_index
    [AvSync.mkAudioRow 5 90000; AvSync.mkAudioRow 6 90000]
  = map (fun i => 5 + Z.of_nat i) (seq 0 2) /\
  7 = 5 + Z.of_nat 2 /\
  2%nat = stamped_buffer_calls
            [buffer_info one_second_buffer;
             buffer_info (Gst.gst_buffer_new_allocate []);
             buffer_info one_second_buffer].
Proof.
  exact (audio_probe_calls_consecutive
           [buffer_info one_second_buffer;
            buffer_info (Gst.gst_buffer_new_allocate []);
            buffer_info one_second_buffer]
           5 [AvSync.mkAudioRow 5 90000; AvSync.mkAudioRow 6 90000] 7
           ltac:(discriminate) ltac:(reflexivity)
           ltac:(vm_compute; reflexivity)).
Defined.

(** ** More on the stamps *)

(** With a frame rate of at most 1e9 frames per second the PTS that
    [src/main.cpp] stamps grows strictly from each frame to the next (while
    it fits 64 bits); with a frame rate above 1e9 the duration is 0 and
    frames 0 and 1 both carry PTS 0. *)
Theorem stamp_pts_strictly_increasing (cfg : Main.Config) (n : Z)
    (b b' : Gst.GstBuffer) :
  0 < Main.TARGET_FPS cfg -> 0 <= n ->
  (n + 1) * Gst.GST_SECOND / Main.TARGET_FPS cfg <= Gst.G_MAXUINT64 ->
  (Main.TARGET_FPS cfg <= Gst.GST_SECOND ->
   Gst.pts (Main.stamp cfg n b) < Gst.pts (Main.stamp cfg (n + 1) b')) /\
  (Gst.GST_SECOND < Main.TARGET_FPS cfg ->
   Gst.pts (Main.stamp cfg 0 b) = 0 /\ Gst.pts (Main.stamp cfg 1 b') = 0 /\
   Gst.duration (Main.stamp cfg 0 b) = 0).
Proof.
  intros Hf Hn Hfit. cbn [Main.stamp Gst.pts Gst.duration].
  assert (Hmono : n * Gst.GST_SECOND / Main.TARGET_FPS cfg
                  <= (n + 1) * Gst.GST_SECOND / Main.TARGET_FPS cfg).
  { apply Z.div_le_mono; [assumption |]. unfold Gst.GST_SECOND. lia. }
  split.
  - intros Hle. rewrite !scale_in_range by (assumption || lia).
    assert (1 <= Gst.GST_SECOND / Main.TARGET_FPS cfg).
    { apply Z.div_le_lower_bound; lia. }
    destruct (div_step n Gst.GST_SECOND (Main.TARGET_FPS cfg) Hf
                ltac:(unfold Gst.GST_SECOND; lia)); lia.
  - intros Hgt.
    assert (Hz : Gst.GST_SECOND / Main.TARGET_FPS cfg = 0)
      by (apply Z.div_small; unfold Gst.GST_SECOND in *; lia).
    assert (H0 : 0 * Gst.GST_SECOND / Main.TARGET_FPS cfg = 0) by reflexivity.
    assert (H1 : 1 * Gst.GST_SECOND / Main.TARGET_FPS cfg = 0)
      by (rewrite Z.mul_1_l; exact Hz).
    rewrite (scale_in_range 0), (scale_in_range 1);
      rewrite ?H0, ?H1; try assumption; unfold Gst.G_MAXUINT64; lia.
Qed.

Lemma stamp_pts_strictly_increasing_witness :
  Gst.pts (Main.stamp (main_cfg 300) 2 one_second_buffer)
  < Gst.pts (Main.stamp (main_cfg 300) (2 + 1) one_second_buffer).
Proof.
  exact (proj1 (stamp_pts_strictly_increasing (main_cfg 300) 2
                  one_second_buffer one_second_buffer
                  ltac:(reflexivity) ltac:(discriminate)
                  ltac:(vm_compute; discriminate))
           ltac:(vm_compute; discriminate)).
Defined.

(** The conversion of both probes to the 90 kHz clock never saturates on a
    valid PTS: it is the PTS times 9 over 100000, rounded down, it is at
    most the PTS, and it keeps the order of the stamps. *)
Theorem pts_90k_conversion (p q : Z) :
  0 <= p <= q -> q < Gst.GST_CLOCK_TIME_NONE ->
  Gst.gst_util_uint64_scale q 90000 Gst.GST_SECOND = q * 9 / 100000 /\
  Gst.gst_util_uint64_scale q 90000 Gst.GST_SECOND <= q /\
  Gst.gst_util_uint64_scale p 90000 Gst.GST_SECOND
    <= Gst.gst_util_uint64_scale q 90000 Gst.GST_SECOND.
Proof.
  intros Hp Hq. unfold Gst.GST_CLOCK_TIME_NONE, Gst.G_MAXUINT64 in Hq.
  assert (E : forall x, 0 <= x -> x * 90000 / Gst.GST_SECOND = x * 9 / 100000).
  { intros x Hx. unfold Gst.GST_SECOND.
    replace (x * 90000) with ((x * 9) * 10000) by lia.
    replace 1000000000 with (100000 * 10000) by lia.
    apply Z.div_mul_cancel_r; lia. }
  assert (B : forall x, 0 <= x -> x * 9 / 100000 <= x).
  { intros x Hx. apply Z.div_le_upper_bound; lia. }
  assert (Gs : 0 < Gst.GST_SECOND) by reflexivity.
  pose proof (B p ltac:(lia)) as Bp. pose proof (B q ltac:(lia)) as Bq.
  rewrite (scale_in_range p), (scale_in_range q);
    rewrite ?E by lia; try exact Gs; try (unfold Gst.G_MAXUINT64; lia).
  split; [reflexivity | split; [exact Bq |]].
  apply Z.div_le_mono; lia.
Qed.

Lemma pts_90k_conversion_witness :
  Gst.gst_util_uint64_scale 3333333 90000 Gst.GST_SECOND = 3333333 * 9 / 100000.
Proof.
  exact (proj1 (pts_90k_conversion 0 3333333
                  ltac:(split; discriminate) ltac:(reflexivity))).
Defined.

(** ** The CSV of [src/main.cpp] *)

Lemma main_pace_counters cfg env s r s' :
  Main.pace cfg env s = (r, s') ->
  r = Ok tt /\
  main_counters (globals s') = main_counters (globals s) /\
  csv_lines (out s') = csv_lines (out s).
Proof.
  unfold Main.pace. intros H. run_in H.
  destruct (steady_now (env (tick s)) <? Main.next_frame_time (globals s));
    run_in H; inversion H; subst; cbn [globals out];
    rewrite ?csv_lines_app; cbn; rewrite ?app_nil_r; auto.
Qed.

Lemma main_log_stats_counters cfg env s r s' :
  Main.log_stats cfg env s = (r, s') ->
  r = Ok tt /\
  main_counters (globals s') = main_counters (globals s) /\
  csv_lines (out s') = csv_lines (out s).
Proof.
  unfold Main.log_stats. intros H. run_in H.
  destruct (Main.last_log (globals s)); run_in H;
    cbn [Main.set_last_log Main.frame_counter Main.last_log] in H;
    destruct (Main.frame_counter (globals s) mod Main.TARGET_FPS cfg =? 0);
    run_in H; inversion H; subst; cbn [globals out];
    rewrite ?csv_lines_app; cbn; rewrite ?app_nil_r; auto.
Qed.

(** One pass either writes no CSV row and leaves the four counters alone,
    or ends in [continue] with one row written from the counters as they
    were and the counters moved on. *)
Lemma main_iteration_csv cfg env s r s' :
  Main.csv_is_open cfg = true ->
  Main.feed_iteration cfg env s = (r, s') ->
  (csv_lines (out s') = csv_lines (out s) /\
   main_counters (globals s') = main_counters (globals s))
  \/
  (csv_lines (out s')
   = (csv_lines (out s)
      ++ [CsvLine (Main.frame_counter (globals s)) (Main.custom_pts (globals s))
            (make_frame_filename (Main.camera_prefix cfg)
               (Main.current_index (globals s)))])%list /\
   main_counters (globals s') = main_counters (Main.advance (globals s))).
Proof.
  intros Hopen. unfold Main.feed_iteration. intros H.
  unfold bind at 1 in H.
  destruct (Main.pace cfg env s) as [r0 s0] eqn:Hp.
  destruct (main_pace_counters _ _ _ _ _ Hp) as (-> & K0 & C0).
  unfold bind at 1 in H. unfold get_globals at 1 in H.
  unfold bind at 1 in H.
  match type of H with
  | context [is_file_ready ?p env s0] =>
      destruct (is_file_ready p env s0) as [[ready | e] s1] eqn:Hr
  end;
    destruct (silent_is_file_ready _ _ _ _ _ Hr) as (G1 & _ & C1).
  2:{ inversion H; subst. left. rewrite G1, C1, C0, K0. auto. }
  destruct ready; cbn [negb] in H.
  2:{ run_in H. inversion H; subst. cbn [globals out].
      rewrite !csv_lines_app. cbn. rewrite !app_nil_r.
      left. rewrite G1, C1, C0, K0. auto. }
  run_in H.
  destruct (ifstream_read (env (tick s1)) _) as [| | bytes]; run_in H.
  1,2: inversion H; subst; cbn [globals out]; rewrite !csv_lines_app; cbn;
       rewrite !app_nil_r; left; rewrite G1, C1, C0, K0; auto.
  destruct (buffer_map_ok (env (S (tick s1)))); run_in H.
  2:{ inversion H; subst; cbn [globals out]; rewrite !csv_lines_app; cbn;
      rewrite !app_nil_r; left; rewrite G1, C1, C0, K0; auto. }
  destruct (push_result (env (S (S (tick s1)))) =? Gst.GST_FLOW_OK); run_in H.
  2:{ inversion H; subst; cbn [globals out]. rewrite !csv_lines_app; cbn.
      rewrite !app_nil_r. left. rewrite G1, C1, C0, K0. auto. }
  rewrite Hopen in H. run_in H.
  match type of H with
  | context [Main.log_stats cfg env ?st] =>
      destruct (Main.log_stats cfg env st) as [r2 s2] eqn:Hl
  end.
  destruct (main_log_stats_counters _ _ _ _ _ Hl) as (-> & K2 & C2).
  cbn [globals out] in K2, C2. rewrite !csv_lines_app in C2. cbn in C2.
  rewrite !app_nil_r in C2.
  inversion H; subst. right. rewrite C2, K2, C1, C0.
  unfold main_counters in K0. injection K0 as F0 I0 P0 N0.
  unfold main_counters, Main.advance. cbn. rewrite F0, I0, P0, N0. auto.
Qed.

Lemma wrap64_add_l (a b : Z) : wrap64 (wrap64 a + b) = wrap64 (a + b).
Proof. unfold wrap64. apply Zplus_mod_idemp_l. Qed.

Lemma main_csv_invariant_step cfg start env s r s' :
  Main.csv_is_open cfg = true ->
  main_csv_invariant cfg start s ->
  Main.feed_iteration cfg env s = (r, s') ->
  main_csv_invariant cfg start s'.
Proof.
  intros Hopen (q & k & Hk & Hlen & Hcnt & Hrows) H.
  destruct (main_iteration_csv _ _ _ _ _ Hopen H) as [(C & K) | (C & K)].
  - exists q, k. rewrite C, K. auto.
  - unfold main_counters in Hcnt. injection Hcnt as F I P N.
    assert (Hnew :
      main_counters (Main.advance (globals s))
      = (wrap64 (Z.of_nat (3 * q + k) + 1),
         wrap64 (start + Z.of_nat (3 * q + k) + 1),
         wrap64 (custom_pts_at q k + nth k Main.increments 0),
         ((k + 1) mod 3)%nat)).
    { unfold main_counters, Main.advance. cbn [Main.frame_counter
        Main.current_index Main.custom_pts Main.increment_index].
      rewrite F, I, P, N, !wrap64_add_l. reflexivity. }
    assert (Hrows' :
      forall (q' r' : nat) (line : Event),
        (r' < 3)%nat ->
        nth_error (csv_lines (out s')) (3 * q' + r') = Some line ->
        line = CsvLine (wrap64 (Z.of_nat (3 * q' + r')))
                 (wrap64 (custom_pts_at q' r'))
                 (make_frame_filename (Main.camera_prefix cfg)
                    (wrap64 (start + Z.of_nat (3 * q' + r'))))).
    { intros q' r' line Hr' Hn. rewrite C in Hn.
      destruct (Nat.lt_ge_cases (3 * q' + r') (List.length (csv_lines (out s))))
        as [L | L].
      - rewrite nth_error_app1 in Hn by exact L. apply Hrows; assumption.
      - rewrite nth_error_app2 in Hn by exact L.
        destruct (3 * q' + r' - List.length (csv_lines (out s)))%nat
          as [| j] eqn:E; [| destruct j; discriminate Hn].
        cbn in Hn. inversion Hn; subst line.
        assert (q' = q /\ r' = k) as (-> & ->) by lia.
        rewrite F, I, P. reflexivity. }
    assert (Hlen' : List.length (csv_lines (out s')) = S (3 * q + k))
      by (rewrite C, List.length_app, Hlen; cbn [List.length]; lia).
    destruct k as [| [| [| k]]]; [| | | lia].
    + exists q, 1%nat.
      split; [lia | split; [lia | split; [| exact Hrows']]].
      rewrite K, Hnew. unfold custom_pts_at, Main.increments. cbn [nth].
      repeat (apply (f_equal2 pair)); try reflexivity; f_equal; lia.
    + exists q, 2%nat.
      split; [lia | split; [lia | split; [| exact Hrows']]].
      rewrite K, Hnew. unfold custom_pts_at, Main.increments. cbn [nth].
      repeat (apply (f_equal2 pair)); try reflexivity; f_equal; lia.
    + exists (S q), 0%nat.
      split; [lia | split; [lia | split; [| exact Hrows']]].
      rewrite K, Hnew. unfold custom_pts_at, Main.increments. cbn [nth].
      repeat (apply (f_equal2 pair)); try reflexivity; f_equal; lia.
Qed.

Lemma main_csv_invariant_loop cfg start env fuel :
  Main.csv_is_open cfg = true ->
  forall s r s',
    main_csv_invariant cfg start s ->
    Main.feed_loop cfg fuel env s = (r, s') ->
    main_csv_invariant cfg start s'.
Proof.
  intros Hopen. induction fuel as [| fuel IH]; intros s r s' Hinv H.
  - cbn in H. inversion H; subst. exact Hinv.
  - cbn [Main.feed_loop] in H. unfold bind at 1 in H.
    destruct (Main.feed_iteration cfg env s) as [rc s1] eqn:Hi.
    pose proof (main_csv_invariant_step _ _ _ _ _ _ Hopen Hinv Hi) as Hinv1.
    destruct rc as [[|] | e].
    + exact (IH s1 r s' Hinv1 H).
    + inversion H; subst. exact Hinv1.
    + inversion H; subst. exact Hinv1.
Qed.

(** In every run of the feeder of [src/main.cpp] with its CSV open, row
    number [3 * q + r] of the CSV ([r] = 0, 1 or 2) holds that number as the
    frame index, the custom PTS 324000000 + 900 q + (0, 299 or 599) and the
    name of the file of index [start] plus that number: the custom PTS
    steps by 299, 300, 301 in turn, whatever the frame rate, and one row is
    written per accepted buffer ([frame_counter] ends at the number of
    rows). *)
Theorem main_csv_rows
    (cfg : Main.Config) (env : Env) (fuel : nat) (start : Z)
    (r : Res bool) (s' : Sys Main.Globals) (q k : nat) (line : Event) :
  Main.csv_is_open cfg = true ->
  0 <= start ->
  Main.feed_frames cfg fuel env (boot (Main.initial_globals start)) = (r, s') ->
  (k < 3)%nat ->
  nth_error (csv_lines (out s')) (3 * q + k) = Some line ->
  start + Z.of_nat (3 * q + k) < 2 ^ 64 ->
  custom_pts_at q k < 2 ^ 64 ->
  line = CsvLine (Z.of_nat (3 * q + k)) (custom_pts_at q k)
           (make_frame_filename (Main.camera_prefix cfg)
              (start + Z.of_nat (3 * q + k))) /\
  Main.frame_counter (globals s')
  = wrap64 (Z.of_nat (List.length (csv_lines (out s')))).
Proof.
  intros Hopen Hstart Hrun Hk Hn Hidx Hpts.
  unfold Main.feed_frames in Hrun. run_in Hrun.
  assert (Hinit : main_csv_invariant cfg start
            {| globals := Main.set_next_frame_time (steady_now (env 0%nat))
                            (Main.initial_globals start);
               tick := 1; out := [] |}).
  { exists 0%nat, 0%nat. cbn [csv_lines filter List.length].
    split; [lia | split; [reflexivity | split]].
    - unfold main_counters. cbn. rewrite Z.add_0_r, wrap64_small by lia.
      reflexivity.
    - intros q' r' l _ Hl. destruct (3 * q' + r')%nat; discriminate Hl. }
  pose proof (main_csv_invariant_loop cfg start env fuel Hopen _ _ _ Hinit Hrun)
    as (q0 & k0 & Hk0 & Hlen & Hcnt & Hrows).
  split.
  - rewrite (Hrows q k line Hk Hn).
    assert (0 <= custom_pts_at q k).
    { unfold custom_pts_at. destruct k as [| [| [| k]]]; cbn [nth]; lia. }
    rewrite !wrap64_small by lia. reflexivity.
  - unfold main_counters in Hcnt. injection Hcnt as F _ _ _.
    rewrite F, Hlen. reflexivity.
Qed.

Lemma main_csv_rows_witness :
  CsvLine 4 324001199 "frame_camera01_000000004.hevc"
  = CsvLine (Z.of_nat (3 * 1 + 1)) (custom_pts_at 1 1)
      (make_frame_filename (Main.camera_prefix (main_cfg 300))
         (0 + Z.of_nat (3 * 1 + 1))) /\
  Main.frame_counter (globals (snd (calm_main_run 300 6)))
  = wrap64 (Z.of_nat (List.length (csv_lines (out (snd (calm_main_run 300 6)))))).
Proof.
  exact (main_csv_rows (main_cfg 300) calm_env 6 0
           (fst (calm_main_run 300 6)) (snd (calm_main_run 300 6))
           1 1 (CsvLine 4 324001199 "frame_camera01_000000004.hevc")
           ltac:(reflexivity) ltac:(discriminate)
           ltac:(vm_compute; reflexivity)
           ltac:(lia)
           ltac:(vm_compute; reflexivity)
           ltac:(reflexivity) ltac:(reflexivity)).
Defined.

(** ** The buffers of the feeder of part_000 *)

Lemma avsync_iteration_pushes cfg env s r s' :
  AvSync.feed_iteration cfg env s = (r, s') ->
  pushed (out s') = pushed (out s)
  \/
  exists data,
    pushed (out s')
    = (pushed (out s)
       ++ [AvSync.set_offset (AvSync.current_index (globals s))
             (Gst.gst_buffer_new_allocate data)])%list.
Proof.
  unfold AvSync.feed_iteration. intros H.
  unfold bind at 1 in H.
  destruct (AvSync.pace cfg env s) as [r0 s0] eqn:Hp.
  destruct (silent_avsync_pace _ _ _ _ _ Hp) as (G0 & P0 & _).
  pose proof (avsync_pace_returns cfg env s) as R0. rewrite Hp in R0.
  cbn in R0. subst r0.
  unfold bind at 1 in H. unfold get_globals at 1 in H.
  unfold bind at 1 in H.
  match type of H with
  | context [is_file_ready ?p env s0] =>
      destruct (is_file_ready p env s0) as [[ready | e] s1] eqn:Hr
  end;
    destruct (silent_is_file_ready _ _ _ _ _ Hr) as (G1 & P1 & _).
  2:{ inversion H; subst. left. congruence. }
  destruct ready; cbn [negb] in H.
  2:{ run_in H. inversion H; subst. cbn [out].
      rewrite !pushed_app. cbn. rewrite !app_nil_r. left. congruence. }
  unfold bind at 1 in H.
  match type of H with
  | context [AvSync.is_iframe ?p env s1] =>
      destruct (AvSync.is_iframe p env s1) as [[iframe | e] s2] eqn:Hf
  end;
    destruct (silent_is_iframe _ _ _ _ _ Hf) as (G2 & P2 & _).
  2:{ inversion H; subst. left. congruence. }
  destruct iframe; cbn [negb] in H.
  2:{ unfold bind at 1 in H.
      match type of H with
      | context [AvSync.log_skip ?p ?f env s2] =>
          destruct (AvSync.log_skip p f env s2) as [[[] | e] s3] eqn:Hs
      end;
        destruct (silent_log_skip _ _ _ _ _ _ Hs) as (G3 & P3 & _).
      - run_in H. inversion H; subst. cbn [out]. left. congruence.
      - inversion H; subst. left. congruence. }
  run_in H.
  destruct (ifstream_read (env (tick s2)) _) as [| | bytes]; run_in H.
  1,2: inversion H; subst; cbn [out]; rewrite !pushed_app; cbn;
       rewrite !app_nil_r; left; congruence.
  destruct (buffer_map_ok (env (S (tick s2)))); run_in H.
  2:{ inversion H; subst; cbn [out]; rewrite !pushed_app; cbn;
      rewrite !app_nil_r; left; congruence. }
  destruct (push_result (env (S (S (tick s2)))) =? Gst.GST_FLOW_OK); run_in H.
  2:{ inversion H; subst; cbn [out]. rewrite !pushed_app; cbn.
      rewrite !app_nil_r. right. exists bytes. rewrite P2, P1, P0, G0. reflexivity. }
  match type of H with
  | context [AvSync.log_stats cfg env ?st] =>
      destruct (AvSync.log_stats cfg env st) as [r3 s3] eqn:Hl
  end.
  destruct (avsync_log_stats_effect _ _ _ _ _ Hl) as (-> & _ & _ & _ & P3 & _).
  cbn [out] in P3. rewrite !pushed_app in P3. cbn in P3. rewrite !app_nil_r in P3.
  inversion H; subst. right. exists bytes. rewrite P3, P2, P1, P0, G0. reflexivity.
Qed.

Lemma sorted_snoc (l : list Z) (x : Z) :
  Sorted.StronglySorted Z.lt l -> Forall (fun y => y < x) l ->
  Sorted.StronglySorted Z.lt (l ++ [x]).
Proof.
  induction 1 as [| y l Hs IH Hy]; intros Hall; cbn.
  - constructor; constructor.
  - inversion Hall; subst. constructor; [apply IH; assumption |].
    apply Forall_app. split; [assumption | constructor; [assumption | constructor]].
Qed.

Lemma avsync_loop_pushes cfg env fuel :
  forall (low : Z) s r s',
    0 <= low <= AvSync.current_index (globals s) ->
    AvSync.current_index (globals s) + Z.of_nat fuel < 2 ^ 64 ->
    Sorted.StronglySorted Z.lt (map Gst.offset (pushed (out s))) ->
    Forall (fun b => Gst.offset b < AvSync.current_index (globals s)) (pushed (out s)) ->
    Forall (unstamped_from low) (pushed (out s)) ->
    AvSync.feed_loop cfg fuel env s = (r, s') ->
    Sorted.StronglySorted Z.lt (map Gst.offset (pushed (out s'))) /\
    Forall (unstamped_from low) (pushed (out s')).
Proof.
  induction fuel as [| fuel IH]; intros low s r s' Hlow Hb Hs Hlt Hu H.
  - cbn in H. inversion H; subst. auto.
  - cbn [AvSync.feed_loop] in H. unfold bind at 1 in H.
    destruct (AvSync.feed_iteration cfg env s) as [rc s1] eqn:Hi.
    destruct (avsync_iteration_cases _ _ _ _ _ Hi) as (_ & Hc). cbn zeta in Hc.
    pose proof (avsync_iteration_pushes _ _ _ _ _ Hi) as Hp.
    set (ci := AvSync.current_index (globals s)) in *.
    assert (Hpost :
      Sorted.StronglySorted Z.lt (map Gst.offset (pushed (out s1))) /\
      Forall (unstamped_from low) (pushed (out s1)) /\
      (rc = Ok Continue ->
       ci <= AvSync.current_index (globals s1) <= ci + 1 /\
       Forall (fun b => Gst.offset b < AvSync.current_index (globals s1))
         (pushed (out s1)))).
    { destruct Hp as [P | (data & P)].
      - rewrite P. split; [exact Hs | split; [exact Hu |]]. intros _.
        destruct Hc as [(_ & G) | [(_ & G & _) | (b & Pb & _)]].
        + rewrite G. fold ci. split; [lia | exact Hlt].
        + rewrite G. cbn [AvSync.skip AvSync.current_index]. fold ci.
          rewrite wrap64_small by lia. split; [lia |].
          eapply Forall_impl; [| exact Hlt]. cbn. intros; lia.
        + exfalso. rewrite P in Pb.
          apply (f_equal (@List.length _)) in Pb.
          rewrite List.length_app in Pb. cbn in Pb. lia.
      - rewrite P, map_app. cbn [map AvSync.set_offset Gst.offset].
        split; [apply sorted_snoc; [exact Hs |] | split].
        + apply Forall_map. exact Hlt.
        + apply Forall_app. split; [exact Hu |].
          constructor; [| constructor]. unfold unstamped_from. cbn. fold ci.
          repeat split; try reflexivity; lia.
        + intros ->.
          destruct Hc as [(Pb & _) | [(Pb & _) | (b & _ & _ & [(Hbr & _) | (_ & _ & I & _)])]].
          * exfalso. rewrite P in Pb. apply (f_equal (@List.length _)) in Pb.
            rewrite List.length_app in Pb. cbn in Pb. lia.
          * exfalso. rewrite P in Pb. apply (f_equal (@List.length _)) in Pb.
            rewrite List.length_app in Pb. cbn in Pb. lia.
          * discriminate Hbr.
          * rewrite I. fold ci. rewrite wrap64_small by lia. split; [lia |].
            apply Forall_app. split.
            -- eapply Forall_impl; [| exact Hlt]. cbn. intros; lia.
            -- constructor; [cbn; lia | constructor]. }
    destruct Hpost as (Hs1 & Hu1 & Hc1).
    destruct rc as [[|] | e].
    + destruct (Hc1 eq_refl) as (Hci & Hlt1).
      apply (IH low s1 r s'); try assumption; lia.
    + inversion H; subst. auto.
    + inversion H; subst. auto.
Qed.

(** In every run of the feeder of part_000 the buffers handed to the
    pipeline carry their file index in the offset field and go out in
    strictly increasing index order, each index at most once and none below
    the start index; the feeder sets no PTS, DTS or duration on them. *)
Theorem avsync_pushes_in_index_order
    (cfg : AvSync.Config) (env : Env) (fuel : nat) (start : Z)
    (r : Res bool) (s' : Sys AvSync.Globals) :
  0 <= start -> start + Z.of_nat fuel < 2 ^ 64 ->
  AvSync.feed_frames cfg fuel env (boot (AvSync.initial_globals start)) = (r, s') ->
  Sorted.StronglySorted Z.lt (map Gst.offset (pushed (out s'))) /\
  Forall (unstamped_from start) (pushed (out s')).
Proof.
  intros Hs Hb H. unfold AvSync.feed_frames in H. run_in H.
  apply (avsync_loop_pushes cfg env fuel start _ _ _) with (6 := H);
    unfold boot;
    cbn [globals out AvSync.set_start_time AvSync.initial_globals
         AvSync.current_index pushed flat_map map];
    try constructor; lia.
Qed.

Lemma avsync_pushes_in_index_order_witness :
  let s' := snd (AvSync.feed_frames avsync_cfg_300 3 calm_env
                   (boot (AvSync.initial_globals 7))) in
  Sorted.StronglySorted Z.lt (map Gst.offset (pushed (out s'))) /\
  Forall (unstamped_from 7) (pushed (out s')).
Proof.
  exact (avsync_pushes_in_index_order avsync_cfg_300 calm_env 3 7
           (fst (AvSync.feed_frames avsync_cfg_300 3 calm_env
                   (boot (AvSync.initial_globals 7))))
           (snd (AvSync.feed_frames avsync_cfg_300 3 calm_env
                   (boot (AvSync.initial_globals 7))))
           ltac:(discriminate) ltac:(reflexivity)
           ltac:(vm_compute; reflexivity)).
Defined.

(** ** A frame that is ready, a keyframe and readable *)

(** In the feeder of part_000, for a file that passed the readiness probe
    and the keyframe test and was read whole: when [gst_buffer_map] fails
    the loop is left with nothing pushed; when the pipeline refuses the
    buffer the loop is left with both counters as they were; when the
    pipeline takes it, the pass ends in [continue], the buffer pushed holds
    exactly the bytes read, with the file index as offset, and both
    counters are one higher. *)
Theorem avsync_load_and_push
    (cfg : AvSync.Config) (env : Env) (s s2 s3 : Sys AvSync.Globals)
    (data : list Byte.byte) :
  let path := frame_path_of cfg (globals s) in
  let b := AvSync.set_offset (AvSync.current_index (globals s))
             (Gst.gst_buffer_new_allocate data) in
  is_file_ready path env (snd (AvSync.pace cfg env s)) = (Ok true, s2) ->
  AvSync.is_iframe path env s2 = (Ok true, s3) ->
  ifstream_read (env (tick s3)) path = Bytes data ->
  (buffer_map_ok (env (S (tick s3))) = false ->
   exists s',
     AvSync.feed_iteration cfg env s = (Ok Break, s') /\
     globals s' = globals s /\ pushed (out s') = pushed (out s))
  /\
  (buffer_map_ok (env (S (tick s3))) = true ->
   push_result (env (S (S (tick s3)))) <> Gst.GST_FLOW_OK ->
   exists s',
     AvSync.feed_iteration cfg env s = (Ok Break, s') /\
     (forall fuel, AvSync.feed_loop cfg (S fuel) env s = (Ok true, s')) /\
     globals s' = globals s /\
     out s' = (out s3 ++ [PushBuffer b;
                          Stderr (PushReturned (push_result (env (S (S (tick s3))))))])%list)
  /\
  (buffer_map_ok (env (S (tick s3))) = true ->
   push_result (env (S (S (tick s3)))) = Gst.GST_FLOW_OK ->
   exists s',
     AvSync.feed_iteration cfg env s = (Ok Continue, s') /\
     pushed (out s') = (pushed (out s) ++ [b])%list /\
     Gst.payload b = data /\
     AvSync.frame_counter (globals s') = wrap64 (AvSync.frame_counter (globals s) + 1) /\
     AvSync.current_index (globals s') = wrap64 (AvSync.current_index (globals s) + 1)).
Proof.
  intros path b Hready Hif Hread.
  pose proof (avsync_pace_pair cfg env s) as Hp.
  destruct (silent_avsync_pace _ _ _ _ _ Hp) as (G0 & P0 & _).
  destruct (silent_is_file_ready _ _ _ _ _ Hready) as (G1 & P1 & _).
  destruct (silent_is_iframe _ _ _ _ _ Hif) as (G2 & P2 & _).
  assert (E :
    AvSync.feed_iteration cfg env s
    = bind (observe buffer_map_ok)
        (fun mapped =>
           if negb mapped then bind (cerr BufferMapFailed) (fun _ => ret Break)
           else
             bind (emit (PushBuffer b)) (fun _ =>
             bind (observe push_result) (fun flow =>
               if negb (flow =? Gst.GST_FLOW_OK) then
                 bind (cerr (PushReturned flow)) (fun _ => ret Break)
               else
                 bind (cerr (PushedFrame (AvSync.frame_counter (globals s))
                               (frame_name_of cfg (globals s)))) (fun _ =>
                 bind (put_globals (AvSync.advance (globals s))) (fun _ =>
                 bind (AvSync.log_stats cfg) (fun _ => ret Continue))))))
        env {| globals := globals s3; tick := S (tick s3); out := out s3 |}).
  { unfold AvSync.feed_iteration.
    unfold bind at 1. rewrite Hp.
    unfold bind at 1. unfold get_globals at 1.
    unfold bind at 1. subst path b. unfold frame_path_of, frame_name_of in *.
    rewrite G0, Hready. cbn [negb].
    unfold bind at 1. rewrite Hif. cbn [negb].
    unfold bind at 1. unfold observe at 1. rewrite Hread. reflexivity. }
  split; [| split].
  - intros Hmap. rewrite E.
    unfold bind, observe, cerr, emit, ret. cbn [tick globals out].
    rewrite Hmap. cbn [negb]. eexists. split; [reflexivity |].
    cbn [globals out]. rewrite pushed_app. cbn. rewrite app_nil_r.
    split; congruence.
  - intros Hmap Hflow.
    assert (Hit : exists s',
      AvSync.feed_iteration cfg env s = (Ok Break, s') /\
      globals s' = globals s /\
      out s' = (out s3 ++ [PushBuffer b;
                           Stderr (PushReturned (push_result (env (S (S (tick s3))))))])%list).
    { rewrite E. unfold bind, observe, cerr, emit, ret. cbn [tick globals out].
      rewrite Hmap. cbn [negb tick globals out].
      destruct (Z.eqb_spec (push_result (env (S (S (tick s3))))) Gst.GST_FLOW_OK)
        as [F | _]; [contradiction |].
      cbn [negb]. eexists. split; [reflexivity |]. cbn [globals out].
      rewrite <- app_assoc. split; [congruence | reflexivity]. }
    destruct Hit as (s' & Hit & Hg & Ho). exists s'.
    split; [exact Hit | split; [| split; assumption]].
    intros fuel. cbn [AvSync.feed_loop]. unfold bind at 1. rewrite Hit. reflexivity.
  - intros Hmap Hflow.
    rewrite E. unfold bind at 1. unfold observe at 1. cbn [tick globals out].
    rewrite Hmap. cbn [negb].
    unfold bind at 1. unfold emit at 1. cbn [tick globals out].
    unfold bind at 1. unfold observe at 1. cbn [tick globals out].
    rewrite Hflow. cbn [Z.eqb negb Gst.GST_FLOW_OK].
    unfold bind at 1. unfold cerr, emit at 1. cbn [tick globals out].
    unfold bind at 1. unfold put_globals at 1. cbn [tick globals out].
    unfold bind at 1.
    match goal with
    | |- context [AvSync.log_stats cfg env ?st] =>
        destruct (AvSync.log_stats cfg env st) as [r3 s4] eqn:Hl
    end.
    destruct (avsync_log_stats_effect _ _ _ _ _ Hl) as (-> & F3 & I3 & _ & P3 & _).
    cbn [globals out] in F3, I3, P3.
    rewrite !pushed_app in P3. cbn in P3. rewrite !app_nil_r in P3.
    unfold ret. eexists. split; [reflexivity |].
    rewrite P3, F3, I3, P2, P1, P0. cbn. auto.
Qed.

Lemma avsync_load_and_push_witness :
  exists s',
    AvSync.feed_iteration avsync_cfg_300 calm_env
      (boot (AvSync.initial_globals 7)) = (Ok Continue, s') /\
    pushed (out s')
    = [AvSync.set_offset 7 (Gst.gst_buffer_new_allocate [])].
Proof.
  destruct (proj2 (proj2
              (avsync_load_and_push avsync_cfg_300 calm_env
                 (boot (AvSync.initial_globals 7))
                 (snd (is_file_ready
                         (frame_path_of avsync_cfg_300 (AvSync.initial_globals 7))
                         calm_env
                         (snd (AvSync.pace avsync_cfg_300 calm_env
                                 (boot (AvSync.initial_globals 7))))))
                 (snd (AvSync.is_iframe
                         (frame_path_of avsync_cfg_300 (AvSync.initial_globals 7))
                         calm_env
                         (snd (is_file_ready
                                 (frame_path_of avsync_cfg_300 (AvSync.initial_globals 7))
                                 calm_env
                                 (snd (AvSync.pace avsync_cfg_300 calm_env
                                         (boot (AvSync.initial_globals 7))))))))
                 []
                 ltac:(vm_compute; reflexivity)
                 ltac:(vm_compute; reflexivity)
                 ltac:(vm_compute; reflexivity)))
              ltac:(vm_compute; reflexivity) ltac:(vm_compute; reflexivity))
    as (s' & Hit & Hp & _).
  exists s'. split; [exact Hit | exact Hp].
Defined.

(** ** Waiting for a file that does not come *)

Lemma sleeps_app (a b : list Event) : sleeps (a ++ b) = (sleeps a ++ sleeps b)%list.
Proof. unfold sleeps. apply flat_map_app. Qed.

Lemma avsync_pass_without_file cfg env s :
  files (env (S (tick s))) (frame_path_of cfg (globals s)) = None ->
  exists s',
    AvSync.feed_iteration cfg env s = (Ok Continue, s') /\
    globals s' = globals s /\
    tick s' = S (S (tick s)) /\
    pushed (out s') = pushed (out s) /\
    sleeps (out s') = (sleeps (out s) ++ [100])%list.
Proof.
  intros Hnone.
  pose proof (avsync_pace_pair cfg env s) as Hp.
  destruct (silent_avsync_pace _ _ _ _ _ Hp) as (G0 & P0 & _).
  assert (Hs0 : tick (snd (AvSync.pace cfg env s)) = S (tick s) /\
                sleeps (out (snd (AvSync.pace cfg env s))) = sleeps (out s)).
  { unfold AvSync.pace, bind, get_globals, clock_now, observe, sleep_until,
      cerr, emit, ret. cbn [tick globals out fst snd].
    destruct (wrap64 _ <? _); cbn [snd tick out];
      [rewrite sleeps_app; cbn; rewrite app_nil_r; auto |].
    destruct (AvSync.behind cfg _); cbn [snd tick out]; [| auto].
    rewrite sleeps_app; cbn; rewrite app_nil_r; auto. }
  destruct Hs0 as (T0 & S0).
  set (s0 := snd (AvSync.pace cfg env s)) in *.
  assert (Hr : is_file_ready (frame_path_of cfg (globals s)) env s0
               = (Ok false, {| globals := globals s0; tick := S (tick s0);
                               out := out s0 |})).
  { apply is_file_ready_absent. rewrite T0. exact Hnone. }
  eexists. split.
  - unfold AvSync.feed_iteration. unfold bind at 1. rewrite Hp.
    unfold bind at 1. unfold get_globals at 1. unfold bind at 1.
    unfold frame_path_of, frame_name_of in Hr. rewrite G0, Hr. cbn [negb].
    unfold bind, cerr, sleep_for, emit, ret. cbn [tick globals out]. reflexivity.
  - cbn [globals tick out]. rewrite !pushed_app, !sleeps_app. cbn.
    rewrite !app_nil_r, T0, S0, P0. auto.
Qed.

(** While the file of the current index is missing, the feeder of part_000
    neither stops nor moves on: after any number of passes the loop is
    still running, every variable is as it was, nothing has been pushed,
    and it has slept 100 ms once per pass. *)
Theorem avsync_waits_for_missing_file (cfg : AvSync.Config) (env : Env)
    (fuel : nat) :
  forall (s : Sys AvSync.Globals),
    (forall t, files (env t) (frame_path_of cfg (globals s)) = None) ->
    exists s',
      AvSync.feed_loop cfg fuel env s = (Ok false, s') /\
      globals s' = globals s /\
      pushed (out s') = pushed (out s) /\
      sleeps (out s') = (sleeps (out s) ++ repeat 100 fuel)%list.
Proof.
  induction fuel as [| fuel IH]; intros s Hnone.
  - exists s. cbn. rewrite app_nil_r. auto.
  - destruct (avsync_pass_without_file cfg env s (Hnone _))
      as (s1 & Hit & G1 & _ & P1 & S1).
    destruct (IH s1) as (s' & Hl & G' & P' & S').
    { intros t. rewrite G1. apply Hnone. }
    exists s'. split.
    + cbn [AvSync.feed_loop]. unfold bind at 1. rewrite Hit. exact Hl.
    + rewrite G', P', S', G1, P1, S1, <- app_assoc. auto.
Qed.

Lemma avsync_waits_for_missing_file_witness :
  exists s',
    AvSync.feed_loop avsync_cfg_300 4 empty_env
      (boot (AvSync.initial_globals 7)) = (Ok false, s') /\
    globals s' = AvSync.initial_globals 7 /\
    pushed (out s') = [] /\
    sleeps (out s') = [100; 100; 100; 100].
Proof.
  exact (avsync_waits_for_missing_file avsync_cfg_300 empty_env 4
           (boot (AvSync.initial_globals 7))
           ltac:(intros t; reflexivity)).
Defined.

Lemma main_pass_without_file cfg env s :
  files (env (S (tick s))) (main_frame_path_of cfg (globals s)) = None ->
  exists s',
    Main.feed_iteration cfg env s = (Ok Continue, s') /\
    main_counters (globals s') = main_counters (globals s) /\
    Main.next_frame_time (globals s')
    = Main.next_frame_time (globals s) + Main.frame_interval_us cfg * 1000 /\
    tick s' = S (S (tick s)) /\
    pushed (out s') = pushed (out s) /\
    sleeps (out s') = (sleeps (out s) ++ [100])%list.
Proof.
  intros Hnone.
  pose proof (main_pace_pair cfg env s) as Hp.
  assert (Hs0 :
    tick (snd (Main.pace cfg env s)) = S (tick s) /\
    sleeps (out (snd (Main.pace cfg env s))) = sleeps (out s) /\
    pushed (out (snd (Main.pace cfg env s))) = pushed (out s) /\
    globals (snd (Main.pace cfg env s))
    = Main.set_next_frame_time
        (Main.next_frame_time (globals s) + Main.frame_interval_us cfg * 1000)
        (globals s)).
  { unfold Main.pace, bind, get_globals, put_globals, clock_now, observe,
      sleep_until, emit, ret. cbn [tick globals out fst snd].
    destruct (steady_now (env (tick s)) <? Main.next_frame_time (globals s));
      cbn [snd tick out globals]; rewrite ?sleeps_app, ?pushed_app; cbn;
      rewrite ?app_nil_r; auto. }
  destruct Hs0 as (T0 & S0 & P0 & G0).
  set (s0 := snd (Main.pace cfg env s)) in *.
  assert (Hr : is_file_ready (main_frame_path_of cfg (globals s)) env s0
               = (Ok false, {| globals := globals s0; tick := S (tick s0);
                               out := out s0 |})).
  { apply is_file_ready_absent. rewrite T0. exact Hnone. }
  eexists. split.
  - unfold Main.feed_iteration. unfold bind at 1. rewrite Hp.
    unfold bind at 1. unfold get_globals at 1. unfold bind at 1.
    assert (C0 : Main.current_index (globals s)
                 = Main.current_index (globals s0))
      by (rewrite G0; reflexivity).
    unfold main_frame_path_of in Hr. rewrite C0 in Hr.
    rewrite Hr. cbn [negb].
    unfold bind, cerr, sleep_for, emit, ret. cbn [tick globals out]. reflexivity.
  - cbn [globals tick out]. rewrite !pushed_app, !sleeps_app. cbn.
    rewrite !app_nil_r, T0, S0, P0, G0. cbn. auto 10.
Qed.

(** While the file of the current index is missing, the feeder of
    [src/main.cpp] keeps running with its counters unchanged and nothing
    pushed, sleeping 100 ms per pass, and still moves [next_frame_time] on
    by one frame interval at every pass: the schedule runs ahead of the
    frames by one interval for each pass spent waiting. *)
Theorem main_waits_for_missing_file (cfg : Main.Config) (env : Env)
    (fuel : nat) :
  forall (s : Sys Main.Globals),
    (forall t, files (env t) (main_frame_path_of cfg (globals s)) = None) ->
    exists s',
      Main.feed_loop cfg fuel env s = (Ok false, s') /\
      main_counters (globals s') = main_counters (globals s) /\
      Main.next_frame_time (globals s')
      = Main.next_frame_time (globals s)
        + Z.of_nat fuel * (Main.frame_interval_us cfg * 1000) /\
      pushed (out s') = pushed (out s) /\
      sleeps (out s') = (sleeps (out s) ++ repeat 100 fuel)%list.
Proof.
  induction fuel as [| fuel IH]; intros s Hnone.
  - exists s. cbn [Main.feed_loop repeat]. rewrite app_nil_r.
    repeat split; try reflexivity. lia.
  - destruct (main_pass_without_file cfg env s (Hnone _))
      as (s1 & Hit & K1 & N1 & _ & P1 & S1).
    assert (Hpath : main_frame_path_of cfg (globals s1)
                    = main_frame_path_of cfg (globals s)).
    { unfold main_frame_path_of. unfold main_counters in K1.
      injection K1 as _ I _ _. rewrite I. reflexivity. }
    destruct (IH s1) as (s' & Hl & K' & N' & P' & S').
    { intros t. rewrite Hpath. apply Hnone. }
    exists s'. split.
    + cbn [Main.feed_loop]. unfold bind at 1. rewrite Hit. exact Hl.
    + rewrite K', N', P', S', K1, N1, P1, S1, <- app_assoc.
      repeat split; try reflexivity. lia.
Qed.

Lemma main_waits_for_missing_file_witness :
  exists s',
    Main.feed_loop (main_cfg 300) 4 empty_env
      (boot (Main.initial_globals 7)) = (Ok false, s') /\
    Main.next_frame_time (globals s') = 0 + Z.of_nat 4 * (3333 * 1000) /\
    pushed (out s') = [].
Proof.
  destruct (main_waits_for_missing_file (main_cfg 300) empty_env 4
              (boot (Main.initial_globals 7))
              ltac:(intros t; reflexivity))
    as (s' & Hl & _ & Hn & Hp & _).
  exists s'. split; [exact Hl | split; [exact Hn | exact Hp]].
Defined.
